(** * FedDualFix: the source-line correlation and patch application engine

    A shallow embedding of [src/parse.py] (code blocks and explanation of
    a response, line normaliser, exact and neighbour matcher, unique-match
    resolver), of [src/patch.py] (patch application engine) and of
    [parse_response] of the patch agents, with the properties of the
    engine stated and proved over the embedding.

    Conventions of the embedding.
    - A Python [str] is a [string]; a character is a code point below 256.
      The character classes of Python ([str.isspace], the regex classes
      [\s] and [\d], the line boundaries of [str.splitlines]) are written
      out for that range.
    - A Python [int] is a [Z]; a list index follows Python: a negative
      index counts from the end, an index out of range raises IndexError.
    - A function that may raise returns a [result]; the exceptions are the
      ones the two modules can raise. *)

From Stdlib Require Import String Ascii ZArith Lia Bool NArith Sorted.
From stdpp Require Import base list gmap.

Local Open Scope string_scope.
Local Open Scope Z_scope.

(* ===================================================================== *)
(** ** Python strings *)
(* ===================================================================== *)

Module PyStr.

Definition code (c : ascii) : N := N_of_ascii c.

(** [str.isspace] on one character, which is also the regex class [\s]:
    TAB LF VT FF CR, FS GS RS US, SPACE, NEL and NBSP. *)
Definition isspace (c : ascii) : bool :=
  let n := code c in
  ((9 <=? n) && (n <=? 13) || (28 <=? n) && (n <=? 32)
   || (n =? 133) || (n =? 160))%N.

(** The regex class [\d]. *)
Definition isdigit (c : ascii) : bool :=
  let n := code c in ((48 <=? n) && (n <=? 57))%N.

(** The regex class [[A-Za-z0-9]]. *)
Definition isalnum_ascii (c : ascii) : bool :=
  let n := code c in
  ((48 <=? n) && (n <=? 57) || (65 <=? n) && (n <=? 90)
   || (97 <=? n) && (n <=? 122))%N.

(** The line boundaries of [str.splitlines]: LF VT FF CR FS GS RS NEL. *)
Definition islinebreak (c : ascii) : bool :=
  let n := code c in
  ((10 <=? n) && (n <=? 13) || (28 <=? n) && (n <=? 30) || (n =? 133))%N.

Definition LF : ascii := "010"%char.
Definition CR : ascii := "013"%char.
Definition TAB : ascii := "009"%char.
Definition SP : ascii := " "%char.

Definition is_empty (s : string) : bool :=
  match s with EmptyString => true | String _ _ => false end.

(** [s.lstrip()] *)
Fixpoint lstrip (s : string) : string :=
  match s with
  | EmptyString => EmptyString
  | String c s' => if isspace c then lstrip s' else s
  end.

(** [s.rstrip()] *)
Fixpoint rstrip (s : string) : string :=
  match s with
  | EmptyString => EmptyString
  | String c s' =>
      let r := rstrip s' in
      if is_empty r && isspace c then EmptyString else String c r
  end.

(** [s.strip()] *)
Definition strip (s : string) : string := lstrip (rstrip s).

(** [s.replace(c, '')] for a one-character [c]. *)
Fixpoint remove_char (c : ascii) (s : string) : string :=
  match s with
  | EmptyString => EmptyString
  | String d s' =>
      if Ascii.eqb d c then remove_char c s' else String d (remove_char c s')
  end.

(** [s.startswith(p)] *)
Definition startswith (p s : string) : bool := String.prefix p s.

(** [p in s] *)
Fixpoint contains (p s : string) : bool :=
  String.prefix p s ||
  match s with
  | EmptyString => false
  | String _ s' => contains p s'
  end.

(** [s.split(sep)[0]]: the text before the first occurrence of a
    non-empty [sep], the whole of [s] when there is none. *)
Fixpoint split_head (sep s : string) : string :=
  if String.prefix sep s then EmptyString
  else match s with
       | EmptyString => EmptyString
       | String c s' => String c (split_head sep s')
       end.

(** [s[1:]] *)
Definition tail (s : string) : string :=
  match s with EmptyString => EmptyString | String _ s' => s' end.

(** [s.splitlines()]: a line ends at a line boundary, CR LF counts as
    one boundary, and no empty line is produced after the last
    boundary. *)
Fixpoint splitlines (s : string) : list string :=
  match s with
  | EmptyString => []
  | String c s' =>
      if islinebreak c then
        EmptyString ::
          (if Ascii.eqb c CR then
             match s' with
             | String d s'' => if Ascii.eqb d LF then splitlines s'' else splitlines s'
             | EmptyString => []
             end
           else splitlines s')
      else
        match splitlines s' with
        | [] => [String c EmptyString]
        | l :: ls => String c l :: ls
        end
  end.

(** [sep.join(l)] *)
Definition join (sep : string) (l : list string) : string := String.concat sep l.

End PyStr.

(* ===================================================================== *)
(** ** Regular expressions of Python's [re], as far as the engine uses them *)
(* ===================================================================== *)

Module Re.

(** The syntax the patterns of [patch.py] need. A literal, a class and
    [.] are all one-character tests. *)
Inductive regex : Type :=
| RChar (p : ascii -> bool)
| RSeq (r1 r2 : regex)
| RAlt (r1 r2 : regex)
| RStar (r : regex)
| RGroup (n : nat) (r : regex)
| RBol
| REol.

(** [r+] is [r r*]. *)
Definition RPlus (r : regex) : regex := RSeq r (RStar r).

Definition RLit (c : ascii) : regex := RChar (Ascii.eqb c).

(** Captured groups: group number, start and end offset. *)
Definition caps : Type := list (nat * (nat * nat)).

Definition cont : Type := nat -> string -> caps -> option (nat * caps).

(** The rounds of a repetition [r*], longest first: [body] matches [r]
    once. A round has to consume a character, and [n] bounds the rounds
    by the number of characters left, which [star_loop_fuel] shows to be
    enough. *)
Fixpoint star_loop (body : nat -> string -> caps -> cont -> option (nat * caps))
    (k : cont) (n : nat) (pos : nat) (s : string) (g : caps) {struct n}
  : option (nat * caps) :=
  match n with
  | O => k pos s g
  | S n' =>
      match body pos s g
              (fun pos' s' g' =>
                 if (pos <? pos')%nat then star_loop body k n' pos' s' g' else None) with
      | Some x => Some x
      | None => k pos s g
      end
  end.

(** The backtracking matcher: [exec r pos s g k] matches [r] at offset
    [pos], where [s] is the text from [pos] on, and hands the rest to
    the continuation [k]; the first success in the search order of [re]
    (left alternative first, longest repetition first) is the result. *)
Fixpoint exec (r : regex) (pos : nat) (s : string) (g : caps) (k : cont)
  : option (nat * caps) :=
  match r with
  | RChar p =>
      match s with
      | String c s' => if p c then k (S pos) s' g else None
      | EmptyString => None
      end
  | RSeq r1 r2 => exec r1 pos s g (fun pos' s' g' => exec r2 pos' s' g' k)
  | RAlt r1 r2 =>
      match exec r1 pos s g k with
      | Some x => Some x
      | None => exec r2 pos s g k
      end
  | RStar r1 => star_loop (exec r1) k (String.length s) pos s g
  | RGroup n r1 =>
      exec r1 pos s g (fun pos' s' g' => k pos' s' ((n, (pos, pos')) :: g'))
  | RBol => if (pos =? 0)%nat then k pos s g else None
  | REol =>
      match s with
      | EmptyString => k pos s g
      | String c EmptyString => if Ascii.eqb c PyStr.LF then k pos s g else None
      | _ => None
      end
  end.

Definition accept : cont := fun pos _ g => Some (pos, g).

(** [re.match(r, s)] as a truth value. *)
Definition re_match (r : regex) (s : string) : bool :=
  match exec r 0 s [] accept with Some _ => true | None => false end.

(** [re.search(r, s)] as a truth value: the first offset with a match. *)
Fixpoint search_from (r : regex) (pos : nat) (s : string) : bool :=
  match exec r pos s [] accept with
  | Some _ => true
  | None =>
      match s with
      | EmptyString => false
      | String _ s' => search_from r (S pos) s'
      end
  end.

Definition re_search (r : regex) (s : string) : bool := search_from r 0 s.

(** The text of group [n] after a match on [whole]. *)
Definition group (whole : string) (g : caps) (n : nat) : string :=
  match List.find (fun e => Nat.eqb (fst e) n) g with
  | Some (_, (b, e)) => String.substring b (e - b) whole
  | None => EmptyString
  end.

(** [re.sub(r, repl, s)]: the non-overlapping matches of [r], leftmost
    first, are replaced. [skip] counts the characters of the last match
    that are still to be passed over. The pattern of [patch.py] matches
    no empty text; after an empty match the next character is copied. *)
Fixpoint sub_from (r : regex) (repl : caps -> string) (pos skip : nat) (s : string)
  : string :=
  match skip with
  | S skip' =>
      match s with
      | String _ s' => sub_from r repl (S pos) skip' s'
      | EmptyString => EmptyString
      end
  | O =>
      match exec r pos s [] accept with
      | Some (e, g) =>
          repl g ++
          match s with
          | String c s' =>
              if (e =? pos)%nat then String c (sub_from r repl (S pos) 0 s')
              else sub_from r repl (S pos) (e - pos - 1) s'
          | EmptyString => EmptyString
          end
      | None =>
          match s with
          | String c s' => String c (sub_from r repl (S pos) 0 s')
          | EmptyString => EmptyString
          end
      end
  end.

Definition re_sub (r : regex) (repl : string -> caps -> string) (s : string) : string :=
  sub_from r (repl s) 0 0 s.

(** A sequence of regexes, and a literal text. *)
Fixpoint rseq (r : regex) (rs : list regex) : regex :=
  match rs with
  | [] => r
  | r' :: rs' => RSeq r (rseq r' rs')
  end.

Definition any_but_newline (c : ascii) : bool := negb (Ascii.eqb c PyStr.LF).

End Re.

Import Re.

Definition nl : string := String PyStr.LF EmptyString.

(** The patterns of [patch.py]. *)

(** [(@@[\s\d\+\-\,]+@@)(\s+[^\n]+)] *)
Definition hunk_split_re : regex :=
  RSeq
    (RGroup 1 (rseq (RLit "@") [RLit "@";
       RPlus (RChar (fun c => PyStr.isspace c || PyStr.isdigit c
                              || Ascii.eqb c "+" || Ascii.eqb c "-" || Ascii.eqb c ","));
       RLit "@"; RLit "@"]))
    (RGroup 2 (RSeq (RPlus (RChar PyStr.isspace)) (RPlus (RChar any_but_newline)))).

(** [^@@\s-\d+,\d+\s\+\d+,\d+\s@@.*] *)
Definition hunk_header_re : regex :=
  rseq RBol [RLit "@"; RLit "@"; RChar PyStr.isspace; RLit "-";
             RPlus (RChar PyStr.isdigit); RLit ","; RPlus (RChar PyStr.isdigit);
             RChar PyStr.isspace; RLit "+";
             RPlus (RChar PyStr.isdigit); RLit ","; RPlus (RChar PyStr.isdigit);
             RChar PyStr.isspace; RLit "@"; RLit "@"; RStar (RChar any_but_newline)].

(** [^[sign](\s|\t)+.*$], for the signs of a signed line. *)
Definition signed_re (sign : ascii -> bool) : regex :=
  rseq RBol [RChar sign;
             RPlus (RGroup 1 (RAlt (RChar PyStr.isspace) (RLit PyStr.TAB)));
             RStar (RChar any_but_newline); REol].

(** [^[-+](\s|\t)+.*$] *)
Definition sign_re : regex := signed_re (fun c => Ascii.eqb c "-" || Ascii.eqb c "+").
(** [^[-](\s|\t)+.*$] *)
Definition removed_re : regex := signed_re (Ascii.eqb "-").
(** [^[+](\s|\t)+.*$] *)
Definition added_re : regex := signed_re (Ascii.eqb "+").

(** [[A-Za-z0-9]$] *)
Definition ends_alnum_re : regex := RSeq (RChar PyStr.isalnum_ascii) REol.

(* ===================================================================== *)
(** ** Exceptions and Python list indexing *)
(* ===================================================================== *)

(** The exceptions the two modules can raise: [NoCodeError] is the
    Malformed Patch signal and [NotPatchError] the No-Op Patch signal of
    [patching]; the other two are Python's own. *)
Inductive exn : Type := NoCodeError | NotPatchError | IndexError | TypeError.

Inductive result (A : Type) : Type :=
| Ok (a : A)
| Raise (e : exn).
Arguments Ok {A} a.
Arguments Raise {A} e.

Definition rbind {A B} (m : result A) (f : A -> result B) : result B :=
  match m with
  | Ok a => f a
  | Raise e => Raise e
  end.

Notation "'do' x <- m ; k" := (rbind m (fun x => k))
  (at level 10, x name, m at level 100, k at level 200, only parsing).

Definition len {A} (l : list A) : Z := Z.of_nat (length l).

(** The position a Python index denotes in a list of length [n]. *)
Definition py_pos (n i : Z) : option nat :=
  if (0 <=? i) && (i <? n) then Some (Z.to_nat i)
  else if (- n <=? i) && (i <? 0) then Some (Z.to_nat (n + i))
  else None.

(** [l[i]] *)
Definition py_getitem {A} (l : list A) (i : Z) : result A :=
  match py_pos (len l) i with
  | Some n => match l !! n with Some x => Ok x | None => Raise IndexError end
  | None => Raise IndexError
  end.

(** [l[i] = v] *)
Definition py_setitem {A} (l : list A) (i : Z) (v : A) : result (list A) :=
  match py_pos (len l) i with
  | Some n => Ok (<[n := v]> l)
  | None => Raise IndexError
  end.

(* ===================================================================== *)
(** ** [src/parse.py] *)
(* ===================================================================== *)

(** [line.replace('\n', '').replace(' ', '')] *)
Definition remove_whitespace (line : string) : string :=
  PyStr.remove_char PyStr.SP (PyStr.remove_char PyStr.LF line).

Definition nonempty (s : string) : bool := negb (PyStr.is_empty s).

(** Both lines are text here; the [None] of the source's [Optional] is
    tested by the callers ([matching_lines]). *)
Definition two_lines_match (line1 line2 : string) : bool :=
  if PyStr.is_empty line1 || PyStr.is_empty line2 then false
  else
    let s1 := PyStr.strip line1 in
    let s2 := PyStr.strip line2 in
    if PyStr.is_empty s1 || PyStr.is_empty s2 then false
    else if PyStr.startswith "//" s1 && PyStr.startswith "//" s2 then
      nonempty (remove_whitespace s1) && nonempty (remove_whitespace s2)
      && String.eqb (remove_whitespace s1) (remove_whitespace s2)
    else
      let l1 := remove_whitespace (PyStr.split_head "//" line1) in
      let l2 := remove_whitespace (PyStr.split_head "//" line2) in
      nonempty l1 && nonempty l2 && String.eqb l1 l2.

Definition exist_line (line : string) (mylst : option (list string)) : bool :=
  match mylst with
  | None => true
  | Some lst => existsb (fun l => two_lines_match l line) lst
  end.

(** A line is a text here, so the test [line is None] is left out. *)
Definition is_valid_line (line : string) (length : Z) : bool :=
  let nowh := remove_whitespace line in
  if Z.of_nat (String.length nowh) <=? length then false
  else
    let s := PyStr.strip line in
    match s with
    | EmptyString => false
    | String c _ =>
        if Ascii.eqb c "+" then false
        else if PyStr.contains "missing" line || PyStr.contains "buggy" line then false
        else true
    end.

(** The [mode] argument: ["pre"] walks back, any other text forward. *)
Inductive mode : Type := Pre | Post.

Definition incre_of (m : mode) : Z := match m with Pre => -1 | Post => 1 end.

(** The [while] loop of [search_valid_line]. The outer [None] is the
    fuel running out, which [search_loop_fuel] excludes for the fuel
    [search_valid_line] gives it. *)
Fixpoint search_loop (fuel : nat) (lines : list string) (existing : option (list string))
    (incre cur_idx degree : Z) : option (option (Z * string)) :=
  match fuel with
  | O => None
  | S fuel' =>
      if (0 <=? cur_idx) && (cur_idx <? len lines) then
        match lines !! Z.to_nat cur_idx with
        | Some line =>
            if is_valid_line line 0 && exist_line line existing then
              let degree := degree - 1 in
              if degree =? 0 then Some (Some (cur_idx, line))
              else search_loop fuel' lines existing incre (cur_idx + incre) degree
            else search_loop fuel' lines existing incre (cur_idx + incre) degree
        | None => Some None
        end
      else Some None
  end.

Definition search_valid_line (lines : list string) (start_idx : Z) (m : mode)
    (degree : Z) (existing : option (list string)) : option (Z * string) :=
  let incre := incre_of m in
  let cur_idx := start_idx + incre in
  match search_loop (S (length lines)) lines existing incre cur_idx degree with
  | Some r => r
  | None => None
  end.

(** The list comprehension [[m for m in matched if ... code_lines[m] ...]]. *)
Fixpoint matching_with_comments (aim_line : string) (matched : list Z)
    (code_lines : list string) : result (list Z) :=
  match matched with
  | [] => Ok []
  | m :: rest =>
      do cl <- py_getitem code_lines m;
      do out <- matching_with_comments aim_line rest code_lines;
      Ok (if String.eqb (remove_whitespace aim_line) (remove_whitespace cl)
          then m :: out else out)
  end.

(** The loop of [matching_lines] over [enumerate(code_lines)], from
    index [idx] on. *)
Fixpoint matching_lines_from (idx : Z) (aim_line : string) (code_lines : list string)
    (stop_at_first_match : bool) : list Z :=
  match code_lines with
  | [] => []
  | cl :: rest =>
      if two_lines_match aim_line cl then
        if stop_at_first_match then [idx]
        else idx :: matching_lines_from (idx + 1) aim_line rest stop_at_first_match
      else matching_lines_from (idx + 1) aim_line rest stop_at_first_match
  end.

Definition matching_lines (aim_line : option string) (code_lines : list string)
    (stop_at_first_match : bool) : list Z :=
  match aim_line with
  | None => []
  | Some aim => matching_lines_from 0 aim code_lines stop_at_first_match
  end.

(** [for mi in now: m = search_valid_line(raw_codes, mi, mode, degree);
    if m is not None and two_lines_match(aim, m[1]): also.append(mi)] *)
Definition neighbors_also (raw_codes : list string) (m : mode) (degree : Z)
    (aim : string) (now : list Z) : list Z :=
  List.filter
    (fun mi => match search_valid_line raw_codes mi m degree None with
               | Some (_, l) => two_lines_match aim l
               | None => false
               end) now.

(** [set(a) & set(b)], as a list without repetition. *)
Definition set_inter (a b : list Z) : list Z :=
  List.nodup Z.eq_dec (List.filter (fun x => existsb (Z.eqb x) b) a).

Definition is_nil {A} (l : list A) : bool :=
  match l with [] => true | _ => false end.

(** The [for degree in range(1, degree_limit + 1)] loop of
    [matching_neighbor], over the degrees still to come. *)
Fixpoint matching_neighbor_loop (degrees : list Z) (aim_codes : list string)
    (aim_idx : Z) (raw_codes : list string) (existing_pool : option (list string))
    (pre_now post_now : list Z) : list Z :=
  match degrees with
  | [] => []
  | degree :: degrees' =>
      let aim_pre := search_valid_line aim_codes aim_idx Pre degree existing_pool in
      let aim_post := search_valid_line aim_codes aim_idx Post degree existing_pool in
      let pre_also :=
        match aim_pre with
        | Some (_, l) => neighbors_also raw_codes Pre degree l pre_now
        | None => []
        end in
      if bool_decide (is_Some aim_pre) && (len pre_also =? 1) then pre_also
      else
        let post_also :=
          match aim_post with
          | Some (_, l) => neighbors_also raw_codes Post degree l post_now
          | None => []
          end in
        if bool_decide (is_Some aim_post) && (len post_also =? 1) then post_also
        else
          let inter := set_inter pre_also post_also in
          if negb (is_nil pre_also) && negb (is_nil post_also) && (len inter =? 1)
          then inter
          else if is_nil pre_also && is_nil post_also then []
          else matching_neighbor_loop degrees' aim_codes aim_idx raw_codes
                 existing_pool pre_also post_also
  end.

(** [range(lo, hi)] *)
Definition py_range (lo hi : Z) : list Z :=
  List.map (fun k => lo + Z.of_nat k) (List.seq 0 (Z.to_nat (hi - lo))).

Definition matching_neighbor (aim_codes : list string) (aim_idx : Z)
    (raw_codes : list string) (matched : list Z) (existing : bool)
    (degree_limit : Z) : list Z :=
  let existing_pool := if existing then Some raw_codes else None in
  matching_neighbor_loop (py_range 1 (degree_limit + 1)) aim_codes aim_idx raw_codes
    existing_pool matched matched.

Definition NoCandidate : Z := -2.
Definition Ambiguous : Z := -1.

(** [resp_lines[resp_cur_idx] if resp_cur_line is None else resp_cur_line] *)
Definition target_line (resp_lines : list string) (resp_cur_idx : Z)
    (resp_cur_line : option string) : result string :=
  match resp_cur_line with
  | None => py_getitem resp_lines resp_cur_idx
  | Some l => Ok l
  end.

Definition unique_matching (resp_lines code_lines : list string) (resp_cur_idx : Z)
    (resp_cur_line : option string) (existing : bool) : result Z :=
  do target <- target_line resp_lines resp_cur_idx resp_cur_line;
  let matched := matching_lines (Some target) code_lines false in
  match matched with
  | [m] => Ok m
  | [] => Ok NoCandidate
  | _ =>
      let neighbor := matching_neighbor resp_lines resp_cur_idx code_lines matched
                        existing 5 in
      match neighbor with
      | [n] => Ok n
      | _ => Ok Ambiguous
      end
  end.

(* ===================================================================== *)
(** ** [src/patch.py] *)
(* ===================================================================== *)

(** [re.compile(...).sub(r'\1\n\2', patch).splitlines()] *)
Definition _format_patch_lines (patch : string) : list string :=
  PyStr.splitlines
    (re_sub hunk_split_re (fun whole g => group whole g 1 ++ nl ++ group whole g 2) patch).

Definition keywords : list string := ["public"; "private"; "protected"].

(** The body of the loop of [_format_code] at index [i], where [line] is
    the line of the snapshot [list(out)]. *)
Definition format_code_step (i : Z) (line : string) (out : list string)
    : result (list string) :=
  match List.find (String.eqb (PyStr.remove_char PyStr.SP line)) keywords with
  | Some k =>
      do out <- py_setitem out i EmptyString;
      if i + 1 <? len out then
        do next <- py_getitem out (i + 1);
        py_setitem out (i + 1) (k ++ " " ++ PyStr.lstrip next)
      else Ok out
  | None =>
      if (i <? len out - 1)
         && negb (PyStr.contains "class" line)
         && negb (PyStr.startswith "*" (PyStr.strip line))
         && (negb (PyStr.contains "//" line) && negb (PyStr.contains "/*" line))
         && re_search ends_alnum_re line
      then
        do next <- py_getitem out (i + 1);
        do out <- py_setitem out i (PyStr.rstrip line ++ " " ++ PyStr.lstrip next);
        py_setitem out (i + 1) EmptyString
      else Ok out
  end.

Fixpoint format_code_loop (i : Z) (snapshot : list string) (out : list string)
    : result (list string) :=
  match snapshot with
  | [] => Ok out
  | line :: rest =>
      do out <- format_code_step i line out;
      format_code_loop (i + 1) rest out
  end.

(** [out = list(code_lines)], then the loop over [enumerate(list(out))]. *)
Definition _format_code (code_lines : list string) : result (list string) :=
  format_code_loop 0 code_lines code_lines.

(** [any(re.match(hunk header, ln.strip()) for ln in patch_lines)] *)
Definition has_hunk (patch_lines : list string) : bool :=
  existsb (fun ln => re_match hunk_header_re (PyStr.strip ln)) patch_lines.

(** [any(re.match(signed line, ln.strip()) for ln in patch_lines)] *)
Definition has_sign (patch_lines : list string) : bool :=
  existsb (fun ln => re_match sign_re (PyStr.strip ln)) patch_lines.

Definition _is_a_patch (patch_lines : list string) : bool :=
  has_hunk patch_lines && has_sign patch_lines.

Definition _find_a_matched_line (pidx : Z) (pline : string) (code_lines patch_lines : list string)
    (lag : Z) (existing : bool) : result Z :=
  let matched := matching_lines (Some pline) code_lines false in
  let matched := if 0 <=? lag then List.filter (fun m => lag <? m) matched else matched in
  match matched with
  | [m] => Ok m
  | _ =>
      do perfect <- matching_with_comments pline matched code_lines;
      match perfect with
      | [m] => Ok m
      | _ => unique_matching patch_lines code_lines pidx (Some pline) existing
      end
  end.

(** A cell of the [patched] list: a text, or a list whose items are
    cells again ([patched[i] = [new, patched[i]]] nests the old cell). *)
#[warnings="-register-all"]
Inductive slot : Type :=
| SStr (s : string)
| SList (l : list slot).

(** The state of the pass of [patching] over the patch lines. *)
Record pstate : Type := mkState {
  patched : list slot;
  unpatched : list (Z * string);
  to_patch : Z;
  replace_idx : Z;
  prev_patch_idx : Z
}.

(** [x += text] on a cell: a text is extended; a list is extended in
    place by the characters of [text], one item each. *)
Definition slot_iadd (x : slot) (text : string) : slot :=
  match x with
  | SStr s => SStr (s ++ text)
  | SList l => SList (l ++ List.map (fun c => SStr (String c EmptyString))
                                (list_ascii_of_string text))
  end.

(** [prev_patch_idx >= 0 and prev_patch_idx + 1 == pidx] *)
Definition follows (prev_patch_idx pidx : Z) : bool :=
  (0 <=? prev_patch_idx) && (prev_patch_idx + 1 =? pidx).

(** [pline[1:].rstrip()] *)
Definition added_text (pline : string) : string := PyStr.rstrip (PyStr.tail pline).

(** The branch of a removed line. *)
Definition removed_step (code_lines patch_lines : list string) (pidx : Z) (pline : string)
    (st : pstate) : result pstate :=
  let to_patch := to_patch st + 1 in
  do run <- (if follows (prev_patch_idx st) pidx then
               do prev <- py_getitem patch_lines (prev_patch_idx st);
               Ok (PyStr.startswith "-" prev)
             else Ok false);
  if run then
    do patched <- (if replace_idx st + 1 <? len (patched st)
                   then py_setitem (patched st) (replace_idx st + 1) (SStr EmptyString)
                   else Ok (patched st));
    Ok (mkState patched (unpatched st) to_patch (replace_idx st + 1) pidx)
  else
    do match_idx <- _find_a_matched_line pidx (PyStr.lstrip (PyStr.tail pline))
                      code_lines patch_lines (replace_idx st) true;
    if 0 <=? match_idx then
      do patched <- py_setitem (patched st) match_idx (SStr EmptyString);
      Ok (mkState patched (unpatched st) to_patch match_idx pidx)
    else
      Ok (mkState (patched st) (unpatched st ++ [(pidx, pline)])%list to_patch
            (replace_idx st) (prev_patch_idx st)).

(** An added line right after a signed line. *)
Definition added_run_step (patch_lines : list string) (pidx : Z) (pline : string)
    (to_patch : Z) (st : pstate) : result pstate :=
  do prev <- py_getitem patch_lines (prev_patch_idx st);
  do patched <-
    (if PyStr.startswith "-" prev then
       py_setitem (patched st) (replace_idx st) (SStr (added_text pline))
     else if PyStr.startswith "+" prev then
       do cur <- py_getitem (patched st) (replace_idx st);
       match cur with
       | SStr s =>
           py_setitem (patched st) (replace_idx st) (SStr (s ++ nl ++ added_text pline))
       | SList l =>
           do last <- py_getitem l (-1);
           py_setitem (patched st) (replace_idx st)
             (SList (removelast l ++ [SStr (added_text pline); last]))
       end
     else Ok (patched st));
  Ok (mkState patched (unpatched st) to_patch (replace_idx st) pidx).

(** A standalone added line: placed after the nearest valid line before
    it in the patch, else before the nearest valid line after it. *)
Definition added_alone_step (code_lines patch_lines : list string) (pidx : Z)
    (pline : string) (to_patch : Z) (st : pstate) : result pstate :=
  let try_post :=
    let fail := Ok (mkState (patched st) (unpatched st ++ [(pidx, pline)])%list to_patch
                      (replace_idx st) (prev_patch_idx st)) in
    match search_valid_line patch_lines pidx Post 1 (Some code_lines) with
    | Some (i, l) =>
        do unique_idx <- _find_a_matched_line i l code_lines patch_lines
                           (replace_idx st) false;
        if 0 <=? unique_idx then
          do cur <- py_getitem (patched st) unique_idx;
          do patched <- py_setitem (patched st) unique_idx
                          (SList [SStr (added_text pline); cur]);
          Ok (mkState patched (unpatched st) to_patch unique_idx pidx)
        else fail
    | None => fail
    end in
  match search_valid_line patch_lines pidx Pre 1 None with
  | Some (i, l) =>
      do unique_idx <- _find_a_matched_line i l code_lines patch_lines
                         (replace_idx st) false;
      if 0 <=? unique_idx then
        do cur <- py_getitem (patched st) unique_idx;
        do patched <- py_setitem (patched st) unique_idx
                        (slot_iadd cur (nl ++ added_text pline));
        Ok (mkState patched (unpatched st) to_patch unique_idx pidx)
      else try_post
  | None => try_post
  end.

(** The body of the [for pidx, pline in enumerate(patch_lines)] loop. *)
Definition patching_step (code_lines patch_lines : list string) (pidx : Z) (pline : string)
    (st : pstate) : result pstate :=
  if re_search removed_re pline then
    removed_step code_lines patch_lines pidx pline st
  else if re_search added_re pline then
    let to_patch := to_patch st + 1 in
    if follows (prev_patch_idx st) pidx then
      added_run_step patch_lines pidx pline to_patch st
    else
      added_alone_step code_lines patch_lines pidx pline to_patch st
  else Ok st.

(** The loop, over the lines from index [pidx] on. *)
Fixpoint patching_loop (code_lines patch_lines : list string) (pidx : Z)
    (rest : list string) (st : pstate) : result pstate :=
  match rest with
  | [] => Ok st
  | pline :: rest' =>
      do st <- patching_step code_lines patch_lines pidx pline st;
      patching_loop code_lines patch_lines (pidx + 1) rest' st
  end.

(** [not p] on a cell. *)
Definition slot_falsy (p : slot) : bool :=
  match p with
  | SStr s => PyStr.is_empty s
  | SList l => is_nil l
  end.

(** The loop that collects [res]: a text is appended, the items of a
    list are appended one by one. *)
Fixpoint collect (patched : list slot) : list slot :=
  match patched with
  | [] => []
  | p :: rest =>
      if slot_falsy p then collect rest
      else match p with
           | SStr s => SStr s :: collect rest
           | SList l => (l ++ collect rest)%list
           end
  end.

(** ["\n".join(res)]: every item has to be a text. *)
Fixpoint texts (res : list slot) : result (list string) :=
  match res with
  | [] => Ok []
  | SStr s :: rest => do ss <- texts rest; Ok (s :: ss)
  | SList _ :: _ => Raise TypeError
  end.

Definition reconstruct (patched : list slot) : result string :=
  do ss <- texts (collect patched);
  Ok (PyStr.strip (PyStr.join nl ss)).

Definition init_state (code_lines : list string) : pstate :=
  mkState (List.map SStr code_lines) [] 0 (-1) (-1).

Definition patching (patch : string) (raw_code_lines : list string) : result string :=
  let patch_lines := _format_patch_lines patch in
  if negb (_is_a_patch patch_lines) then Raise NoCodeError
  else
    do code_lines <- _format_code raw_code_lines;
    do st <- patching_loop code_lines patch_lines 0 patch_lines (init_state code_lines);
    if len (unpatched st) =? to_patch st then Raise NotPatchError
    else reconstruct (patched st).

Definition lines (l : list string) : string := PyStr.join nl l.

(* ===================================================================== *)
(** ** [patching] over a store of list objects *)
(* ===================================================================== *)

(** The lists [patching] is handed or creates and then updates in place
    are objects of a store: the caller's [raw_code_lines], the copy [out]
    of [_format_code] (the [code_lines] of [patching]) and [patched]. A
    variable holds a reference; [list(x)] creates a new object, an
    assignment [x[i] = v] updates the object [x] refers to. The lists that
    are built and read by one owner only ([patch_lines], [unpatched],
    [res], the snapshot of [enumerate]) stay values. *)
Module Store.

Abbreviation loc := nat.
Abbreviation store := (gmap nat (list slot)).

(** A computation on the store that returns or raises. *)
Definition M (A : Type) : Type := store -> result A * store.

Definition ret {A} (a : A) : M A := fun h => (Ok a, h).
Definition raise {A} (e : exn) : M A := fun h => (Raise e, h).
Definition bind {A B} (m : M A) (f : A -> M B) : M B :=
  fun h => match m h with
           | (Ok a, h') => f a h'
           | (Raise e, h') => (Raise e, h')
           end.
Definition lift {A} (r : result A) : M A := fun h => (r, h).

Notation "'doM' x <- m ; k" := (bind m (fun x => k))
  (at level 10, x name, m at level 100, k at level 200, only parsing).

(** The cells of the list a reference points to; a reference to no list
    is a type error. *)
Definition load (l : loc) : M (list slot) :=
  fun h => match h !! l with
           | Some xs => (Ok xs, h)
           | None => (Raise TypeError, h)
           end.

Definition put (l : loc) (xs : list slot) : M unit :=
  fun h => (Ok tt, <[l := xs]> h).

(** A new list object. *)
Definition new_list (xs : list slot) : M loc :=
  fun h => let l := fresh (dom h) in (Ok l, <[l := xs]> h).

(** [list(x)] *)
Definition list_copy (x : loc) : M loc :=
  doM xs <- load x; new_list xs.

(** [len(x)] *)
Definition list_len (x : loc) : M Z :=
  doM xs <- load x; ret (len xs).

(** [x[i]] *)
Definition get_item (x : loc) (i : Z) : M slot :=
  doM xs <- load x; lift (py_getitem xs i).

(** [x[i] = v] *)
Definition set_item (x : loc) (i : Z) (v : slot) : M unit :=
  doM xs <- load x;
  doM xs' <- lift (py_setitem xs i v);
  put x xs'.

(** A cell used as a text. *)
Definition as_str (v : slot) : M string :=
  match v with
  | SStr s => ret s
  | SList _ => raise TypeError
  end.

(** The lines of a list of texts, read for a function that only reads
    them. *)
Definition load_lines (x : loc) : M (list string) :=
  doM xs <- load x; lift (texts xs).

Definition format_code_step_m (out : loc) (i : Z) (line : string) : M unit :=
  match List.find (String.eqb (PyStr.remove_char PyStr.SP line)) keywords with
  | Some k =>
      doM _ <- set_item out i (SStr EmptyString);
      doM n <- list_len out;
      if i + 1 <? n then
        doM next <- get_item out (i + 1);
        doM next <- as_str next;
        set_item out (i + 1) (SStr (k ++ " " ++ PyStr.lstrip next))
      else ret tt
  | None =>
      doM n <- list_len out;
      if (i <? n - 1)
         && negb (PyStr.contains "class" line)
         && negb (PyStr.startswith "*" (PyStr.strip line))
         && (negb (PyStr.contains "//" line) && negb (PyStr.contains "/*" line))
         && re_search ends_alnum_re line
      then
        doM next <- get_item out (i + 1);
        doM next <- as_str next;
        doM _ <- set_item out i (SStr (PyStr.rstrip line ++ " " ++ PyStr.lstrip next));
        set_item out (i + 1) (SStr EmptyString)
      else ret tt
  end.

Fixpoint format_code_loop_m (out : loc) (i : Z) (snapshot : list string) : M unit :=
  match snapshot with
  | [] => ret tt
  | line :: rest =>
      doM _ <- format_code_step_m out i line;
      format_code_loop_m out (i + 1) rest
  end.

(** [out = list(code_lines)]; the loop runs over [enumerate(list(out))]
    and assigns into [out]; [out] is returned. *)
Definition _format_code_m (code_lines : loc) : M loc :=
  doM out <- list_copy code_lines;
  doM snapshot <- list_copy out;
  doM snapshot_lines <- load_lines snapshot;
  doM _ <- format_code_loop_m out 0 snapshot_lines;
  ret out.

(** The local variables of the pass; [patched] is a reference. *)
Record locals : Type := mkLocals {
  l_unpatched : list (Z * string);
  l_to_patch : Z;
  l_replace_idx : Z;
  l_prev_patch_idx : Z
}.

Definition removed_step_m (code_lines patched : loc) (patch_lines : list string)
    (pidx : Z) (pline : string) (st : locals) : M locals :=
  let to_patch := l_to_patch st + 1 in
  doM run <- lift (if follows (l_prev_patch_idx st) pidx then
                     do prev <- py_getitem patch_lines (l_prev_patch_idx st);
                     Ok (PyStr.startswith "-" prev)
                   else Ok false);
  if run then
    doM n <- list_len patched;
    doM _ <- (if l_replace_idx st + 1 <? n
              then set_item patched (l_replace_idx st + 1) (SStr EmptyString)
              else ret tt);
    ret (mkLocals (l_unpatched st) to_patch (l_replace_idx st + 1) pidx)
  else
    doM code <- load_lines code_lines;
    doM match_idx <- lift (_find_a_matched_line pidx (PyStr.lstrip (PyStr.tail pline))
                             code patch_lines (l_replace_idx st) true);
    if 0 <=? match_idx then
      doM _ <- set_item patched match_idx (SStr EmptyString);
      ret (mkLocals (l_unpatched st) to_patch match_idx pidx)
    else
      ret (mkLocals (l_unpatched st ++ [(pidx, pline)])%list to_patch
             (l_replace_idx st) (l_prev_patch_idx st)).

Definition added_run_step_m (patched : loc) (patch_lines : list string) (pidx : Z)
    (pline : string) (to_patch : Z) (st : locals) : M locals :=
  doM prev <- lift (py_getitem patch_lines (l_prev_patch_idx st));
  doM _ <-
    (if PyStr.startswith "-" prev then
       set_item patched (l_replace_idx st) (SStr (added_text pline))
     else if PyStr.startswith "+" prev then
       doM cur <- get_item patched (l_replace_idx st);
       match cur with
       | SStr s =>
           set_item patched (l_replace_idx st) (SStr (s ++ nl ++ added_text pline))
       | SList l =>
           doM last <- lift (py_getitem l (-1));
           set_item patched (l_replace_idx st)
             (SList (removelast l ++ [SStr (added_text pline); last]))
       end
     else ret tt);
  ret (mkLocals (l_unpatched st) to_patch (l_replace_idx st) pidx).

Definition added_alone_step_m (code_lines patched : loc) (patch_lines : list string)
    (pidx : Z) (pline : string) (to_patch : Z) (st : locals) : M locals :=
  doM code <- load_lines code_lines;
  let try_post :=
    let fail := ret (mkLocals (l_unpatched st ++ [(pidx, pline)])%list to_patch
                       (l_replace_idx st) (l_prev_patch_idx st)) in
    match search_valid_line patch_lines pidx Post 1 (Some code) with
    | Some (i, l) =>
        doM unique_idx <- lift (_find_a_matched_line i l code patch_lines
                                  (l_replace_idx st) false);
        if 0 <=? unique_idx then
          doM cur <- get_item patched unique_idx;
          doM _ <- set_item patched unique_idx (SList [SStr (added_text pline); cur]);
          ret (mkLocals (l_unpatched st) to_patch unique_idx pidx)
        else fail
    | None => fail
    end in
  match search_valid_line patch_lines pidx Pre 1 None with
  | Some (i, l) =>
      doM unique_idx <- lift (_find_a_matched_line i l code patch_lines
                                (l_replace_idx st) false);
      if 0 <=? unique_idx then
        doM cur <- get_item patched unique_idx;
        doM _ <- set_item patched unique_idx (slot_iadd cur (nl ++ added_text pline));
        ret (mkLocals (l_unpatched st) to_patch unique_idx pidx)
      else try_post
  | None => try_post
  end.

Definition patching_step_m (code_lines patched : loc) (patch_lines : list string)
    (pidx : Z) (pline : string) (st : locals) : M locals :=
  if re_search removed_re pline then
    removed_step_m code_lines patched patch_lines pidx pline st
  else if re_search added_re pline then
    let to_patch := l_to_patch st + 1 in
    if follows (l_prev_patch_idx st) pidx then
      added_run_step_m patched patch_lines pidx pline to_patch st
    else
      added_alone_step_m code_lines patched patch_lines pidx pline to_patch st
  else ret st.

Fixpoint patching_loop_m (code_lines patched : loc) (patch_lines : list string)
    (pidx : Z) (rest : list string) (st : locals) : M locals :=
  match rest with
  | [] => ret st
  | pline :: rest' =>
      doM st <- patching_step_m code_lines patched patch_lines pidx pline st;
      patching_loop_m code_lines patched patch_lines (pidx + 1) rest' st
  end.

(** [patching(patch, raw_code_lines)], where [raw_code_lines] is the
    reference the caller passes. *)
Definition patching_m (patch : string) (raw_code_lines : loc) : M string :=
  let patch_lines := _format_patch_lines patch in
  if negb (_is_a_patch patch_lines) then raise NoCodeError
  else
    doM code_lines <- _format_code_m raw_code_lines;
    doM patched <- list_copy code_lines;
    doM st <- patching_loop_m code_lines patched patch_lines 0 patch_lines
                (mkLocals [] 0 (-1) (-1));
    if len (l_unpatched st) =? l_to_patch st then raise NotPatchError
    else
      doM cells <- load patched;
      lift (reconstruct cells).

End Store.

(* ===================================================================== *)
(** ** [src/parse.py]: the code blocks and the explanation of a response *)
(* ===================================================================== *)

Module Rx.

(** The patterns of [parse_code] and [parse_exp] add a lazy repetition
    [r*?] and an optional part [(?:r)?] to the syntax of [Re]; all other
    parts are patterns of [Re]. *)
Inductive regex : Type :=
| Base (r : Re.regex)
| Seq (r1 r2 : regex)
| Opt (r : regex)
| Lazy (r : regex)
| Group (n : nat) (r : regex).

(** The rounds of a lazy repetition [r*?], shortest first: the rest of
    the pattern is tried before another round of [body]. *)
Fixpoint lazy_loop (body : nat -> string -> caps -> cont -> option (nat * caps))
    (k : cont) (n : nat) (pos : nat) (s : string) (g : caps) {struct n}
  : option (nat * caps) :=
  match k pos s g with
  | Some x => Some x
  | None =>
      match n with
      | O => None
      | S n' =>
          body pos s g
            (fun pos' s' g' =>
               if (pos <? pos')%nat then lazy_loop body k n' pos' s' g' else None)
      end
  end.

Fixpoint exec (r : regex) (pos : nat) (s : string) (g : caps) (k : cont)
  : option (nat * caps) :=
  match r with
  | Base r0 => Re.exec r0 pos s g k
  | Seq r1 r2 => exec r1 pos s g (fun pos' s' g' => exec r2 pos' s' g' k)
  | Opt r1 =>
      match exec r1 pos s g k with
      | Some x => Some x
      | None => k pos s g
      end
  | Lazy r1 => lazy_loop (exec r1) k (String.length s) pos s g
  | Group n r1 =>
      exec r1 pos s g (fun pos' s' g' => k pos' s' ((n, (pos, pos')) :: g'))
  end.

(** [re.findall(r, whole)] for a pattern with one group: the text of
    group 1 of the non-overlapping matches, leftmost first. [skip] counts
    the characters of the last match that are still to be passed over.
    The patterns of [parse.py] match no empty text; after an empty match
    the search moves on by one character. *)
Fixpoint findall_from (r : regex) (whole : string) (pos skip : nat) (s : string)
  : list string :=
  match skip with
  | S skip' =>
      match s with
      | String _ s' => findall_from r whole (S pos) skip' s'
      | EmptyString => []
      end
  | O =>
      match exec r pos s [] accept with
      | Some (e, g) =>
          group whole g 1 ::
          match s with
          | String _ s' =>
              if (e =? pos)%nat then findall_from r whole (S pos) 0 s'
              else findall_from r whole (S pos) (e - pos - 1) s'
          | EmptyString => []
          end
      | None =>
          match s with
          | String _ s' => findall_from r whole (S pos) 0 s'
          | EmptyString => []
          end
      end
  end.

Definition findall (r : regex) (s : string) : list string := findall_from r s 0 0 s.

Fixpoint seq (r : regex) (rs : list regex) : regex :=
  match rs with
  | [] => r
  | r' :: rs' => Seq r (seq r' rs')
  end.

(** A literal text of three equal characters. *)
Definition lit3 (c : ascii) : regex := Base (rseq (RLit c) [RLit c; RLit c]).

(** [(?:[^\n]*\n)?] *)
Definition first_line : regex :=
  Opt (Base (RSeq (RStar (RChar any_but_newline)) (RLit PyStr.LF))).

(** [(.*?)] under [re.DOTALL]. *)
Definition lazy_any : regex := Group 1 (Lazy (Base (RChar (fun _ => true)))).

End Rx.

Definition backtick : ascii := "`"%char.

(** The patterns of [parse_code], in the order they are tried:
    [```(?:[^\n]*\n)?(.*?)```], [```(?:[^\n]*\n)?(.*?)===], [^(.*?)```],
    [`(?:[^\n]*\n)?(.*?)`] and [```(?:[^\n]*\n)?(.*?)$]. *)
Definition code_patterns : list Rx.regex :=
  [ Rx.seq (Rx.lit3 backtick) [Rx.first_line; Rx.lazy_any; Rx.lit3 backtick];
    Rx.seq (Rx.lit3 backtick) [Rx.first_line; Rx.lazy_any; Rx.lit3 "="];
    Rx.seq (Rx.Base RBol) [Rx.lazy_any; Rx.lit3 backtick];
    Rx.seq (Rx.Base (RLit backtick)) [Rx.first_line; Rx.lazy_any; Rx.Base (RLit backtick)];
    Rx.seq (Rx.lit3 backtick) [Rx.first_line; Rx.lazy_any; Rx.Base REol] ].

(** [tmp and tmp[0].strip()] *)
Definition first_not_blank (tmp : list string) : bool :=
  match tmp with
  | [] => false
  | t :: _ => nonempty (PyStr.strip t)
  end.

(** The [for] loop of [parse_code] and the [raise] after it. *)
Fixpoint parse_code_loop (patterns : list Rx.regex) (text : string)
  : result (list string) :=
  match patterns with
  | [] => Raise NoCodeError
  | pat :: rest =>
      let tmp := Rx.findall pat text in
      if first_not_blank tmp then Ok tmp else parse_code_loop rest text
  end.

Definition parse_code (text : string) : result (list string) :=
  parse_code_loop code_patterns text.

(** The patterns of [parse_exp]: [===(?:[^\n]*\n)?(.*?)===],
    [===(?:[^\n]*\n)?(.*?)$] and [^(?:[^\n]*\n)?(.*?)```]. *)
Definition exp_patterns : list Rx.regex :=
  [ Rx.seq (Rx.lit3 "=") [Rx.first_line; Rx.lazy_any; Rx.lit3 "="];
    Rx.seq (Rx.lit3 "=") [Rx.first_line; Rx.lazy_any; Rx.Base REol];
    Rx.seq (Rx.Base RBol) [Rx.first_line; Rx.lazy_any; Rx.lit3 backtick] ].

(** The [for] loop of [parse_exp]; the text is empty when no pattern
    matches. *)
Fixpoint parse_exp_loop (patterns : list Rx.regex) (text : string) : string :=
  match patterns with
  | [] => EmptyString
  | pat :: rest =>
      match Rx.findall pat text with
      | [] => parse_exp_loop rest text
      | tmp => PyStr.join nl tmp
      end
  end.

Definition parse_exp (text : string) : string := parse_exp_loop exp_patterns text.

(* ===================================================================== *)
(** ** [src/agents/patch_repairer.py], [src/agents/patch_refiner.py] *)
(* ===================================================================== *)

(** [s.find(sub)]: the offset of the first occurrence, -1 when there is
    none. *)
Fixpoint str_find (sub s : string) : Z :=
  if String.prefix sub s then 0
  else match s with
       | EmptyString => -1
       | String _ s' => let i := str_find sub s' in if i <? 0 then -1 else i + 1
       end.

(** [s[:k]]; a negative [k] counts from the end. *)
Definition str_slice_to (s : string) (k : Z) : string :=
  let n := Z.of_nat (String.length s) in
  let stop := if k <? 0 then Z.max 0 (n + k) else k in
  String.substring 0 (Z.to_nat stop) s.

(** The dictionary [parse_response] returns. *)
Record parsed : Type := mkParsed { aim : string; exp : string; ori : string }.

(** [PatchRepairer.parse_response]; [PatchRefiner.parse_response] has the
    same body. *)
Definition parse_response (response : string) : result parsed :=
  do parts <- parse_code response;
  match parts with
  | [] => Raise NoCodeError
  | part :: _ =>
      let patch := PyStr.strip part in
      let patch :=
        if PyStr.contains "===" patch
        then PyStr.strip (str_slice_to patch (str_find "===" patch))
        else patch in
      Ok (mkParsed patch (parse_exp response) response)
  end.

(* ===================================================================== *)
(** ** Predicates and inputs of the statements *)
(* ===================================================================== *)

(** No space and no newline is left in a normalised line. *)
Definition space_or_newline (c : ascii) : bool :=
  Ascii.eqb c PyStr.SP || Ascii.eqb c PyStr.LF.

(** A signed content line in words: after trimming, a [+] or [-] and then
    a whitespace character. *)
Definition signed_content_line (ln : string) : bool :=
  match PyStr.strip ln with
  | String sign (String ws _) =>
      (Ascii.eqb sign "-" || Ascii.eqb sign "+") && PyStr.isspace ws
  | _ => false
  end.










(** A line of [splitlines] holds no line boundary, so no newline. *)
Definition no_linebreak (s : string) : bool :=
  forallb (fun c => negb (PyStr.islinebreak c)) (list_ascii_of_string s).

Definition no_newline (s : string) : bool :=
  forallb any_but_newline (list_ascii_of_string s).

(** A patch line the pass takes for neither removed nor added. *)
Definition unsigned (pline : string) : bool :=
  negb (re_search removed_re pline) && negb (re_search added_re pline).

(** The cells the pass leaves are texts or flat lists of texts in the
    cases the rebuilding of the text is written for. *)
Definition flat (p : slot) : bool :=
  match p with
  | SStr _ => true
  | SList l => forallb (fun x => match x with SStr _ => true | SList _ => false end) l
  end.

(** What the pass keeps true on an empty source: nothing is placed, so
    no signed line has a predecessor and every signed line is unpatched. *)
Definition nothing_applied (st : pstate) : Prop :=
  patched st = [] /\ prev_patch_idx st = -1 /\ len (unpatched st) = to_patch st.

Definition locals_of (st : pstate) : Store.locals :=
  Store.mkLocals (unpatched st) (to_patch st) (replace_idx st) (prev_patch_idx st).

Definition result_map {A B} (f : A -> B) (r : result A) : result B :=
  match r with Ok a => Ok (f a) | Raise e => Raise e end.

Definition deletion_patch : string :=
  lines ["@@ -1,3 +1,2 @@"; " a;"; "- b;"; " c;"].




Definition abc_patch : string := lines ["@@ -1,3 +1,2 @@"; " a"; "- b"; " c"].

Definition nested_insert_patch : string :=
  lines ["@@ -1,1 +1,2 @@"; "+ new1;"; "zzz;"; "+ new2;"; " foo;"].

Definition overrun_patch : string :=
  lines ["@@ -1,1 +1,1 @@"; "- a;"; "- b;"; "+ c;"].

(** [n] spaces in front of a line. *)
Definition indent (n : nat) (line : string) : string :=
  Nat.iter n (String PyStr.SP) line.

(** The source line at index [i] exists and matches [aim]. *)
Definition matches_at (aim : string) (code_lines : list string) (i : Z) : bool :=
  (0 <=? i) &&
  match code_lines !! Z.to_nat i with
  | Some cl => two_lines_match aim cl
  | None => false
  end.

(** The line at index [j] exists and is one the neighbour search stops
    at: valid, and found in [existing] when that is given. *)
Definition stops_at (lines : list string) (existing : option (list string)) (j : Z)
  : bool :=
  (0 <=? j) &&
  match lines !! Z.to_nat j with
  | Some l => is_valid_line l 0 && exist_line l existing
  | None => false
  end.

(** [j] lies strictly between the start and [i] on the side the search
    walks. *)
Definition strictly_between (m : mode) (start_idx i j : Z) : Prop :=
  match m with
  | Pre => i < j < start_idx
  | Post => start_idx < j < i
  end.

(** [j] lies on the side of the start the search walks. *)
Definition on_side (m : mode) (start_idx j : Z) : Prop :=
  match m with
  | Pre => j < start_idx
  | Post => start_idx < j
  end.

(** The two tests of the pre-pass on a line: the line is an access
    modifier alone, and the line looks as if it were cut off (no [class],
    no comment, ends in a letter or digit). *)
Definition lone_modifier (line : string) : bool :=
  existsb (String.eqb (PyStr.remove_char PyStr.SP line)) keywords.

Definition looks_wrapped (line : string) : bool :=
  negb (PyStr.contains "class" line)
  && negb (PyStr.startswith "*" (PyStr.strip line))
  && (negb (PyStr.contains "//" line) && negb (PyStr.contains "/*" line))
  && re_search ends_alnum_re line.

(** A source the pre-pass has nothing to repair in: no line is a lone
    modifier and no line but the last looks wrapped. *)
Fixpoint settled (code_lines : list string) : bool :=
  match code_lines with
  | [] => true
  | line :: rest =>
      negb (lone_modifier line)
      && (is_nil rest || negb (looks_wrapped line))
      && settled rest
  end.

(** A cell that is a text. *)
Definition is_text (p : slot) : bool :=
  match p with SStr _ => true | SList _ => false end.

(** What a pass made of removals keeps true before the line at [pidx]. *)
Definition removal_invariant (code_lines : list string) (pidx : Z) (st : pstate) : Prop :=
  forallb is_text (patched st) = true /\
  length (patched st) = length code_lines /\
  -1 <= replace_idx st /\
  prev_patch_idx st < pidx.

Definition replace_patch : string :=
  lines ["@@ -1,3 +1,3 @@"; " a;"; "- b;"; "+ B;"; " c;"].

Definition insert_patch : string :=
  lines ["@@ -1,2 +1,3 @@"; " a;"; "+ b;"; " c;"].

(* ===================================================================== *)
(** ** The patterns and the engine on sample inputs *)
(* ===================================================================== *)

Example re_ex1 : re_match hunk_header_re "@@ -1,3 +1,2 @@ x" = true.
Proof. reflexivity. Qed.
Example re_ex2 : re_match sign_re "-  b" = true /\ re_match sign_re "-b" = false
  /\ re_match sign_re "-" = false /\ re_search removed_re " - b" = false
  /\ re_search ends_alnum_re "ab;" = false /\ re_search ends_alnum_re "a;b" = true.
Proof. repeat split; reflexivity. Qed.

(** The hunk header is split from a line that follows it on the same
    line, and a blank line appears after a header that ends its line. *)
Example format_patch_lines_ex :
  _format_patch_lines (lines ["@@ -1,3 +1,2 @@ x"; "- b;"])
  = ["@@ -1,3 +1,2 @@"; " x"; "- b;"] /\
  _format_patch_lines deletion_patch
  = ["@@ -1,3 +1,2 @@"; EmptyString; " a;"; "- b;"; " c;"].
Proof. split; vm_compute; reflexivity. Qed.

(** A removed line followed by an added line replaces the line; the text
    after the sign is kept with its leading blank. *)
Example replace_pair_ex :
  patching (lines ["@@ -1,3 +1,3 @@"; " a;"; "- b;"; "+ B;"; " c;"]) ["a;"; "b;"; "c;"]
  = Ok (lines ["a;"; " B;"; "c;"]).
Proof. vm_compute. reflexivity. Qed.

(** A standalone added line goes after the nearest valid line before it. *)
Example insert_after_anchor_ex :
  patching (lines ["@@ -1,2 +1,3 @@"; " a;"; "+ b;"; " c;"]) ["a;"; "c;"]
  = Ok (lines ["a;"; " b;"; "c;"]).
Proof. vm_compute. reflexivity. Qed.

(** A patch whose signed lines match nothing is refused as a no-op. *)
Example total_failure_ex :
  patching (lines ["@@ -1,3 +1,2 @@"; "- zzz;"]) ["a;"; "b;"; "c;"] = Raise NotPatchError.
Proof. vm_compute. reflexivity. Qed.

(* ===================================================================== *)
(** ** Basic facts: indexing *)
(* ===================================================================== *)

Section Indexing.
Context {A : Type}.
Implicit Types (l : list A) (i : Z) (v : A).

Lemma py_pos_lt n i k : py_pos n i = Some k -> (Z.of_nat k < n).
Proof.
  unfold py_pos. intros H.
  destruct ((0 <=? i) && (i <? n)) eqn:E1.
  - apply andb_true_iff in E1 as [? ?]. inversion H; subst. lia.
  - destruct ((- n <=? i) && (i <? 0)) eqn:E2; [|discriminate].
    apply andb_true_iff in E2 as [? ?]. inversion H; subst. lia.
Qed.

Lemma py_pos_in_range n i : 0 <= i < n -> py_pos n i = Some (Z.to_nat i).
Proof.
  intros H. unfold py_pos.
  replace ((0 <=? i) && (i <? n)) with true; [reflexivity|].
  symmetry. apply andb_true_iff. split; lia.
Qed.

Lemma py_pos_beyond n i : n <= i -> 0 <= n -> py_pos n i = None.
Proof.
  intros H Hn. unfold py_pos.
  replace (i <? n) with false by lia. rewrite andb_false_r.
  replace (i <? 0) with false by lia. rewrite andb_false_r. reflexivity.
Qed.

Lemma py_setitem_length l i v l' :
  py_setitem l i v = Ok l' -> length l' = length l.
Proof.
  unfold py_setitem. destruct (py_pos (len l) i); [|discriminate].
  intros H. inversion H; subst. apply length_insert.
Qed.

Lemma py_setitem_in_range l i v :
  0 <= i < len l -> py_setitem l i v = Ok (<[Z.to_nat i := v]> l).
Proof. intros H. unfold py_setitem. rewrite py_pos_in_range; auto. Qed.

Lemma py_getitem_in_range l i :
  0 <= i < len l -> exists x, py_getitem l i = Ok x /\ l !! Z.to_nat i = Some x.
Proof.
  intros H. unfold py_getitem, len in *. rewrite py_pos_in_range by auto.
  destruct (l !! Z.to_nat i) as [x|] eqn:E; [eauto|].
  apply lookup_ge_None in E. lia.
Qed.

Lemma py_getitem_nil i : py_getitem (@nil A) i = Raise IndexError.
Proof.
  unfold py_getitem. destruct (py_pos _ _); reflexivity.
Qed.

Lemma py_setitem_beyond l i v : len l <= i -> py_setitem l i v = Raise IndexError.
Proof.
  intros H. unfold py_setitem. rewrite py_pos_beyond; auto. unfold len. lia.
Qed.
End Indexing.

(* ===================================================================== *)
(** ** The bound on the rounds of a repetition is enough *)
(* ===================================================================== *)

(** The matcher calls its continuation only further right in the text,
    with what is left of the text there. *)
Lemma exec_ext (r : regex) :
  forall pos s g (k1 k2 : cont),
    (forall pos' s' g',
        (pos <= pos')%nat ->
        (pos' + String.length s' = pos + String.length s)%nat ->
        k1 pos' s' g' = k2 pos' s' g') ->
    exec r pos s g k1 = exec r pos s g k2.
Proof.
  induction r as [p|r1 IH1 r2 IH2|r1 IH1 r2 IH2|r1 IH1|n r1 IH1| |];
    intros pos s g k1 k2 H; cbn [exec].
  - destruct s as [|c s]; [reflexivity|]. destruct (p c); [|reflexivity].
    apply H; simpl; lia.
  - apply IH1. intros pos' s' g' Hle Hlen. apply IH2.
    intros pos2 s2 g2 Hle2 Hlen2. apply H; lia.
  - rewrite (IH1 pos s g k1 k2 H), (IH2 pos s g k1 k2 H). reflexivity.
  - generalize (String.length s). intros n.
    assert (Hgen : forall n pos1 s1 g1,
               (pos <= pos1)%nat ->
               (pos1 + String.length s1 = pos + String.length s)%nat ->
               star_loop (exec r1) k1 n pos1 s1 g1 = star_loop (exec r1) k2 n pos1 s1 g1).
    { clear n. induction n as [|n IHn]; intros pos1 s1 g1 Hle Hlen; cbn [star_loop].
      - apply H; assumption.
      - rewrite (H pos1 s1 g1 Hle Hlen).
        rewrite (IH1 pos1 s1 g1 _
                   (fun pos' s' g' =>
                      if (pos1 <? pos')%nat then star_loop (exec r1) k2 n pos' s' g'
                      else None)); [reflexivity|].
        intros pos' s' g' Hle' Hlen'. destruct (pos1 <? pos')%nat; [|reflexivity].
        apply IHn; lia. }
    apply Hgen; lia.
  - apply IH1. intros pos' s' g' Hle Hlen. apply H; assumption.
  - destruct (pos =? 0)%nat; [|reflexivity]. apply H; lia.
  - destruct s as [|c [|d s]]; try reflexivity.
    + apply H; lia.
    + destruct (Ascii.eqb c PyStr.LF); [|reflexivity]. apply H; lia.
Qed.

Lemma exec_none (r : regex) :
  forall pos s g, exec r pos s g (fun _ _ _ => None) = None.
Proof.
  induction r as [p|r1 IH1 r2 IH2|r1 IH1 r2 IH2|r1 IH1|n r1 IH1| |];
    intros pos s g; cbn [exec].
  - destruct s as [|c s]; [reflexivity|]. destruct (p c); reflexivity.
  - transitivity (exec r1 pos s g (fun _ _ _ => None)); [|apply IH1].
    apply exec_ext. intros. apply IH2.
  - rewrite IH1. apply IH2.
  - generalize (String.length s). intros n. revert pos s g.
    induction n as [|n IHn]; intros pos s g; cbn [star_loop]; [reflexivity|].
    rewrite (exec_ext r1 pos s g _ (fun _ _ _ => None)); [rewrite IH1; reflexivity|].
    intros pos' s' g' _ _. destruct (pos <? pos')%nat; [apply IHn|reflexivity].
  - transitivity (exec r1 pos s g (fun _ _ _ => None)); [|apply IH1].
    apply exec_ext. reflexivity.
  - destruct (pos =? 0)%nat; reflexivity.
  - destruct s as [|c [|d s]]; try reflexivity. destruct (Ascii.eqb c PyStr.LF); reflexivity.
Qed.

(** One more round than there are characters left changes nothing: the
    bound [String.length s] that [exec] gives a repetition never cuts a
    match short. *)
Lemma star_loop_fuel (r : regex) (k : cont) :
  forall n pos s g,
    (String.length s <= n)%nat ->
    star_loop (exec r) k (S n) pos s g = star_loop (exec r) k n pos s g.
Proof.
  induction n as [|n IHn]; intros pos s g Hlen.
  - destruct s; [|simpl in Hlen; lia]. cbn [star_loop].
    rewrite (exec_ext r pos EmptyString g _ (fun _ _ _ => None));
      [rewrite exec_none; reflexivity|].
    intros pos' s' g' Hle Hl. simpl in Hl.
    replace (pos <? pos')%nat with false; [reflexivity|].
    symmetry. apply Nat.ltb_ge. lia.
  - cbn [star_loop].
    rewrite (exec_ext r pos s g _
               (fun pos' s' g' =>
                  if (pos <? pos')%nat then star_loop (exec r) k n pos' s' g' else None));
      [reflexivity|].
    intros pos' s' g' Hle Hl.
    destruct (pos <? pos')%nat eqn:E; [|reflexivity].
    apply Nat.ltb_lt in E. apply IHn. lia.
Qed.

(* ===================================================================== *)
(** ** The line normaliser *)
(* ===================================================================== *)

Lemma remove_char_absent c s :
  forallb (fun d => negb (Ascii.eqb d c)) (list_ascii_of_string (PyStr.remove_char c s)) = true.
Proof.
  induction s as [|d s IH]; simpl; [reflexivity|].
  destruct (Ascii.eqb d c) eqn:E; simpl; [exact IH|].
  rewrite E. simpl. exact IH.
Qed.

Lemma remove_char_keeps (P : ascii -> bool) c s :
  forallb P (list_ascii_of_string s) = true ->
  forallb P (list_ascii_of_string (PyStr.remove_char c s)) = true.
Proof.
  induction s as [|d s IH]; simpl; [reflexivity|].
  intros H. apply andb_true_iff in H as [Hd Hs].
  destruct (Ascii.eqb d c); simpl; [auto|].
  rewrite Hd. simpl. auto.
Qed.

(** What the normaliser does remove: for every line, [remove_whitespace]
    leaves no space character (U+0020) and no newline character (U+000A)
    in its result. *)
Theorem remove_whitespace_no_space_no_newline (line : string) :
  forallb (fun c => negb (space_or_newline c))
    (list_ascii_of_string (remove_whitespace line)) = true.
Proof.
  unfold remove_whitespace, space_or_newline.
  pose proof (remove_char_absent PyStr.SP (PyStr.remove_char PyStr.LF line)) as Hsp.
  pose proof (remove_char_keeps (fun d => negb (Ascii.eqb d PyStr.LF)) PyStr.SP _
                (remove_char_absent PyStr.LF line)) as Hlf.
  revert Hsp Hlf.
  generalize (PyStr.remove_char PyStr.SP (PyStr.remove_char PyStr.LF line)).
  intros s. induction s as [|d s IH]; simpl; [reflexivity|].
  intros H1 H2.
  apply andb_true_iff in H1 as [H1 H1'].
  apply andb_true_iff in H2 as [H2 H2'].
  rewrite IH by assumption.
  destruct (Ascii.eqb d PyStr.SP), (Ascii.eqb d PyStr.LF); simpl in *; congruence.
Qed.

(** Not every whitespace character is removed: a tab is a whitespace
    character and the normalised form of a line with a tab keeps it. *)
Lemma remove_whitespace_keeps_tab :
  ~ (forall line : string,
       forallb (fun c => negb (PyStr.isspace c))
         (list_ascii_of_string (remove_whitespace line)) = true).
Proof.
  intros H. specialize (H (String PyStr.TAB "x")). vm_compute in H. discriminate.
Qed.

(** C9 at an input where it fails: a line indented with a tab. The
    normalised form keeps the tab, a whitespace character, where the
    spaces are removed; the line then no longer matches its own text
    without the tab, while the same line indented with a space does. *)
Theorem remove_whitespace_tab_survives :
  remove_whitespace (String PyStr.TAB "x = 1;") = String PyStr.TAB "x=1;" /\
  PyStr.isspace PyStr.TAB = true /\
  forallb (fun c => negb (PyStr.isspace c))
    (list_ascii_of_string (remove_whitespace (String PyStr.TAB "x = 1;"))) = false /\
  two_lines_match (String PyStr.TAB "x = 1;") "x = 1;" = false /\
  two_lines_match (String PyStr.SP "x = 1;") "x = 1;" = true.
Proof. repeat split; vm_compute; reflexivity. Qed.

(* ===================================================================== *)
(** ** The neighbour search terminates within its fuel *)
(* ===================================================================== *)

Lemma search_loop_fuel (lines : list string) existing (m : mode) :
  forall fuel cur_idx degree,
    (0 < fuel)%nat ->
    (0 <= cur_idx < len lines ->
     (match m with Pre => cur_idx + 1 | Post => len lines - cur_idx end) < Z.of_nat fuel) ->
    search_loop fuel lines existing (incre_of m) cur_idx degree <> None.
Proof.
  induction fuel as [|fuel IH]; intros cur_idx degree Hpos H; [lia|].
  - simpl.
    destruct ((0 <=? cur_idx) && (cur_idx <? len lines)) eqn:E; [|discriminate].
    apply andb_true_iff in E as [E1 E2].
    destruct (lines !! Z.to_nat cur_idx); [|discriminate].
    assert (Hnext : forall d, search_loop fuel lines existing (incre_of m)
                                (cur_idx + incre_of m) d <> None).
    { intros d. apply IH; destruct m; simpl; lia. }
    destruct (is_valid_line s 0 && exist_line s existing); [|apply Hnext].
    destruct (degree - 1 =? 0); [discriminate|apply Hnext].
  Qed.

Lemma search_valid_line_fuel lines start_idx m degree existing :
  search_loop (S (length lines)) lines existing (incre_of m)
    (start_idx + incre_of m) degree
  = Some (search_valid_line lines start_idx m degree existing).
Proof.
  unfold search_valid_line.
  destruct (search_loop _ _ _ _ _ _) eqn:E; [reflexivity|].
  exfalso. revert E. apply search_loop_fuel; [lia|].
  unfold len. destruct m; simpl; lia.
Qed.

(* ===================================================================== *)
(** ** The unique-match resolver *)
(* ===================================================================== *)

(** C1: the contract of [unique_matching]. With [target] the line it
    resolves (the explicit line, else the fragment line at the index) and
    [candidates] the matches of [target] in the source: one candidate is
    returned as it is; no candidate gives NoCandidate (-2); two or more
    give the index neighbour disambiguation returns when it returns
    exactly one, else Ambiguous (-1). *)
Theorem unique_matching_contract
    (resp_lines code_lines : list string) (resp_cur_idx : Z)
    (resp_cur_line : option string) (existing : bool) (target : string) :
  target_line resp_lines resp_cur_idx resp_cur_line = Ok target ->
  let candidates := matching_lines (Some target) code_lines false in
  let neighbor :=
    matching_neighbor resp_lines resp_cur_idx code_lines candidates existing 5 in
  let r := unique_matching resp_lines code_lines resp_cur_idx resp_cur_line existing in
  NoCandidate = -2 /\ Ambiguous = -1 /\
  (forall m, candidates = [m] -> r = Ok m) /\
  (candidates = [] -> r = Ok NoCandidate) /\
  ((2 <= length candidates)%nat ->
   (forall n, neighbor = [n] -> r = Ok n) /\
   ((forall n, neighbor <> [n]) -> r = Ok Ambiguous)).
Proof.
  intros Ht. cbv zeta.
  split; [reflexivity|]. split; [reflexivity|].
  unfold unique_matching. rewrite Ht. cbv beta iota delta [rbind].
  generalize (matching_lines (Some target) code_lines false). intros candidates.
  split; [|split].
  - intros m Hm. rewrite Hm. reflexivity.
  - intros Hm. rewrite Hm. reflexivity.
  - intros Hlen.
    destruct candidates as [|c1 [|c2 cs]]; simpl in Hlen; try lia.
    generalize (matching_neighbor resp_lines resp_cur_idx code_lines (c1 :: c2 :: cs)
                  existing 5). intros neighbor.
    split.
    + intros n Hn. rewrite Hn. reflexivity.
    + intros Hn. destruct neighbor as [|n [|n' ns]]; try reflexivity.
      exfalso. apply (Hn n). reflexivity.
Qed.

Lemma unique_matching_contract_witness :
  target_line ["y"; "dup"; "z"] 1 None = Ok "dup" /\
  unique_matching ["y"; "dup"; "z"] ["x"; "dup"; "y"; "dup"; "z"] 1 None false = Ok 3.
Proof.
  split; [reflexivity|].
  apply (unique_matching_contract ["y"; "dup"; "z"] ["x"; "dup"; "y"; "dup"; "z"]
           1 None false "dup" eq_refl).
  - vm_compute. lia.
  - vm_compute. reflexivity.
Defined.

(** When the fragment's nearest valid line before the target is found and
    exactly one candidate has a matching line before it, that candidate is
    the answer of the first round. *)
Lemma matching_neighbor_first_round aim_codes aim_idx raw_codes matched
    (existing : bool) (i : Z) (aim : string) (winner : Z) :
  search_valid_line aim_codes aim_idx Pre 1
    (if existing then Some raw_codes else None) = Some (i, aim) ->
  neighbors_also raw_codes Pre 1 aim matched = [winner] ->
  matching_neighbor aim_codes aim_idx raw_codes matched existing 5 = [winner].
Proof.
  intros Hpre Hone. unfold matching_neighbor.
  change (py_range 1 (5 + 1)) with [1; 2; 3; 4; 5].
  cbn [matching_neighbor_loop]. rewrite Hpre, Hone. reflexivity.
Qed.

(** C7: with source [x, dup, y, dup, z], a fragment line [dup] whose
    nearest valid line before is [y] and after is [z] resolves to index 3,
    the second [dup]. *)
Theorem neighbors_resolve_second_dup (fragment : list string) (idx i j : Z) :
  py_getitem fragment idx = Ok "dup" ->
  search_valid_line fragment idx Pre 1 None = Some (i, "y") ->
  search_valid_line fragment idx Post 1 None = Some (j, "z") ->
  unique_matching fragment ["x"; "dup"; "y"; "dup"; "z"] idx None false = Ok 3.
Proof.
  intros Hget Hpre Hpost.
  unfold unique_matching, target_line. rewrite Hget. cbv beta iota delta [rbind].
  replace (matching_lines (Some "dup") ["x"; "dup"; "y"; "dup"; "z"] false)
    with [1; 3] by (vm_compute; reflexivity).
  cbv beta iota.
  rewrite (matching_neighbor_first_round fragment idx _ [1; 3] false i "y" 3 Hpre);
    [reflexivity|].
  vm_compute. reflexivity.
Qed.

Lemma neighbors_resolve_second_dup_witness :
  (py_getitem ["y"; "dup"; "z"] 1 = Ok "dup" /\
   search_valid_line ["y"; "dup"; "z"] 1 Pre 1 None = Some (0, "y") /\
   search_valid_line ["y"; "dup"; "z"] 1 Post 1 None = Some (2, "z")) /\
  unique_matching ["y"; "dup"; "z"] ["x"; "dup"; "y"; "dup"; "z"] 1 None false = Ok 3.
Proof.
  split; [repeat split; reflexivity|].
  apply (neighbors_resolve_second_dup ["y"; "dup"; "z"] 1 0 2); reflexivity.
Defined.

(* ===================================================================== *)
(** ** The pre-pass [_format_code] *)
(* ===================================================================== *)

(** Splits a hypothesis [match ... end = Ok _] along the scrutinees of
    its matches, innermost result first, and drops the raising cases. *)
Ltac split_result :=
  repeat match goal with
    | H : Raise _ = Ok _ |- _ => discriminate H
    | H : Ok _ = Raise _ |- _ => discriminate H
    | H : Ok _ = Ok _ |- _ => inversion H; subst; clear H
    | H : context [match ?x with _ => _ end] |- _ =>
        let E := fresh "E" in destruct x eqn:E; try discriminate H
    end.

Lemma format_code_step_total i line out :
  0 <= i < len out ->
  exists out', format_code_step i line out = Ok out' /\ length out' = length out.
Proof.
  intros Hi. unfold format_code_step.
  destruct (List.find _ keywords) as [k|].
  - rewrite py_setitem_in_range by auto. cbv beta iota delta [rbind].
    set (out1 := <[Z.to_nat i := EmptyString]> out).
    assert (Hl1 : length out1 = length out) by apply length_insert.
    destruct (Z.ltb_spec (i + 1) (len out1)) as [Hlt|Hge]; [|eauto].
    destruct (py_getitem_in_range out1 (i + 1)) as (next & -> & _); [lia|].
    rewrite py_setitem_in_range by lia. eexists. split; [reflexivity|].
    rewrite length_insert. exact Hl1.
  - match goal with |- context [if ?c then _ else _] => destruct c eqn:Ec end; [|eauto].
    repeat (apply andb_true_iff in Ec as [Ec ?]).
    assert (Hi1 : 0 <= i + 1 < len out) by lia.
    destruct (py_getitem_in_range out (i + 1) Hi1) as (next & -> & _).
    cbv beta iota delta [rbind].
    rewrite py_setitem_in_range by auto. cbv beta iota.
    rewrite py_setitem_in_range by (unfold len in *; rewrite length_insert; lia).
    eexists. split; [reflexivity|]. rewrite !length_insert. reflexivity.
Qed.

Lemma format_code_loop_total snapshot :
  forall i out,
    0 <= i -> i + len snapshot <= len out ->
    exists out', format_code_loop i snapshot out = Ok out' /\ length out' = length out.
Proof.
  induction snapshot as [|line rest IH]; intros i out Hi Hlen; simpl.
  - eauto.
  - unfold len in Hlen. simpl in Hlen.
    destruct (format_code_step_total i line out) as (out1 & -> & Hl1); [unfold len; lia|].
    cbv beta iota delta [rbind].
    destruct (IH (i + 1) out1) as (out2 & -> & Hl2); [lia|unfold len in *; lia|].
    exists out2. split; [reflexivity|lia].
Qed.

(** The pre-pass never raises and keeps the number of lines. *)
Lemma format_code_total raw_code_lines :
  exists code_lines,
    _format_code raw_code_lines = Ok code_lines /\
    length code_lines = length raw_code_lines.
Proof. apply format_code_loop_total; unfold len; lia. Qed.

Lemma format_code_length raw_code_lines code_lines :
  _format_code raw_code_lines = Ok code_lines ->
  length code_lines = length raw_code_lines.
Proof.
  intros H. destruct (format_code_total raw_code_lines) as (c & Hc & Hl). congruence.
Qed.

(* ===================================================================== *)
(** ** The pass over the patch lines *)
(* ===================================================================== *)

Lemma patching_step_length code_lines patch_lines pidx pline st st' :
  patching_step code_lines patch_lines pidx pline st = Ok st' ->
  length (patched st') = length (patched st).
Proof.
  unfold patching_step, removed_step, added_run_step, added_alone_step, rbind.
  intros H. split_result; simpl;
    repeat match goal with
      | E : py_setitem _ _ _ = Ok _ |- _ => apply py_setitem_length in E
      end; congruence.
Qed.

Lemma patching_loop_length code_lines patch_lines rest :
  forall pidx st st',
    patching_loop code_lines patch_lines pidx rest st = Ok st' ->
    length (patched st') = length (patched st).
Proof.
  induction rest as [|pline rest IH]; intros pidx st st' H; simpl in H.
  - inversion H. reflexivity.
  - destruct (patching_step code_lines patch_lines pidx pline st) as [st1|] eqn:E;
      [|discriminate].
    cbv beta iota delta [rbind] in H. apply IH in H.
    apply patching_step_length in E. congruence.
Qed.

(** The slot array has the length of the source list at every step.
    The pre-pass keeps the number of lines, and after any number [n] of
    rounds of the pass over the patch lines the [patched] list has as many
    cells as the source has lines. *)
Theorem slot_array_length_invariant
    (patch : string) (raw_code_lines code_lines : list string) (n : nat) (st : pstate) :
  _format_code raw_code_lines = Ok code_lines ->
  patching_loop code_lines (_format_patch_lines patch) 0
    (take n (_format_patch_lines patch)) (init_state code_lines) = Ok st ->
  length code_lines = length raw_code_lines /\
  length (patched st) = length raw_code_lines.
Proof.
  intros Hf Hl. apply format_code_length in Hf. split; [exact Hf|].
  apply patching_loop_length in Hl. rewrite Hl. simpl.
  rewrite length_map. exact Hf.
Qed.

Lemma slot_array_length_invariant_witness :
  (_format_code ["a;"; "b;"; "c;"] = Ok ["a;"; "b;"; "c;"] /\
   patching_loop ["a;"; "b;"; "c;"] (_format_patch_lines deletion_patch) 0
     (take 4 (_format_patch_lines deletion_patch)) (init_state ["a;"; "b;"; "c;"])
   = Ok (mkState [SStr "a;"; SStr EmptyString; SStr "c;"] [] 1 1 3)) /\
  length ["a;"; "b;"; "c;"] = 3%nat /\
  length (patched (mkState [SStr "a;"; SStr EmptyString; SStr "c;"] [] 1 1 3)) = 3%nat.
Proof.
  assert (H1 : _format_code ["a;"; "b;"; "c;"] = Ok ["a;"; "b;"; "c;"])
    by (vm_compute; reflexivity).
  assert (H2 : patching_loop ["a;"; "b;"; "c;"] (_format_patch_lines deletion_patch) 0
     (take 4 (_format_patch_lines deletion_patch)) (init_state ["a;"; "b;"; "c;"])
   = Ok (mkState [SStr "a;"; SStr EmptyString; SStr "c;"] [] 1 1 3))
    by (vm_compute; reflexivity).
  split; [split; assumption|].
  exact (slot_array_length_invariant deletion_patch _ _ 4 _ H1 H2).
Defined.

(** C5 at an input where it fails: two added lines that are both placed
    before the same source line. The number of cells stays that of the
    source, and after the first placement cell 0 is a list of two texts;
    the round of the second added line (the fifth patch line) wraps that
    list in a new list, so that cell 0 holds a list with a list in it:
    neither empty, nor a text, nor a list of texts. *)
Theorem second_insert_before_nests_the_cell :
  _format_code ["foo;"; "bar;"] = Ok ["foo;"; "bar;"] /\
  patching_loop ["foo;"; "bar;"] (_format_patch_lines nested_insert_patch) 0
    (take 4 (_format_patch_lines nested_insert_patch)) (init_state ["foo;"; "bar;"])
  = Ok (mkState [SList [SStr " new1;"; SStr "foo;"]; SStr "bar;"] [] 1 0 2) /\
  patching_loop ["foo;"; "bar;"] (_format_patch_lines nested_insert_patch) 0
    (take 5 (_format_patch_lines nested_insert_patch)) (init_state ["foo;"; "bar;"])
  = Ok (mkState [SList [SStr " new2;"; SList [SStr " new1;"; SStr "foo;"]]; SStr "bar;"]
          [] 2 0 4) /\
  flat (SList [SStr " new1;"; SStr "foo;"]) = true /\
  flat (SList [SStr " new2;"; SList [SStr " new1;"; SStr "foo;"]]) = false /\
  length [SList [SStr " new2;"; SList [SStr " new1;"; SStr "foo;"]]; SStr "bar;"]
  = length ["foo;"; "bar;"].
Proof. repeat split; vm_compute; reflexivity. Qed.

(* ===================================================================== *)
(** ** An empty source *)
(* ===================================================================== *)

Lemma matching_lines_nil aim stop : matching_lines aim [] stop = [].
Proof. destruct aim; reflexivity. Qed.

Lemma find_a_matched_line_nil pidx pline patch_lines lag existing :
  _find_a_matched_line pidx pline [] patch_lines lag existing = Ok NoCandidate.
Proof.
  unfold _find_a_matched_line. rewrite matching_lines_nil.
  destruct (0 <=? lag); reflexivity.
Qed.

Lemma search_loop_no_pool fuel lines incre :
  forall cur_idx degree r,
    search_loop fuel lines (Some []) incre cur_idx degree = Some r -> r = None.
Proof.
  induction fuel as [|fuel IH]; intros cur_idx degree r H; simpl in H; [discriminate|].
  destruct ((0 <=? cur_idx) && (cur_idx <? len lines)); [|congruence].
  destruct (lines !! Z.to_nat cur_idx); [|congruence].
  rewrite andb_false_r in H. eauto.
Qed.

Lemma search_valid_line_no_pool lines start_idx m degree :
  search_valid_line lines start_idx m degree (Some []) = None.
Proof.
  unfold search_valid_line.
  destruct (search_loop _ _ _ _ _ _) eqn:E; [|reflexivity].
  eapply search_loop_no_pool. exact E.
Qed.

Lemma len_snoc {A} (l : list A) (x : A) : len (l ++ [x]) = len l + 1.
Proof. unfold len. rewrite length_app. simpl. lia. Qed.

Lemma patching_step_empty_source patch_lines pidx pline st :
  nothing_applied st ->
  exists st', patching_step [] patch_lines pidx pline st = Ok st' /\ nothing_applied st'.
Proof.
  intros Hst. pose proof Hst as (Hp & Hprev & Hcount). unfold patching_step.
  destruct (re_search removed_re pline).
  - unfold removed_step, follows. rewrite Hprev. simpl andb. cbv beta iota delta [rbind].
    rewrite find_a_matched_line_nil. cbv beta iota. simpl (0 <=? NoCandidate).
    eexists. split; [reflexivity|].
    unfold nothing_applied. simpl. rewrite len_snoc. repeat split; auto. lia.
  - destruct (re_search added_re pline); [|eauto].
    unfold follows. rewrite Hprev. simpl andb. cbv beta iota.
    unfold added_alone_step. rewrite search_valid_line_no_pool.
    assert (Hfail : nothing_applied
              (mkState (patched st) (unpatched st ++ [(pidx, pline)]) (to_patch st + 1)
                 (replace_idx st) (prev_patch_idx st))).
    { unfold nothing_applied. simpl. rewrite len_snoc. repeat split; auto. lia. }
    destruct (search_valid_line patch_lines pidx Pre 1 None) as [[i l]|]; [|eauto].
    rewrite find_a_matched_line_nil. cbv beta iota delta [rbind].
    simpl (0 <=? NoCandidate). eauto.
Qed.

Lemma patching_loop_empty_source patch_lines rest :
  forall pidx st,
    nothing_applied st ->
    exists st', patching_loop [] patch_lines pidx rest st = Ok st' /\ nothing_applied st'.
Proof.
  induction rest as [|pline rest IH]; intros pidx st Hst; simpl; [eauto|].
  destruct (patching_step_empty_source patch_lines pidx pline st Hst) as (st1 & -> & H1).
  cbv beta iota delta [rbind]. apply IH. exact H1.
Qed.

(** C10: on an empty source list [patching] never returns a text; it
    raises Malformed Patch ([NoCodeError]) or No-Op Patch
    ([NotPatchError]). *)
Theorem patching_empty_source_raises (patch : string) :
  patching patch [] = Raise NoCodeError \/ patching patch [] = Raise NotPatchError.
Proof.
  unfold patching.
  destruct (_is_a_patch (_format_patch_lines patch)); [right|left; reflexivity].
  simpl negb. cbv beta iota.
  change (_format_code []) with (Ok (@nil string)). cbv beta iota delta [rbind].
  destruct (patching_loop_empty_source (_format_patch_lines patch)
              (_format_patch_lines patch) 0 (init_state []))
    as (st & -> & (_ & _ & Hc)).
  { repeat split. }
  rewrite Hc, Z.eqb_refl. reflexivity.
Qed.

(* ===================================================================== *)
(** ** The store model agrees with the value model *)
(* ===================================================================== *)

Section StoreOps.
Import Store.
Context {A : Type}.
Implicit Types (h : store) (f : A -> M A).

Lemma bind_lift {B} (r : result B) (k : B -> M A) h :
  bind (lift r) k h = match r with Ok b => k b h | Raise e => (Raise e, h) end.
Proof. destruct r; reflexivity. Qed.

Lemma bind_ret {B} (b : B) (k : B -> M A) h : bind (ret b) k h = k b h.
Proof. reflexivity. Qed.

Lemma bind_assoc {B C} (m : M B) (k1 : B -> M C) (k2 : C -> M A) h :
  bind (bind m k1) k2 h = bind m (fun b => bind (k1 b) k2) h.
Proof. unfold bind. destruct (m h) as [[b|e] h']; reflexivity. Qed.

Lemma bind_load l xs (k : list slot -> M A) h :
  h !! l = Some xs -> bind (load l) k h = k xs h.
Proof. intros H. unfold bind, load. rewrite H. reflexivity. Qed.

Lemma bind_list_len l xs (k : Z -> M A) h :
  h !! l = Some xs -> bind (list_len l) k h = k (len xs) h.
Proof. intros H. unfold list_len, bind, load, ret. rewrite H. reflexivity. Qed.

Lemma bind_get_item l xs i (k : slot -> M A) h :
  h !! l = Some xs ->
  bind (get_item l i) k h
  = match py_getitem xs i with Ok v => k v h | Raise e => (Raise e, h) end.
Proof.
  intros H. unfold get_item, bind, load, lift. rewrite H.
  destruct (py_getitem xs i); reflexivity.
Qed.

Lemma bind_set_item l xs i v (k : unit -> M A) h :
  h !! l = Some xs ->
  bind (set_item l i v) k h
  = match py_setitem xs i v with
    | Ok xs' => k tt (<[l := xs']> h)
    | Raise e => (Raise e, h)
    end.
Proof.
  intros H. unfold set_item, bind, load, lift, put. rewrite H.
  destruct (py_setitem xs i v); reflexivity.
Qed.
End StoreOps.

Lemma texts_SStr (code : list string) : texts (List.map SStr code) = Ok code.
Proof. induction code as [|s code IH]; simpl; [reflexivity|]. rewrite IH. reflexivity. Qed.

Lemma bind_load_lines {A} l code (k : list string -> Store.M A) (h : Store.store) :
  h !! l = Some (List.map SStr code) ->
  Store.bind (Store.load_lines l) k h = k code h.
Proof.
  intros H. unfold Store.load_lines, Store.bind, Store.load, Store.lift.
  rewrite H, texts_SStr. reflexivity.
Qed.

Lemma set_item_run l xs i v (h : Store.store) :
  h !! l = Some xs ->
  Store.set_item l i v h
  = match py_setitem xs i v with
    | Ok xs' => (Ok tt, <[l := xs']> h)
    | Raise e => (Raise e, h)
    end.
Proof.
  intros H. unfold Store.set_item, Store.bind, Store.load, Store.lift, Store.put.
  rewrite H. destruct (py_setitem xs i v); reflexivity.
Qed.

Lemma map_insert {A B} (f : A -> B) (l : list A) (n : nat) (x : A) :
  List.map f (<[n := x]> l) = <[n := f x]> (List.map f l).
Proof.
  revert n. induction l as [|a l IH]; intros [|n]; simpl; try reflexivity.
  rewrite IH. reflexivity.
Qed.

Lemma len_map {A B} (f : A -> B) (l : list A) : len (List.map f l) = len l.
Proof. unfold len. rewrite length_map. reflexivity. Qed.

Lemma map_lookup {A B} (f : A -> B) (l : list A) (n : nat) :
  List.map f l !! n = option_map f (l !! n).
Proof.
  revert n. induction l as [|a l IH]; intros [|n]; simpl; try reflexivity. apply IH.
Qed.

Lemma py_getitem_map {A B} (f : A -> B) (l : list A) (i : Z) :
  py_getitem (List.map f l) i
  = match py_getitem l i with Ok x => Ok (f x) | Raise e => Raise e end.
Proof.
  unfold py_getitem. rewrite len_map.
  destruct (py_pos (len l) i); [|reflexivity].
  rewrite map_lookup. destruct (l !! n); reflexivity.
Qed.

Lemma py_setitem_map {A B} (f : A -> B) (l : list A) (i : Z) (x : A) :
  py_setitem (List.map f l) i (f x)
  = match py_setitem l i x with Ok l' => Ok (List.map f l') | Raise e => Raise e end.
Proof.
  unfold py_setitem. rewrite len_map.
  destruct (py_pos (len l) i); [|reflexivity].
  rewrite map_insert. reflexivity.
Qed.

(** One round of the pre-pass on the store does to the object [out] what
    [format_code_step] does to the value. *)
Lemma format_code_step_sim (h : Store.store) out xs i line xs' :
  h !! out = Some (List.map SStr xs) ->
  format_code_step i line xs = Ok xs' ->
  Store.format_code_step_m out i line h = (Ok tt, <[out := List.map SStr xs']> h).
Proof.
  intros Hout. unfold Store.format_code_step_m, format_code_step.
  destruct (List.find _ keywords) as [k|].
  - erewrite bind_set_item by exact Hout.
    rewrite py_setitem_map.
    destruct (py_setitem xs i EmptyString) as [xs1|] eqn:E1; [|discriminate].
    cbv beta iota delta [rbind].
    erewrite bind_list_len by apply lookup_insert_eq. rewrite len_map.
    destruct (i + 1 <? len xs1).
    + erewrite bind_get_item by apply lookup_insert_eq. rewrite py_getitem_map.
      destruct (py_getitem xs1 (i + 1)) as [next|]; [|discriminate].
      cbv beta iota delta [Store.as_str]. rewrite bind_ret. rewrite (set_item_run _ _ _ _ _ (lookup_insert_eq _ _ _)).
      rewrite py_setitem_map.
      destruct (py_setitem xs1 (i + 1) _) as [xs2|]; [|discriminate].
      cbv beta iota. intros H; inversion H; subst.
      rewrite insert_insert_eq. reflexivity.
    + intros H; inversion H; subst. reflexivity.
  - erewrite bind_list_len by exact Hout. rewrite len_map.
    match goal with |- context [if ?c then _ else _] => destruct c end.
    + erewrite bind_get_item by exact Hout. rewrite py_getitem_map.
      destruct (py_getitem xs (i + 1)) as [next|]; [|discriminate].
      cbv beta iota delta [Store.as_str rbind]. rewrite bind_ret.
      erewrite bind_set_item by exact Hout. rewrite py_setitem_map.
      destruct (py_setitem xs i _) as [xs1|]; [|discriminate].
      cbv beta iota. rewrite (set_item_run _ _ _ _ _ (lookup_insert_eq _ _ _)).
      rewrite py_setitem_map.
      destruct (py_setitem xs1 (i + 1) _) as [xs2|]; [|discriminate].
      cbv beta iota. intros H; inversion H; subst.
      rewrite insert_insert_eq. reflexivity.
    + intros H; inversion H; subst. rewrite insert_id by exact Hout. reflexivity.
Qed.

Lemma format_code_loop_sim out snapshot :
  forall (h : Store.store) i xs xs',
    h !! out = Some (List.map SStr xs) ->
    format_code_loop i snapshot xs = Ok xs' ->
    Store.format_code_loop_m out i snapshot h = (Ok tt, <[out := List.map SStr xs']> h).
Proof.
  induction snapshot as [|line rest IH]; intros h i xs xs' Hout H; simpl in *.
  - inversion H; subst. unfold Store.ret. rewrite insert_id by exact Hout. reflexivity.
  - destruct (format_code_step i line xs) as [xs1|] eqn:E; [|discriminate].
    cbv beta iota delta [rbind] in H.
    unfold Store.bind. rewrite (format_code_step_sim h out xs i line xs1 Hout E).
    rewrite (IH _ (i + 1) xs1 xs' (lookup_insert_eq _ _ _) H).
    rewrite insert_insert_eq. reflexivity.
Qed.

Lemma fresh_lookup (h : Store.store) : h !! fresh (dom h) = None.
Proof. apply not_elem_of_dom, is_fresh. Qed.

(** The pre-pass on the store: it returns a new object that holds what
    [_format_code] computes and leaves every object it found as it was. *)
Lemma format_code_m_run (h : Store.store) raw src :
  h !! raw = Some (List.map SStr src) ->
  exists code out h',
    _format_code src = Ok code /\
    Store._format_code_m raw h = (Ok out, h') /\
    h ⊆ h' /\ h !! out = None /\ h' !! out = Some (List.map SStr code).
Proof.
  intros Hraw. destruct (format_code_total src) as (code & Hcode & _).
  set (out := fresh (dom h)).
  set (h1 := <[out := List.map SStr src]> h).
  set (snap := fresh (dom h1)).
  set (h2 := <[snap := List.map SStr src]> h1).
  assert (Hout : h !! out = None) by apply fresh_lookup.
  assert (Hsnap : h1 !! snap = None) by apply fresh_lookup.
  assert (Hne : snap <> out).
  { intros Heq. rewrite Heq in Hsnap. unfold h1 in Hsnap.
    rewrite lookup_insert_eq in Hsnap. discriminate. }
  assert (H2out : h2 !! out = Some (List.map SStr src)).
  { unfold h2. rewrite lookup_insert_ne by exact Hne. apply lookup_insert_eq. }
  exists code, out, (<[out := List.map SStr code]> h2).
  split; [exact Hcode|]. split; [|split; [|split]].
  - unfold Store._format_code_m, Store.list_copy.
    unfold Store.bind at 1. unfold Store.bind at 1. unfold Store.load at 1.
    rewrite Hraw. unfold Store.new_list at 1. fold out. fold h1.
    unfold Store.bind at 1. unfold Store.bind at 1. unfold Store.load at 1.
    replace (h1 !! out) with (Some (List.map SStr src))
      by (symmetry; apply lookup_insert_eq).
    unfold Store.new_list at 1. fold snap. fold h2.
    erewrite bind_load_lines by apply lookup_insert_eq.
    unfold Store.bind.
    rewrite (format_code_loop_sim out src h2 0 src code H2out Hcode).
    reflexivity.
  - apply insert_subseteq_r; [exact Hout|].
    etrans; [apply (insert_subseteq h out); exact Hout|].
    apply insert_subseteq. exact Hsnap.
  - exact Hout.
  - apply lookup_insert_eq.
Qed.

(** Runs the store computation of the goal one operation at a time
    against the value computation, splitting on the scrutinees they
    share. *)
Ltac sim_step :=
  first
    [ rewrite bind_assoc
    | rewrite bind_lift
    | rewrite bind_ret
    | erewrite bind_list_len by eassumption
    | erewrite bind_get_item by eassumption
    | erewrite bind_set_item by eassumption
    | erewrite bind_load_lines by eassumption
    | progress cbv beta iota delta [rbind Store.ret Store.raise]
    | progress cbn [locals_of patched unpatched to_patch replace_idx prev_patch_idx
                    Store.l_unpatched Store.l_to_patch Store.l_replace_idx
                    Store.l_prev_patch_idx]
    | reflexivity
    | rewrite insert_id by eassumption; reflexivity
    | match goal with
      | |- context [match ?x with _ => _ end] =>
          lazymatch x with
          | context [match _ with _ => _ end] => fail
          | _ => destruct x eqn:?
          end
      end ].

Lemma patching_step_sim (h : Store.store) c p code patch_lines pidx pline st :
  h !! c = Some (List.map SStr code) ->
  h !! p = Some (patched st) ->
  Store.patching_step_m c p patch_lines pidx pline (locals_of st) h
  = match patching_step code patch_lines pidx pline st with
    | Ok st' => (Ok (locals_of st'), <[p := patched st']> h)
    | Raise e => (Raise e, h)
    end.
Proof.
  intros Hc Hp.
  unfold Store.patching_step_m, patching_step.
  destruct (re_search removed_re pline).
  { unfold Store.removed_step_m, removed_step. repeat sim_step. }
  destruct (re_search added_re pline); [|repeat sim_step].
  cbn [locals_of Store.l_prev_patch_idx Store.l_to_patch].
  destruct (follows (prev_patch_idx st) pidx).
  { unfold Store.added_run_step_m, added_run_step. repeat sim_step. }
  unfold Store.added_alone_step_m, added_alone_step. repeat sim_step.
Qed.

(** The pass on the store computes what the pass on values computes; it
    assigns into the object [patched] only. *)
Lemma patching_loop_sim c p code patch_lines rest :
  forall (h : Store.store) pidx st,
    c <> p ->
    h !! c = Some (List.map SStr code) ->
    h !! p = Some (patched st) ->
    exists h',
      Store.patching_loop_m c p patch_lines pidx rest (locals_of st) h
      = (result_map locals_of (patching_loop code patch_lines pidx rest st), h') /\
      (forall l, l <> p -> h' !! l = h !! l) /\
      (forall st', patching_loop code patch_lines pidx rest st = Ok st' ->
                   h' !! p = Some (patched st')).
Proof.
  induction rest as [|pline rest IH]; intros h pidx st Hne Hc Hp; simpl.
  - exists h. split; [reflexivity|]. split; [reflexivity|].
    intros st' H. inversion H; subst. exact Hp.
  - unfold Store.bind. rewrite (patching_step_sim h c p code _ _ _ st Hc Hp).
    destruct (patching_step code patch_lines pidx pline st) as [st1|e] eqn:E.
    + cbv beta iota delta [rbind].
      destruct (IH (<[p := patched st1]> h) (pidx + 1) st1 Hne) as (h' & Hrun & Hframe & Hfin).
      { rewrite lookup_insert_ne by congruence. exact Hc. }
      { apply lookup_insert_eq. }
      exists h'. split; [exact Hrun|]. split; [|exact Hfin].
      intros l Hl. rewrite Hframe by exact Hl. apply lookup_insert_ne. congruence.
    + exists h. split; [reflexivity|]. split; [reflexivity|]. discriminate.
Qed.

(** [patching] on the store returns or raises what [patching] on values
    does, and every object of the store it started from is unchanged:
    all it assigns into are objects it created. *)
Lemma patching_m_refines (patch : string) (raw : nat) (src : list string)
    (h : Store.store) :
  h !! raw = Some (List.map SStr src) ->
  exists h', Store.patching_m patch raw h = (patching patch src, h') /\ h ⊆ h'.
Proof.
  intros Hraw. unfold Store.patching_m, patching.
  destruct (negb (_is_a_patch (_format_patch_lines patch))).
  { exists h. split; reflexivity. }
  destruct (format_code_m_run h raw src Hraw) as (code & c & h1 & Hcode & Hrun & Hsub & Hcn & Hc).
  unfold Store.bind at 1. rewrite Hrun, Hcode. cbv beta iota delta [rbind].
  unfold Store.bind at 1, Store.list_copy. unfold Store.bind at 1, Store.load at 1.
  rewrite Hc. unfold Store.new_list.
  set (p := fresh (dom h1)). set (h2 := <[p := List.map SStr code]> h1).
  assert (Hp1 : h1 !! p = None) by apply fresh_lookup.
  assert (Hne : c <> p) by (intros ->; congruence).
  destruct (patching_loop_sim c p code (_format_patch_lines patch)
              (_format_patch_lines patch) h2 0 (init_state code) Hne)
    as (h3 & Hloop & Hframe & Hfin).
  { unfold h2. rewrite lookup_insert_ne by congruence. exact Hc. }
  { apply lookup_insert_eq. }
  assert (Hsub3 : h ⊆ h3).
  { apply map_subseteq_spec. intros l xs Hl.
    assert (l <> p).
    { intros ->. eapply lookup_weaken in Hl; [|exact Hsub]. congruence. }
    rewrite Hframe by assumption. unfold h2. rewrite lookup_insert_ne by congruence.
    eapply lookup_weaken; eassumption. }
  unfold Store.bind at 1.
  change (Store.mkLocals [] 0 (-1) (-1)) with (locals_of (init_state code)).
  rewrite Hloop.
  destruct (patching_loop code _ 0 _ (init_state code)) as [st|e]; simpl result_map.
  - cbn [locals_of Store.l_unpatched Store.l_to_patch].
    destruct (len (unpatched st) =? to_patch st).
    + exists h3. split; [reflexivity|exact Hsub3].
    + exists h3. split; [|exact Hsub3].
      erewrite bind_load by (apply Hfin; reflexivity). reflexivity.
  - exists h3. split; [reflexivity|exact Hsub3].
Qed.

(** C8: the caller's source list is as it was after the call, whatever
    the outcome. With the caller's list at reference [raw] of the store,
    [patching] ends, returning or raising as the value model says, in a
    store where [raw] holds the same lines in the same order, and so does
    every other object that existed before the call. *)
Theorem patching_leaves_source_untouched
    (patch : string) (raw : nat) (src : list string) (h : gmap nat (list slot)) :
  h !! raw = Some (List.map SStr src) ->
  exists h',
    Store.patching_m patch raw h = (patching patch src, h') /\
    h' !! raw = Some (List.map SStr src) /\
    (forall l xs, h !! l = Some xs -> h' !! l = Some xs).
Proof.
  intros Hraw. destruct (patching_m_refines patch raw src h Hraw) as (h' & Hrun & Hsub).
  exists h'. split; [exact Hrun|]. split.
  - eapply lookup_weaken; eassumption.
  - intros l xs Hl. eapply lookup_weaken; eassumption.
Qed.

Lemma patching_leaves_source_untouched_witness :
  ({[ 0%nat := List.map SStr ["a;"; "b;"; "c;"] ]} : gmap nat (list slot)) !! 0%nat
  = Some (List.map SStr ["a;"; "b;"; "c;"]) /\
  exists h',
    Store.patching_m deletion_patch 0%nat {[ 0%nat := List.map SStr ["a;"; "b;"; "c;"] ]}
    = (patching deletion_patch ["a;"; "b;"; "c;"], h') /\
    h' !! 0%nat = Some (List.map SStr ["a;"; "b;"; "c;"]) /\
    (forall l xs,
        ({[ 0%nat := List.map SStr ["a;"; "b;"; "c;"] ]} : gmap nat (list slot)) !! l = Some xs ->
        h' !! l = Some xs).
Proof.
  split; [reflexivity|].
  apply (patching_leaves_source_untouched deletion_patch 0%nat ["a;"; "b;"; "c;"]).
  reflexivity.
Defined.

(* ===================================================================== *)
(** ** Validation of the patch *)
(* ===================================================================== *)

Lemma tab_is_space c : Ascii.eqb PyStr.TAB c = true -> PyStr.isspace c = true.
Proof. intros H. apply Ascii.eqb_eq in H. subst. reflexivity. Qed.

(** A text the signed-line pattern matches starts with the sign and a
    whitespace character. *)
Lemma signed_re_shape (sign : ascii -> bool) (s : string) :
  re_match (signed_re sign) s = true ->
  match s with
  | String c (String w _) => sign c && PyStr.isspace w = true
  | _ => False
  end.
Proof.
  unfold re_match, signed_re, rseq, RPlus, RLit.
  destruct s as [|c [|w s]]; cbn [exec Nat.eqb].
  - discriminate.
  - destruct (sign c); discriminate.
  - destruct (sign c); [|discriminate].
    destruct (PyStr.isspace w) eqn:Ew; [reflexivity|].
    destruct (Ascii.eqb PyStr.TAB w) eqn:Et; [|discriminate].
    apply tab_is_space in Et. congruence.
Qed.


Lemma no_linebreak_no_newline s : no_linebreak s = true -> no_newline s = true.
Proof.
  unfold no_linebreak, no_newline. induction s as [|c s IH]; simpl; [reflexivity|].
  intros H. apply andb_true_iff in H as [Hc Hs]. rewrite (IH Hs), andb_true_r.
  unfold any_but_newline. destruct (Ascii.eqb c PyStr.LF) eqn:E; [|reflexivity].
  apply Ascii.eqb_eq in E. subst. discriminate.
Qed.

Lemma splitlines_no_linebreak_bounded (n : nat) :
  forall s, (String.length s <= n)%nat ->
            forallb no_linebreak (PyStr.splitlines s) = true.
Proof.
  induction n as [|n IH]; intros s Hn.
  - destruct s; [reflexivity|simpl in Hn; lia].
  - destruct s as [|c s]; [reflexivity|]. simpl in Hn.
    cbn [PyStr.splitlines].
    destruct (PyStr.islinebreak c) eqn:Ec.
    + cbn [forallb]. change (no_linebreak EmptyString) with true. cbn [andb].
      destruct (Ascii.eqb c PyStr.CR); [|apply IH; lia].
      destruct s as [|d s]; [reflexivity|].
      destruct (Ascii.eqb d PyStr.LF); apply IH; simpl in *; lia.
    + pose proof (IH s ltac:(lia)) as Hs.
      destruct (PyStr.splitlines s) as [|l ls]; cbn [forallb] in *.
      * unfold no_linebreak. simpl. rewrite Ec. reflexivity.
      * apply andb_true_iff in Hs as [Hl Hls]. rewrite Hls, andb_true_r.
        unfold no_linebreak in *. simpl. rewrite Ec. exact Hl.
Qed.

Lemma splitlines_no_linebreak s : forallb no_linebreak (PyStr.splitlines s) = true.
Proof. apply (splitlines_no_linebreak_bounded (String.length s)). lia. Qed.

Lemma lstrip_keeps (P : ascii -> bool) s :
  forallb P (list_ascii_of_string s) = true ->
  forallb P (list_ascii_of_string (PyStr.lstrip s)) = true.
Proof.
  induction s as [|c s IH]; simpl; [reflexivity|]. intros H.
  destruct (PyStr.isspace c); [|exact H].
  apply andb_true_iff in H as [_ H]. auto.
Qed.

Lemma rstrip_keeps (P : ascii -> bool) s :
  forallb P (list_ascii_of_string s) = true ->
  forallb P (list_ascii_of_string (PyStr.rstrip s)) = true.
Proof.
  induction s as [|c s IH]; simpl; [reflexivity|]. intros H.
  apply andb_true_iff in H as [Hc H].
  destruct (PyStr.is_empty (PyStr.rstrip s) && PyStr.isspace c); [reflexivity|].
  simpl. rewrite Hc. auto.
Qed.

Lemma strip_no_newline s : no_linebreak s = true -> no_newline (PyStr.strip s) = true.
Proof.
  intros H. apply no_linebreak_no_newline. unfold PyStr.strip, no_linebreak in *.
  apply lstrip_keeps, rstrip_keeps, H.
Qed.

(** [.*$] matches what is left of a line without a newline. *)
Lemma star_dot_eol (s : string) :
  forall n pos g,
    no_newline s = true -> (String.length s <= n)%nat ->
    star_loop (exec (RChar any_but_newline))
      (fun pos' s' g' => exec REol pos' s' g' accept) n pos s g <> None.
Proof.
  induction s as [|c s IH]; intros n pos g Hs Hn.
  - destruct n; simpl; discriminate.
  - destruct n as [|n]; [simpl in Hn; lia|].
    unfold no_newline in Hs. simpl in Hs. apply andb_true_iff in Hs as [Hc Hs].
    cbn [star_loop exec]. rewrite Hc.
    replace (pos <? S pos)%nat with true by (symmetry; apply Nat.ltb_lt; lia).
    specialize (IH n (S pos) g Hs ltac:(simpl in Hn; lia)).
    destruct (star_loop _ _ n (S pos) s g); [discriminate|contradiction].
Qed.

(** On a text without a newline the signed-line pattern asks for the
    sign and one whitespace character and for nothing else. *)
Lemma signed_re_complete (sign : ascii -> bool) (c w : ascii) (rest : string) :
  sign c = true -> PyStr.isspace w = true -> no_newline rest = true ->
  re_match (signed_re sign) (String c (String w rest)) = true.
Proof.
  intros Hc Hw Hrest. unfold re_match, signed_re, rseq, RPlus, RLit.
  cbn [exec Nat.eqb]. rewrite Hc, Hw.
  set (k := fun pos' s' g' => exec (RStar (RChar any_but_newline)) pos' s' g'
                                (fun pos'' s'' g'' => exec REol pos'' s'' g'' accept)).
  assert (Hk : forall pos s g, no_newline s = true -> k pos s g <> None).
  { intros pos s g Hs. unfold k. cbn [exec]. apply star_dot_eol; [exact Hs|lia]. }
  assert (Hloop : forall n pos s g, no_newline s = true ->
            star_loop (exec (RGroup 1 (RAlt (RChar PyStr.isspace)
                                             (RChar (Ascii.eqb PyStr.TAB)))))
              k n pos s g <> None).
  { intros n pos s g Hs. destruct n; cbn [star_loop]; [apply Hk; exact Hs|].
    destruct (exec _ pos s g _); [discriminate|apply Hk; exact Hs]. }
  match goal with
  | |- (match match ?a with _ => _ end with _ => _ end) = true =>
      assert (Ha : a <> None) by (apply Hloop; exact Hrest);
      destruct a; [reflexivity|contradiction]
  end.
Qed.

(** X18: the sign pattern in words. On the lines of a patch the pattern
    of the validation finds a signed line exactly when some line, once
    trimmed, starts with [+] or [-] followed by a whitespace character. *)
Lemma has_sign_is_signed_content_line (patch : string) :
  has_sign (_format_patch_lines patch)
  = existsb signed_content_line (_format_patch_lines patch).
Proof.
  unfold _format_patch_lines, has_sign.
  pose proof (splitlines_no_linebreak
                (re_sub hunk_split_re
                   (fun whole g => group whole g 1 ++ nl ++ group whole g 2) patch)) as H.
  revert H. generalize (PyStr.splitlines
                (re_sub hunk_split_re
                   (fun whole g => group whole g 1 ++ nl ++ group whole g 2) patch)).
  intros pl. induction pl as [|ln pl IH]; simpl; [reflexivity|].
  intros H. apply andb_true_iff in H as [Hln Hpl]. rewrite (IH Hpl). f_equal.
  apply strip_no_newline in Hln. unfold signed_content_line.
  destruct (re_match sign_re (PyStr.strip ln)) eqn:E.
  - apply signed_re_shape in E.
    destruct (PyStr.strip ln) as [|c [|w s]]; try contradiction. symmetry. exact E.
  - destruct (PyStr.strip ln) as [|c [|w s]]; try reflexivity.
    destruct ((Ascii.eqb c "-" || Ascii.eqb c "+") && PyStr.isspace w) eqn:E2;
      [|reflexivity].
    apply andb_true_iff in E2 as [E2 E3].
    unfold no_newline in Hln. simpl in Hln.
    apply andb_true_iff in Hln as [_ Hln]. apply andb_true_iff in Hln as [_ Hln].
    unfold sign_re in E. rewrite signed_re_complete in E; auto.
Qed.

Lemma exec_char_cons p pos c s g k :
  Re.exec (RChar p) pos (String c s) g k = if p c then k (S pos) s g else None.
Proof. reflexivity. Qed.













(* ===================================================================== *)
(** ** Deleting a line *)
(* ===================================================================== *)

Lemma patching_step_unsigned code_lines patch_lines pidx pline st :
  unsigned pline = true ->
  patching_step code_lines patch_lines pidx pline st = Ok st.
Proof.
  unfold unsigned, patching_step. intros H.
  apply andb_true_iff in H as [H1 H2].
  apply negb_true_iff in H1, H2. rewrite H1, H2. reflexivity.
Qed.

Lemma patching_loop_unsigned code_lines patch_lines rest :
  forall pidx st,
    forallb unsigned rest = true ->
    patching_loop code_lines patch_lines pidx rest st = Ok st.
Proof.
  induction rest as [|pline rest IH]; intros pidx st H; simpl in *; [reflexivity|].
  apply andb_true_iff in H as [H1 H2].
  rewrite patching_step_unsigned by exact H1. cbv beta iota delta [rbind]. auto.
Qed.

Lemma patching_loop_app code_lines patch_lines l1 :
  forall l2 pidx st,
    patching_loop code_lines patch_lines pidx (l1 ++ l2) st
    = rbind (patching_loop code_lines patch_lines pidx l1 st)
        (patching_loop code_lines patch_lines (pidx + len l1) l2).
Proof.
  induction l1 as [|pline l1 IH]; intros l2 pidx st; simpl.
  - unfold len. simpl. rewrite Z.add_0_r. reflexivity.
  - destruct (patching_step code_lines patch_lines pidx pline st) as [st1|e]; simpl;
      [|reflexivity].
    rewrite IH. unfold len. simpl length.
    replace (pidx + 1 + Z.of_nat (length l1)) with (pidx + Z.of_nat (S (length l1))) by lia.
    reflexivity.
Qed.

(** C6, as the code has it: on the source [a; b; c;], whose lines end
    their statements so that the pre-pass leaves them apart, a valid patch
    whose only signed line removes [b;] gives the text of [a;] and [c;]. *)
Theorem deletion_of_terminated_line (patch : string) (pre post : list string)
    (pline : string) :
  _is_a_patch (_format_patch_lines patch) = true ->
  _format_patch_lines patch = (pre ++ pline :: post)%list ->
  forallb unsigned pre = true ->
  forallb unsigned post = true ->
  re_search removed_re pline = true ->
  PyStr.lstrip (PyStr.tail pline) = "b;" ->
  patching patch ["a;"; "b;"; "c;"] = Ok ("a;" ++ nl ++ "c;").
Proof.
  intros Hvalid Hpl Hpre Hpost Hrem Htext.
  unfold patching. rewrite Hvalid. simpl negb. cbv beta iota.
  replace (_format_code ["a;"; "b;"; "c;"]) with (Ok ["a;"; "b;"; "c;"])
    by (vm_compute; reflexivity).
  cbv beta iota delta [rbind]. rewrite Hpl.
  rewrite patching_loop_app, patching_loop_unsigned by exact Hpre.
  cbv beta iota delta [rbind]. cbn [patching_loop].
  assert (Hstep :
    patching_step ["a;"; "b;"; "c;"] (pre ++ pline :: post) (0 + len pre) pline
      (init_state ["a;"; "b;"; "c;"])
    = Ok (mkState [SStr "a;"; SStr EmptyString; SStr "c;"] [] 1 1 (0 + len pre))).
  { unfold patching_step. rewrite Hrem. unfold removed_step.
    cbn [init_state prev_patch_idx replace_idx patched unpatched to_patch].
    unfold follows. simpl (0 <=? -1). cbv beta iota delta [andb rbind].
    rewrite Htext. unfold _find_a_matched_line.
    replace (matching_lines (Some "b;") ["a;"; "b;"; "c;"] false) with [1]
      by (vm_compute; reflexivity).
    simpl (0 <=? -1). cbv beta iota. simpl (0 <=? 1). cbv beta iota.
    reflexivity. }
  rewrite Hstep. cbv beta iota delta [rbind].
  rewrite patching_loop_unsigned by exact Hpost.
  cbv beta iota. vm_compute. reflexivity.
Qed.

Lemma deletion_of_terminated_line_witness :
  (_is_a_patch (_format_patch_lines deletion_patch) = true /\
   _format_patch_lines deletion_patch
   = (["@@ -1,3 +1,2 @@"; EmptyString; " a;"] ++ "- b;" :: [" c;"])%list /\
   forallb unsigned ["@@ -1,3 +1,2 @@"; EmptyString; " a;"] = true /\
   forallb unsigned [" c;"] = true /\
   re_search removed_re "- b;" = true /\
   PyStr.lstrip (PyStr.tail "- b;") = "b;") /\
  patching deletion_patch ["a;"; "b;"; "c;"] = Ok ("a;" ++ nl ++ "c;").
Proof.
  assert (H1 : _is_a_patch (_format_patch_lines deletion_patch) = true)
    by (vm_compute; reflexivity).
  assert (H2 : _format_patch_lines deletion_patch
               = (["@@ -1,3 +1,2 @@"; EmptyString; " a;"] ++ "- b;" :: [" c;"])%list)
    by (vm_compute; reflexivity).
  assert (H3 : forallb unsigned ["@@ -1,3 +1,2 @@"; EmptyString; " a;"] = true)
    by (vm_compute; reflexivity).
  assert (H4 : forallb unsigned [" c;"] = true) by (vm_compute; reflexivity).
  assert (H5 : re_search removed_re "- b;" = true) by (vm_compute; reflexivity).
  assert (H6 : PyStr.lstrip (PyStr.tail "- b;") = "b;") by reflexivity.
  split; [repeat split; assumption|].
  exact (deletion_of_terminated_line deletion_patch _ _ _ H1 H2 H3 H4 H5 H6).
Defined.

(** C6, as the specification words it, fails: on the source [a, b, c]
    the pre-pass joins each line that ends in a letter with the next one,
    no line [b] is left to match, and the patch that removes [b] is
    refused as applying nothing. *)
Lemma deletion_on_abc_fails :
  _is_a_patch (_format_patch_lines abc_patch) = true /\
  _format_patch_lines abc_patch = ["@@ -1,3 +1,2 @@"; EmptyString; " a"; "- b"; " c"] /\
  _format_code ["a"; "b"; "c"] = Ok ["a b"; "b c"; EmptyString] /\
  patching abc_patch ["a"; "b"; "c"] = Raise NotPatchError /\
  patching abc_patch ["a"; "b"; "c"] <> Ok ("a" ++ nl ++ "c").
Proof.
  assert (H : patching abc_patch ["a"; "b"; "c"] = Raise NotPatchError)
    by (vm_compute; reflexivity).
  repeat split; try (vm_compute; reflexivity); try exact H.
  rewrite H. discriminate.
Qed.

(* ===================================================================== *)
(** ** The completion policy and the ways [patching] can end *)
(* ===================================================================== *)

(** When the pass over the patch lines comes to its end, the completion
    check is the one of the specification: No-Op Patch exactly when every
    signed line is unpatched, else the text is rebuilt from the cells. *)
Lemma completion_policy (patch : string) (raw_code_lines code_lines : list string)
    (st : pstate) :
  _is_a_patch (_format_patch_lines patch) = true ->
  _format_code raw_code_lines = Ok code_lines ->
  patching_loop code_lines (_format_patch_lines patch) 0 (_format_patch_lines patch)
    (init_state code_lines) = Ok st ->
  (len (unpatched st) = to_patch st ->
   patching patch raw_code_lines = Raise NotPatchError) /\
  (len (unpatched st) <> to_patch st ->
   patching patch raw_code_lines = reconstruct (patched st)).
Proof.
  intros Hv Hf Hl. unfold patching. rewrite Hv, Hf. simpl negb.
  cbv beta iota delta [rbind]. rewrite Hl. cbv beta iota.
  split; intros H.
  - rewrite H, Z.eqb_refl. reflexivity.
  - apply Z.eqb_neq in H. rewrite H. reflexivity.
Qed.

Lemma texts_app_flat (l rest : list slot) (ss : list string) :
  forallb (fun x => match x with SStr _ => true | SList _ => false end) l = true ->
  texts rest = Ok ss ->
  exists ss', texts (l ++ rest) = Ok ss'.
Proof.
  induction l as [|x l IH]; simpl; intros Hl Hr; [eauto|].
  apply andb_true_iff in Hl as [Hx Hl]. destruct x; [|discriminate].
  destruct (IH Hl Hr) as (ss' & ->). simpl. eauto.
Qed.

(** The text is rebuilt whenever every cell is flat. *)
Lemma reconstruct_flat (cells : list slot) :
  forallb flat cells = true -> exists text, reconstruct cells = Ok text.
Proof.
  intros H. unfold reconstruct.
  assert (Ht : exists ss, texts (collect cells) = Ok ss).
  { induction cells as [|p cells IH]; simpl in *; [eauto|].
    apply andb_true_iff in H as [Hp Hc]. destruct (IH Hc) as (ss & Hss).
    destruct (slot_falsy p); [eauto|].
    destruct p as [s|l]; simpl.
    - rewrite Hss. simpl. eauto.
    - eapply texts_app_flat; eassumption. }
  destruct Ht as (ss & ->). simpl. eauto.
Qed.

(** C3 at an input where it fails: the patch is valid and the pass places
    both of its added lines, before the same source line; the second
    placement wraps the list cell of the first in a new list, and the
    rebuilding of the text raises TypeError on the nested list. Signed
    lines were applied and no text is returned. *)
Theorem completion_with_nested_cell_raises :
  _is_a_patch (_format_patch_lines nested_insert_patch) = true /\
  _format_code ["foo;"; "bar;"] = Ok ["foo;"; "bar;"] /\
  patching_loop ["foo;"; "bar;"] (_format_patch_lines nested_insert_patch) 0
    (_format_patch_lines nested_insert_patch) (init_state ["foo;"; "bar;"])
  = Ok (mkState [SList [SStr " new2;"; SList [SStr " new1;"; SStr "foo;"]]; SStr "bar;"]
          [] 2 0 4) /\
  patching nested_insert_patch ["foo;"; "bar;"] = Raise TypeError.
Proof. repeat split; vm_compute; reflexivity. Qed.

(** C4 at an input where it fails: a run of two removed lines on a source
    of one line moves [replace_idx] past the last cell (the clearing is
    guarded, the advance is not), and the added line that follows assigns
    to that index: IndexError, which is neither Malformed Patch nor No-Op
    Patch. *)
Theorem patching_run_past_the_end_raises :
  _is_a_patch (_format_patch_lines overrun_patch) = true /\
  patching_loop ["a;"] (_format_patch_lines overrun_patch) 0
    (take 4 (_format_patch_lines overrun_patch)) (init_state ["a;"])
  = Ok (mkState [SStr EmptyString] [] 2 1 3) /\
  patching overrun_patch ["a;"] = Raise IndexError /\
  (forall text, patching overrun_patch ["a;"] <> Ok text) /\
  patching overrun_patch ["a;"] <> Raise NoCodeError /\
  patching overrun_patch ["a;"] <> Raise NotPatchError.
Proof.
  assert (H : patching overrun_patch ["a;"] = Raise IndexError)
    by (vm_compute; reflexivity).
  split; [vm_compute; reflexivity|].
  split; [vm_compute; reflexivity|].
  split; [exact H|]. rewrite H.
  split; [intros text; discriminate|]. split; discriminate.
Qed.

(** *** What the pass can raise *)

Lemma py_getitem_raises {A} (l : list A) i e : py_getitem l i = Raise e -> e = IndexError.
Proof.
  unfold py_getitem. destruct (py_pos _ _); [destruct (l !! n)|]; congruence.
Qed.

Lemma py_setitem_raises {A} (l : list A) i v e :
  py_setitem l i v = Raise e -> e = IndexError.
Proof. unfold py_setitem. destruct (py_pos _ _); congruence. Qed.

Lemma matching_with_comments_raises aim matched code_lines e :
  matching_with_comments aim matched code_lines = Raise e -> e = IndexError.
Proof.
  induction matched as [|m rest IH]; simpl; [discriminate|].
  destruct (py_getitem code_lines m) eqn:E; simpl.
  - destruct (matching_with_comments aim rest code_lines); simpl; [discriminate|].
    intros H. apply IH. exact H.
  - intros H. inversion H; subst. eapply py_getitem_raises. exact E.
Qed.

Lemma unique_matching_raises resp_lines code_lines idx cur existing e :
  unique_matching resp_lines code_lines idx cur existing = Raise e -> e = IndexError.
Proof.
  unfold unique_matching.
  destruct (target_line resp_lines idx cur) as [target|e'] eqn:E;
    cbv beta iota delta [rbind].
  - repeat match goal with
      | |- context [match ?x with _ => _ end] => destruct x
      end; discriminate.
  - intros H. inversion H; subst. unfold target_line in E.
    destruct cur; [discriminate|]. eapply py_getitem_raises. exact E.
Qed.

Lemma find_a_matched_line_raises pidx pline code_lines patch_lines lag existing e :
  _find_a_matched_line pidx pline code_lines patch_lines lag existing = Raise e ->
  e = IndexError.
Proof.
  unfold _find_a_matched_line.
  generalize (if 0 <=? lag
              then List.filter (fun m => lag <? m) (matching_lines (Some pline) code_lines false)
              else matching_lines (Some pline) code_lines false).
  intros matched H.
  assert (Hgen :
    rbind (matching_with_comments pline matched code_lines)
      (fun perfect => match perfect with
                      | [m] => Ok m
                      | _ => unique_matching patch_lines code_lines pidx (Some pline) existing
                      end) = Raise e -> e = IndexError).
  { destruct (matching_with_comments pline matched code_lines) as [perfect|e'] eqn:E; simpl.
    - destruct perfect as [|? [|? ?]]; try discriminate; apply unique_matching_raises.
    - intros H'. inversion H'; subst. eapply matching_with_comments_raises. exact E. }
  destruct matched as [|? [|? ?]]; try discriminate; apply Hgen; exact H.
Qed.

(** Splits a hypothesis [... = Raise e] along its matches down to the
    operation that raised. *)
Ltac split_raise :=
  repeat match goal with
    | H : Ok _ = Raise _ |- _ => discriminate H
    | H : Raise _ = Raise _ |- _ => inversion H; subst; clear H
    | H : context [match ?x with _ => _ end] |- _ =>
        lazymatch x with
        | context [match _ with _ => _ end] => fail
        | _ => let E := fresh "E" in destruct x eqn:E
        end
    end.

Lemma patching_step_raises code_lines patch_lines pidx pline st e :
  patching_step code_lines patch_lines pidx pline st = Raise e -> e = IndexError.
Proof.
  unfold patching_step, removed_step, added_run_step, added_alone_step, rbind.
  intros H. split_raise;
    match goal with
    | E : py_getitem _ _ = Raise _ |- _ => exact (py_getitem_raises _ _ _ E)
    | E : py_setitem _ _ _ = Raise _ |- _ => exact (py_setitem_raises _ _ _ _ E)
    | E : _find_a_matched_line _ _ _ _ _ _ = Raise _ |- _ =>
        exact (find_a_matched_line_raises _ _ _ _ _ _ _ E)
    end.
Qed.

Lemma patching_loop_raises code_lines patch_lines rest :
  forall pidx st e,
    patching_loop code_lines patch_lines pidx rest st = Raise e -> e = IndexError.
Proof.
  induction rest as [|pline rest IH]; intros pidx st e; simpl; [discriminate|].
  destruct (patching_step code_lines patch_lines pidx pline st) as [st1|e1] eqn:E; simpl.
  - apply IH.
  - intros H. inversion H; subst. eapply patching_step_raises. exact E.
Qed.

Lemma texts_raises res e : texts res = Raise e -> e = TypeError.
Proof.
  induction res as [|[s|l] res IH]; simpl; [discriminate| |congruence].
  destruct (texts res); simpl; [discriminate|]. intros H. apply IH. exact H.
Qed.

(** X17: Malformed Patch is the outcome of the validation and of nothing
    else: [patching] raises [NoCodeError] exactly on the texts
    [_is_a_patch] refuses. *)
Lemma malformed_iff_not_a_patch (patch : string) (raw_code_lines : list string) :
  patching patch raw_code_lines = Raise NoCodeError
  <-> _is_a_patch (_format_patch_lines patch) = false.
Proof.
  unfold patching. destruct (_is_a_patch (_format_patch_lines patch)); simpl negb;
    cbv beta iota; [|split; reflexivity].
  split; [|discriminate]. intros H. exfalso.
  destruct (format_code_total raw_code_lines) as (code & Hc & _).
  rewrite Hc in H. cbv beta iota delta [rbind] in H.
  destruct (patching_loop code _ 0 _ (init_state code)) as [st|e] eqn:E.
  - destruct (len (unpatched st) =? to_patch st); [discriminate|].
    unfold reconstruct in H.
    destruct (texts (collect (patched st))) as [ss|e] eqn:Et; simpl in H; [discriminate|].
    apply texts_raises in Et. congruence.
  - apply patching_loop_raises in E. congruence.
Qed.

(* ===================================================================== *)
(** ** More on the line normaliser and the line match *)
(* ===================================================================== *)

Lemma remove_char_fixed c s :
  forallb (fun d => negb (Ascii.eqb d c)) (list_ascii_of_string s) = true ->
  PyStr.remove_char c s = s.
Proof.
  induction s as [|d s IH]; simpl; [reflexivity|]. intros H.
  apply andb_true_iff in H as [Hd Hs]. apply negb_true_iff in Hd. rewrite Hd.
  rewrite IH by exact Hs. reflexivity.
Qed.

(** X1: normalising twice is normalising once. *)
Theorem remove_whitespace_idempotent (line : string) :
  remove_whitespace (remove_whitespace line) = remove_whitespace line.
Proof.
  unfold remove_whitespace.
  set (x := PyStr.remove_char PyStr.SP (PyStr.remove_char PyStr.LF line)).
  assert (Hlf : PyStr.remove_char PyStr.LF x = x).
  { apply remove_char_fixed. apply remove_char_keeps. apply remove_char_absent. }
  rewrite Hlf. apply remove_char_fixed. apply remove_char_absent.
Qed.

(** The line match does not depend on the order of its two lines. *)
Lemma two_lines_match_swap (line1 line2 : string) :
  two_lines_match line1 line2 = two_lines_match line2 line1.
Proof.
  unfold two_lines_match.
  rewrite (orb_comm (PyStr.is_empty line1)).
  destruct (PyStr.is_empty line2 || PyStr.is_empty line1); [reflexivity|].
  rewrite (orb_comm (PyStr.is_empty (PyStr.strip line1))).
  destruct (PyStr.is_empty (PyStr.strip line2) || PyStr.is_empty (PyStr.strip line1));
    [reflexivity|].
  rewrite (andb_comm (PyStr.startswith "//" (PyStr.strip line1))).
  destruct (PyStr.startswith "//" (PyStr.strip line2)
            && PyStr.startswith "//" (PyStr.strip line1)).
  - rewrite (String.eqb_sym (remove_whitespace (PyStr.strip line1))).
    rewrite (andb_comm (nonempty (remove_whitespace (PyStr.strip line1)))). reflexivity.
  - rewrite (String.eqb_sym (remove_whitespace (PyStr.split_head "//" line1))).
    rewrite (andb_comm (nonempty (remove_whitespace (PyStr.split_head "//" line1)))).
    reflexivity.
Qed.

Lemma strip_cons_space c s :
  PyStr.isspace c = true -> PyStr.strip (String c s) = PyStr.strip s.
Proof.
  intros Hc. unfold PyStr.strip. cbn [PyStr.rstrip]. rewrite Hc, andb_true_r.
  destruct (PyStr.rstrip s) eqn:E; cbn [PyStr.is_empty PyStr.lstrip]; [reflexivity|].
  rewrite Hc. reflexivity.
Qed.

Lemma rstrip_cons_nonspace c s :
  PyStr.isspace c = false -> PyStr.rstrip (String c s) = String c (PyStr.rstrip s).
Proof. intros Hc. cbn [PyStr.rstrip]. rewrite Hc, andb_false_r. reflexivity. Qed.

Lemma lstrip_head s c r : PyStr.lstrip s = String c r -> PyStr.isspace c = false.
Proof.
  induction s as [|d s IH]; simpl; [discriminate|].
  destruct (PyStr.isspace d) eqn:E; [exact IH|]. intros H. inversion H; subst. exact E.
Qed.

Lemma remove_whitespace_cons c s :
  remove_whitespace (String c s)
  = if space_or_newline c then remove_whitespace s else String c (remove_whitespace s).
Proof.
  unfold remove_whitespace, space_or_newline. cbn [PyStr.remove_char].
  destruct (Ascii.eqb c PyStr.LF) eqn:E1.
  - rewrite orb_true_r. reflexivity.
  - cbn [PyStr.remove_char]. destruct (Ascii.eqb c PyStr.SP); reflexivity.
Qed.

Lemma space_or_newline_isspace c : space_or_newline c = true -> PyStr.isspace c = true.
Proof.
  unfold space_or_newline. intros H. apply orb_true_iff in H as [H|H];
    apply Ascii.eqb_eq in H; subst; reflexivity.
Qed.

Lemma strip_nonempty_normal s :
  PyStr.is_empty (PyStr.strip s) = false ->
  nonempty (remove_whitespace (PyStr.strip s)) = true.
Proof.
  unfold PyStr.strip. destruct (PyStr.lstrip (PyStr.rstrip s)) as [|c r] eqn:E;
    [discriminate|]. intros _.
  apply lstrip_head in E. rewrite remove_whitespace_cons.
  destruct (space_or_newline c) eqn:Ec; [|reflexivity].
  apply space_or_newline_isspace in Ec. congruence.
Qed.

Lemma slashes_not_space : PyStr.isspace "/" = false.
Proof. reflexivity. Qed.

(** The code part of a line that is not blank and not a full-line
    comment is not blank either. *)
Lemma code_part_nonempty (line : string) :
  PyStr.is_empty (PyStr.strip line) = false ->
  PyStr.startswith "//" (PyStr.strip line) = false ->
  nonempty (remove_whitespace (PyStr.split_head "//" line)) = true.
Proof.
  induction line as [|c l IH]; [discriminate|]. intros Hne Hnc.
  cbn [PyStr.split_head].
  destruct (String.prefix "//" (String c l)) eqn:Ep.
  - exfalso. destruct l as [|d l]; cbn [String.prefix] in Ep;
      destruct (ascii_dec "/" c) as [<-|]; try discriminate.
    destruct (ascii_dec "/" d) as [<-|]; [|discriminate].
    unfold PyStr.strip in Hnc.
    rewrite !rstrip_cons_nonspace in Hnc by exact slashes_not_space.
    cbn in Hnc. destruct (PyStr.rstrip l); discriminate.
  - rewrite remove_whitespace_cons.
    destruct (space_or_newline c) eqn:Ec; [|reflexivity].
    apply space_or_newline_isspace in Ec.
    rewrite strip_cons_space in Hne, Hnc by exact Ec. auto.
Qed.

(** X3: a line matches itself exactly when it is not blank. *)
Theorem two_lines_match_self (line : string) :
  two_lines_match line line = negb (PyStr.is_empty (PyStr.strip line)).
Proof.
  unfold two_lines_match. rewrite !orb_diag.
  destruct line as [|c l]; [reflexivity|]. cbn [PyStr.is_empty].
  destruct (PyStr.is_empty (PyStr.strip (String c l))) eqn:Es; [reflexivity|].
  rewrite andb_diag. cbn [negb].
  destruct (PyStr.startswith "//" (PyStr.strip (String c l))) eqn:Ec;
    rewrite String.eqb_refl, andb_true_r, andb_diag.
  - apply strip_nonempty_normal. exact Es.
  - apply code_part_nonempty; assumption.
Qed.

Lemma two_lines_match_space (a b : string) :
  two_lines_match (String PyStr.SP a) b = two_lines_match a b.
Proof.
  unfold two_lines_match. rewrite strip_cons_space by reflexivity.
  cbn [PyStr.is_empty orb].
  destruct a as [|c a].
  - cbn. destruct (PyStr.is_empty b); reflexivity.
  - cbn [PyStr.is_empty orb].
    replace (PyStr.split_head "//" (String PyStr.SP (String c a)))
      with (String PyStr.SP (PyStr.split_head "//" (String c a))) by reflexivity.
    rewrite (remove_whitespace_cons PyStr.SP). reflexivity.
Qed.

(** X4: spaces in front of a line do not change what it matches. *)
Theorem two_lines_match_indent (n : nat) (a b : string) :
  two_lines_match (indent n a) b = two_lines_match a b /\
  two_lines_match b (indent n a) = two_lines_match b a.
Proof.
  assert (H : forall x, two_lines_match (indent n a) x = two_lines_match a x).
  { intros x. induction n as [|n IH]; [reflexivity|].
    change (indent (S n) a) with (String PyStr.SP (indent n a)).
    rewrite two_lines_match_space. exact IH. }
  split; [apply H|]. rewrite two_lines_match_swap, H. apply two_lines_match_swap.
Qed.

Lemma string_eqb_cons_self c s : String.eqb (String c s) s = false.
Proof.
  destruct (String.eqb (String c s) s) eqn:E; [|reflexivity].
  apply String.eqb_eq in E. apply (f_equal String.length) in E. simpl in E. lia.
Qed.

(** X5: a tab in front of a code line is not ignored: the line no longer
    matches its own text (only spaces and newlines are normalised away). *)
Theorem two_lines_match_tab (line : string) :
  PyStr.is_empty (PyStr.strip line) = false ->
  PyStr.startswith "//" (PyStr.strip line) = false ->
  two_lines_match (String PyStr.TAB line) line = false.
Proof.
  intros Hne Hnc. unfold two_lines_match.
  rewrite strip_cons_space by reflexivity. rewrite Hne, Hnc.
  destruct line as [|c l]; [discriminate|]. cbn [PyStr.is_empty orb andb].
  replace (PyStr.split_head "//" (String PyStr.TAB (String c l)))
    with (String PyStr.TAB (PyStr.split_head "//" (String c l))) by reflexivity.
  rewrite (remove_whitespace_cons PyStr.TAB).
  change (space_or_newline PyStr.TAB) with false. cbv iota.
  rewrite string_eqb_cons_self, andb_false_r. reflexivity.
Qed.

Lemma two_lines_match_tab_witness :
  (PyStr.is_empty (PyStr.strip "x = 1;") = false /\
   PyStr.startswith "//" (PyStr.strip "x = 1;") = false) /\
  two_lines_match (String PyStr.TAB "x = 1;") "x = 1;" = false.
Proof.
  split; [split; reflexivity|].
  apply two_lines_match_tab; reflexivity.
Defined.

(* ===================================================================== *)
(** ** The exact matcher *)
(* ===================================================================== *)

Lemma matching_lines_from_In aim code :
  forall k i,
    In i (matching_lines_from k aim code false) <->
    exists n cl, i = k + Z.of_nat n /\ code !! n = Some cl /\ two_lines_match aim cl = true.
Proof.
  induction code as [|c code IH]; intros k i; simpl.
  - split; [contradiction|]. intros (n & cl & _ & H & _). rewrite lookup_nil in H.
    discriminate.
  - destruct (two_lines_match aim c) eqn:E; simpl; rewrite IH; split.
    + intros [<-|(n & cl & -> & Hn & Hm)].
      * exists 0%nat, c. split; [lia|]. split; [reflexivity|exact E].
      * exists (S n), cl. split; [lia|]. split; assumption.
    + intros ([|n] & cl & -> & Hn & Hm).
      * left. lia.
      * right. exists n, cl. split; [lia|]. split; assumption.
    + intros (n & cl & -> & Hn & Hm). exists (S n), cl. split; [lia|]. split; assumption.
    + intros ([|n] & cl & -> & Hn & Hm).
      * simpl in Hn. inversion Hn; subst. congruence.
      * exists n, cl. split; [lia|]. split; assumption.
Qed.

(** The exact matcher returns the indices of the source lines that
    match the target, all of them and nothing else. *)
Lemma matching_lines_In (aim : string) (code_lines : list string) (i : Z) :
  In i (matching_lines (Some aim) code_lines false) <-> matches_at aim code_lines i = true.
Proof.
  unfold matching_lines, matches_at. rewrite matching_lines_from_In. split.
  - intros (n & cl & -> & Hn & Hm). simpl. rewrite Z.add_0_l, Nat2Z.id, Hn.
    rewrite Hm. apply andb_true_iff. split; [apply Z.leb_le; lia|reflexivity].
  - intros H. apply andb_true_iff in H as [H0 H]. apply Z.leb_le in H0.
    destruct (code_lines !! Z.to_nat i) as [cl|] eqn:E; [|discriminate].
    exists (Z.to_nat i), cl. split; [lia|]. split; assumption.
Qed.

Lemma matching_lines_from_sorted aim code stop :
  forall k,
    Forall (fun j => k <= j) (matching_lines_from k aim code stop) /\
    StronglySorted Z.lt (matching_lines_from k aim code stop).
Proof.
  induction code as [|c code IH]; intros k; simpl.
  - split; constructor.
  - destruct (IH (k + 1)) as [Hge Hs].
    assert (Hge' : Forall (fun j => k <= j) (matching_lines_from (k + 1) aim code stop)).
    { eapply Forall_impl; [exact Hge|]. simpl. intros; lia. }
    destruct (two_lines_match aim c); [|split; assumption].
    destruct stop.
    + split.
      * constructor; [lia|constructor].
      * constructor; constructor.
    + split.
      * constructor; [lia|exact Hge'].
      * constructor; [exact Hs|].
        eapply Forall_impl; [exact Hge|]. simpl. intros; lia.
Qed.

(** X7: the indices the exact matcher returns are in ascending source
    order, without repetition. *)
Theorem matching_lines_ascending (aim : option string) (code_lines : list string)
    (stop_at_first_match : bool) :
  StronglySorted Z.lt (matching_lines aim code_lines stop_at_first_match).
Proof.
  destruct aim as [a|]; simpl; [|constructor].
  apply matching_lines_from_sorted.
Qed.

(** X8: with [stop_at_first_match] the exact matcher returns the first
    match alone, and nothing when there is none. *)
Theorem matching_lines_stop_at_first (aim : option string) (code_lines : list string) :
  matching_lines aim code_lines true = List.firstn 1 (matching_lines aim code_lines false).
Proof.
  destruct aim as [a|]; simpl; [|reflexivity].
  generalize 0. induction code_lines as [|c code IH]; intros k; simpl; [reflexivity|].
  destruct (two_lines_match a c); [reflexivity|apply IH].
Qed.

(* ===================================================================== *)
(** ** The neighbour matcher and the resolver: what an index they return is *)
(* ===================================================================== *)

Lemma len_one {A} (l : list A) : (len l =? 1) = true -> exists x, l = [x].
Proof.
  intros H. apply Z.eqb_eq in H. unfold len in H.
  destruct l as [|x [|y l]]; simpl in H; try lia. eauto.
Qed.

Lemma neighbors_also_sub raw m degree aim now :
  Forall (fun i => In i now) (neighbors_also raw m degree aim now).
Proof.
  unfold neighbors_also. apply List.Forall_forall. intros i Hi.
  apply List.filter_In in Hi. tauto.
Qed.

Lemma set_inter_sub a b : Forall (fun i => In i a) (set_inter a b).
Proof.
  unfold set_inter. apply List.Forall_forall. intros i Hi.
  apply List.nodup_In in Hi. apply List.filter_In in Hi. tauto.
Qed.

Lemma Forall_In_trans (a b c : list Z) :
  Forall (fun i => In i b) a -> Forall (fun i => In i c) b -> Forall (fun i => In i c) a.
Proof.
  intros Hab Hbc. rewrite List.Forall_forall in *. auto.
Qed.

Lemma matching_neighbor_loop_sub degrees aim_codes aim_idx raw pool matched :
  forall pre_now post_now,
    Forall (fun i => In i matched) pre_now ->
    Forall (fun i => In i matched) post_now ->
    let r := matching_neighbor_loop degrees aim_codes aim_idx raw pool pre_now post_now in
    (length r <= 1)%nat /\ Forall (fun i => In i matched) r.
Proof.
  induction degrees as [|degree degrees IH]; intros pre_now post_now Hpre Hpost;
    cbn [matching_neighbor_loop]; cbv zeta.
  - split; [simpl; lia|constructor].
  - set (pre_also := match search_valid_line aim_codes aim_idx Pre degree pool with
                     | Some (_, l) => neighbors_also raw Pre degree l pre_now
                     | None => []
                     end).
    set (post_also := match search_valid_line aim_codes aim_idx Post degree pool with
                      | Some (_, l) => neighbors_also raw Post degree l post_now
                      | None => []
                      end).
    assert (Hpa : Forall (fun i => In i matched) pre_also).
    { unfold pre_also. destruct (search_valid_line _ _ Pre _ _) as [[? l]|]; [|constructor].
      eapply Forall_In_trans; [apply neighbors_also_sub|exact Hpre]. }
    assert (Hqa : Forall (fun i => In i matched) post_also).
    { unfold post_also. destruct (search_valid_line _ _ Post _ _) as [[? l]|]; [|constructor].
      eapply Forall_In_trans; [apply neighbors_also_sub|exact Hpost]. }
    destruct (bool_decide _ && (len pre_also =? 1)) eqn:E1.
    { apply andb_true_iff in E1 as [_ E1]. apply len_one in E1 as (x & Hx).
      split; [rewrite Hx; simpl; lia|exact Hpa]. }
    destruct (bool_decide _ && (len post_also =? 1)) eqn:E2.
    { apply andb_true_iff in E2 as [_ E2]. apply len_one in E2 as (x & Hx).
      split; [rewrite Hx; simpl; lia|exact Hqa]. }
    destruct (negb (is_nil pre_also) && negb (is_nil post_also)
              && (len (set_inter pre_also post_also) =? 1)) eqn:E3.
    { apply andb_true_iff in E3 as [_ E3]. apply len_one in E3 as (x & Hx).
      split; [rewrite Hx; simpl; lia|].
      eapply Forall_In_trans; [apply set_inter_sub|exact Hpa]. }
    destruct (is_nil pre_also && is_nil post_also).
    { split; [simpl; lia|constructor]. }
    apply IH; assumption.
Qed.

Lemma Forall_In_refl (l : list Z) : Forall (fun i => In i l) l.
Proof. apply List.Forall_forall. auto. Qed.

(** Neighbour disambiguation returns at most one index, and an index
    it returns is one of the candidates it was given. *)
Lemma matching_neighbor_sub
    (aim_codes : list string) (aim_idx : Z) (raw_codes : list string)
    (matched : list Z) (existing : bool) (degree_limit : Z) :
  (length (matching_neighbor aim_codes aim_idx raw_codes matched existing degree_limit)
   <= 1)%nat /\
  Forall (fun i => In i matched)
    (matching_neighbor aim_codes aim_idx raw_codes matched existing degree_limit).
Proof.
  unfold matching_neighbor. apply matching_neighbor_loop_sub; apply Forall_In_refl.
Qed.

(** What the resolver returns. When the target line exists, the
    result is NoCandidate, Ambiguous or the index of a source line that
    matches the target; when the fragment index is out of range (and no
    explicit line is given) the call raises IndexError. *)
Lemma unique_matching_outcome
    (resp_lines code_lines : list string) (resp_cur_idx : Z)
    (resp_cur_line : option string) (existing : bool) :
  match target_line resp_lines resp_cur_idx resp_cur_line with
  | Ok target =>
      exists i,
        unique_matching resp_lines code_lines resp_cur_idx resp_cur_line existing = Ok i /\
        (i = NoCandidate \/ i = Ambiguous \/ matches_at target code_lines i = true)
  | Raise _ =>
      unique_matching resp_lines code_lines resp_cur_idx resp_cur_line existing
      = Raise IndexError
  end.
Proof.
  unfold unique_matching.
  destruct (target_line resp_lines resp_cur_idx resp_cur_line) as [target|e] eqn:Et;
    cbv beta iota delta [rbind].
  - pose proof (matching_lines_In target code_lines) as Hc.
    destruct (matching_lines (Some target) code_lines false) as [|m [|m' ms]] eqn:Em.
    + eauto.
    + exists m. split; [reflexivity|]. right; right. apply Hc. left. reflexivity.
    + pose proof (matching_neighbor_sub resp_lines resp_cur_idx code_lines
                    (m :: m' :: ms) existing 5) as [_ Hsub].
      destruct (matching_neighbor _ _ _ _ _ _) as [|n [|n' ns]]; eauto.
      exists n. split; [reflexivity|]. right; right. apply Hc.
      inversion Hsub; subst. assumption.
  - unfold target_line in Et. destruct resp_cur_line; [discriminate|].
    apply py_getitem_raises in Et. subst. reflexivity.
Qed.

Lemma matches_at_getitem aim code m :
  matches_at aim code m = true -> exists cl, py_getitem code m = Ok cl.
Proof.
  unfold matches_at. intros H. apply andb_true_iff in H as [H0 H].
  apply Z.leb_le in H0.
  destruct (code !! Z.to_nat m) as [cl|] eqn:E; [|discriminate].
  apply lookup_lt_Some in E.
  destruct (py_getitem_in_range code m) as (x & Hx & _); [unfold len; lia|]. eauto.
Qed.

Lemma matching_with_comments_total aim matched code :
  Forall (fun m => matches_at aim code m = true) matched ->
  exists perfect,
    matching_with_comments aim matched code = Ok perfect /\
    Forall (fun m => In m matched) perfect.
Proof.
  induction matched as [|m rest IH]; intros H; simpl.
  - exists []. split; [reflexivity|constructor].
  - inversion H as [|? ? Hm Hrest]; subst.
    destruct (matches_at_getitem _ _ _ Hm) as (cl & ->).
    destruct (IH Hrest) as (perfect & -> & Hsub). cbv beta iota delta [rbind].
    assert (Hsub' : Forall (fun x => In x (m :: rest)) perfect).
    { eapply Forall_impl; [exact Hsub|]. simpl. auto. }
    destruct (String.eqb _ _); eexists; (split; [reflexivity|]); [|exact Hsub'].
    constructor; [left; reflexivity|exact Hsub'].
Qed.

(** Locating a patch line never raises. The result is NoCandidate,
    Ambiguous or the index of a source line that matches the patch line. *)
Lemma find_a_matched_line_outcome
    (pidx : Z) (pline : string) (code_lines patch_lines : list string)
    (lag : Z) (existing : bool) :
  exists i,
    _find_a_matched_line pidx pline code_lines patch_lines lag existing = Ok i /\
    (i = NoCandidate \/ i = Ambiguous \/ matches_at pline code_lines i = true).
Proof.
  unfold _find_a_matched_line.
  set (matched := if 0 <=? lag
                  then List.filter (fun m => lag <? m)
                         (matching_lines (Some pline) code_lines false)
                  else matching_lines (Some pline) code_lines false).
  assert (Hm : Forall (fun m => matches_at pline code_lines m = true) matched).
  { apply List.Forall_forall. intros m Hin. apply matching_lines_In.
    unfold matched in Hin. destruct (0 <=? lag); [|exact Hin].
    apply List.filter_In in Hin. tauto. }
  pose proof (unique_matching_outcome patch_lines code_lines pidx (Some pline) existing)
    as Hu. simpl in Hu.
  assert (Hgen : exists i,
    rbind (matching_with_comments pline matched code_lines)
      (fun perfect => match perfect with
                      | [m] => Ok m
                      | _ => unique_matching patch_lines code_lines pidx (Some pline) existing
                      end) = Ok i /\
    (i = NoCandidate \/ i = Ambiguous \/ matches_at pline code_lines i = true)).
  { destruct (matching_with_comments_total pline matched code_lines Hm)
      as (perfect & -> & Hsub). cbv beta iota delta [rbind].
    destruct perfect as [|p [|p' ps]]; try exact Hu.
    exists p. split; [reflexivity|]. right; right.
    inversion Hsub; subst. rewrite List.Forall_forall in Hm. auto. }
  destruct matched as [|m [|m' ms]]; try exact Hgen.
  exists m. split; [reflexivity|]. right; right. inversion Hm; subst. assumption.
Qed.

(* ===================================================================== *)
(** ** The neighbour search *)
(* ===================================================================== *)

Lemma search_loop_sound fuel lines existing (m : mode) :
  forall cur_idx degree i l,
    search_loop fuel lines existing (incre_of m) cur_idx degree = Some (Some (i, l)) ->
    lines !! Z.to_nat i = Some l /\ stops_at lines existing i = true /\
    match m with Pre => i <= cur_idx | Post => cur_idx <= i end.
Proof.
  induction fuel as [|fuel IH]; intros cur degree i l H; simpl in H; [discriminate|].
  destruct ((0 <=? cur) && (cur <? len lines)) eqn:Er; [|discriminate].
  apply andb_true_iff in Er as [E0 E1].
  destruct (lines !! Z.to_nat cur) as [line|] eqn:El; [|discriminate].
  assert (Hnext : forall d,
             search_loop fuel lines existing (incre_of m) (cur + incre_of m) d
             = Some (Some (i, l)) ->
             lines !! Z.to_nat i = Some l /\ stops_at lines existing i = true /\
             match m with Pre => i <= cur | Post => cur <= i end).
  { intros d Hd. apply IH in Hd as (H1 & H2 & H3). repeat split; try assumption.
    destruct m; simpl in H3; lia. }
  destruct (is_valid_line line 0 && exist_line line existing) eqn:Ev; [|eauto].
  destruct (degree - 1 =? 0); [|eauto].
  inversion H; subst. split; [exact El|]. split.
  - unfold stops_at. rewrite E0, El. exact Ev.
  - destruct m; lia.
Qed.

(** X12: a line the neighbour search returns is the line at the index it
    returns, strictly on the side asked for, valid, and found in
    [existing] when that is given. *)
Theorem search_valid_line_sound
    (lines : list string) (start_idx : Z) (m : mode) (degree : Z)
    (existing : option (list string)) :
  match search_valid_line lines start_idx m degree existing with
  | Some (i, l) =>
      lines !! Z.to_nat i = Some l /\ 0 <= i < len lines /\
      is_valid_line l 0 = true /\ exist_line l existing = true /\
      on_side m start_idx i
  | None => True
  end.
Proof.
  pose proof (search_valid_line_fuel lines start_idx m degree existing) as Hf.
  destruct (search_valid_line lines start_idx m degree existing) as [[i l]|]; [|exact I].
  apply search_loop_sound in Hf as (H1 & H2 & H3).
  unfold stops_at in H2. rewrite H1 in H2.
  apply andb_true_iff in H2 as [H0 H2]. apply andb_true_iff in H2 as [Hv He].
  apply Z.leb_le in H0. pose proof (lookup_lt_Some _ _ _ H1) as Hlt.
  repeat split; try assumption; try (unfold len; lia).
  unfold on_side. destruct m; simpl in H3; lia.
Qed.

Lemma stops_at_out_of_range lines existing j :
  ~ (0 <= j < len lines) -> stops_at lines existing j = false.
Proof.
  intros Hj. unfold stops_at. destruct (Z.leb_spec 0 j); [|reflexivity].
  simpl. destruct (lines !! Z.to_nat j) eqn:E; [|reflexivity].
  apply lookup_lt_Some in E. exfalso. apply Hj. unfold len. lia.
Qed.

Lemma search_loop_nearest fuel lines existing (m : mode) :
  forall cur_idx,
    (0 < fuel)%nat ->
    (0 <= cur_idx < len lines ->
     (match m with Pre => cur_idx + 1 | Post => len lines - cur_idx end) < Z.of_nat fuel) ->
    match m with Pre => cur_idx < len lines | Post => 0 <= cur_idx end ->
    match search_loop fuel lines existing (incre_of m) cur_idx 1 with
    | Some (Some (i, _)) =>
        forall j, match m with Pre => i < j <= cur_idx | Post => cur_idx <= j < i end ->
                  stops_at lines existing j = false
    | Some None =>
        forall j, match m with Pre => j <= cur_idx | Post => cur_idx <= j end ->
                  stops_at lines existing j = false
    | None => False
    end.
Proof.
  induction fuel as [|fuel IH]; intros cur Hpos Hfuel Hside; [lia|].
  cbn [search_loop].
  destruct ((0 <=? cur) && (cur <? len lines)) eqn:Er.
  - apply andb_true_iff in Er as [E0 E1]. apply Z.leb_le in E0. apply Z.ltb_lt in E1.
    destruct (lines !! Z.to_nat cur) as [line|] eqn:El.
    + destruct (is_valid_line line 0 && exist_line line existing) eqn:Ev.
      * simpl. intros j Hj. destruct m; lia.
      * assert (Hcur : stops_at lines existing cur = false).
        { unfold stops_at. rewrite El, Ev. apply andb_false_r. }
        specialize (IH (cur + incre_of m)).
        destruct (search_loop fuel lines existing (incre_of m) (cur + incre_of m) 1)
          as [[[i l]|]|].
        -- intros j Hj. destruct (Z.eq_dec j cur) as [->|Hne]; [exact Hcur|].
           apply IH; destruct m; simpl in *; lia.
        -- intros j Hj. destruct (Z.eq_dec j cur) as [->|Hne]; [exact Hcur|].
           apply IH; destruct m; simpl in *; lia.
        -- apply IH; destruct m; simpl in *; lia.
    + apply lookup_ge_None in El. unfold len in E1. lia.
  - intros j Hj. apply stops_at_out_of_range.
    apply andb_false_iff in Er as [Er|Er].
    + apply Z.leb_gt in Er. destruct m; lia.
    + apply Z.ltb_ge in Er. destruct m; lia.
Qed.

(** X13: with degree 1 the neighbour search returns the nearest line it
    can stop at: no such line lies between the start and the line
    returned, and when nothing is returned there is none on that side.
    The start is an index of the list, or one position outside it. *)
Theorem search_valid_line_nearest
    (lines : list string) (start_idx : Z) (m : mode) (existing : option (list string)) :
  -1 <= start_idx <= len lines ->
  match search_valid_line lines start_idx m 1 existing with
  | Some (i, _) =>
      forall j, strictly_between m start_idx i j -> stops_at lines existing j = false
  | None =>
      forall j, on_side m start_idx j -> stops_at lines existing j = false
  end.
Proof.
  intros Hstart.
  pose proof (search_valid_line_fuel lines start_idx m 1 existing) as Hf.
  pose proof (search_loop_nearest (S (length lines)) lines existing m
                (start_idx + incre_of m)) as Hn.
  rewrite Hf in Hn.
  assert (H : match search_valid_line lines start_idx m 1 existing with
              | Some (i, _) =>
                  forall j, match m with
                            | Pre => i < j <= start_idx + incre_of m
                            | Post => start_idx + incre_of m <= j < i
                            end -> stops_at lines existing j = false
              | None =>
                  forall j, match m with
                            | Pre => j <= start_idx + incre_of m
                            | Post => start_idx + incre_of m <= j
                            end -> stops_at lines existing j = false
              end).
  { apply Hn; [lia| |]; unfold len in *; destruct m; simpl; lia. }
  destruct (search_valid_line lines start_idx m 1 existing) as [[i l]|];
    intros j Hj; apply H; unfold strictly_between, on_side in Hj;
    destruct m; simpl; lia.
Qed.

Lemma search_valid_line_nearest_witness :
  -1 <= 1 <= len ["a;"; "+ b;"; EmptyString; "c;"] /\
  match search_valid_line ["a;"; "+ b;"; EmptyString; "c;"] 1 Post 1 None with
  | Some (i, _) =>
      forall j, strictly_between Post 1 i j ->
                stops_at ["a;"; "+ b;"; EmptyString; "c;"] None j = false
  | None =>
      forall j, on_side Post 1 j -> stops_at ["a;"; "+ b;"; EmptyString; "c;"] None j = false
  end.
Proof.
  split; [vm_compute; split; discriminate|].
  apply (search_valid_line_nearest ["a;"; "+ b;"; EmptyString; "c;"] 1 Post None).
  vm_compute. split; discriminate.
Defined.

Lemma search_loop_degree_nonpositive fuel lines existing incre :
  forall cur_idx degree r,
    degree <= 0 ->
    search_loop fuel lines existing incre cur_idx degree = Some r -> r = None.
Proof.
  induction fuel as [|fuel IH]; intros cur degree r Hd H; simpl in H; [discriminate|].
  destruct ((0 <=? cur) && (cur <? len lines)); [|congruence].
  destruct (lines !! Z.to_nat cur) as [line|]; [|congruence].
  destruct (is_valid_line line 0 && exist_line line existing).
  - destruct (Z.eqb_spec (degree - 1) 0); [lia|]. eapply IH; [|exact H]. lia.
  - eapply IH; [|exact H]. lia.
Qed.

(** X14: a degree of zero or less finds nothing: the count of lines still
    to pass is decremented before it is compared with zero. *)
Theorem search_valid_line_degree_nonpositive
    (lines : list string) (start_idx : Z) (m : mode) (degree : Z)
    (existing : option (list string)) :
  degree <= 0 ->
  search_valid_line lines start_idx m degree existing = None.
Proof.
  intros Hd. unfold search_valid_line.
  destruct (search_loop _ _ _ _ _ _) as [r|] eqn:E; [|reflexivity].
  eapply search_loop_degree_nonpositive; eassumption.
Qed.

Lemma search_valid_line_degree_nonpositive_witness :
  0 <= 0 /\ search_valid_line ["a;"; "b;"] 0 Post 0 None = None.
Proof.
  split; [lia|]. apply search_valid_line_degree_nonpositive. lia.
Defined.

(* ===================================================================== *)
(** ** More on the pre-pass *)
(* ===================================================================== *)

(** X15: the pre-pass never raises, whatever the source, and returns as
    many lines as it was given. *)
Theorem format_code_never_raises (raw_code_lines : list string) :
  exists code_lines,
    _format_code raw_code_lines = Ok code_lines /\
    length code_lines = length raw_code_lines.
Proof. apply format_code_total. Qed.

Lemma find_none_existsb {A} (f : A -> bool) (l : list A) :
  existsb f l = false -> List.find f l = None.
Proof.
  induction l as [|x l IH]; simpl; [reflexivity|].
  destruct (f x); [discriminate|exact IH].
Qed.

Lemma format_code_loop_settled rest :
  forall i out,
    settled rest = true ->
    i + len rest = len out ->
    format_code_loop i rest out = Ok out.
Proof.
  induction rest as [|line rest IH]; intros i out Hs Hlen; [reflexivity|].
  cbn [settled] in Hs. apply andb_true_iff in Hs as [Hs Hrest].
  apply andb_true_iff in Hs as [Hlone Hwrap]. apply negb_true_iff in Hlone.
  cbn [format_code_loop]. unfold format_code_step.
  unfold lone_modifier in Hlone. rewrite (find_none_existsb _ _ Hlone).
  assert (Hcond : (i <? len out - 1) && negb (PyStr.contains "class" line)
                  && negb (PyStr.startswith "*" (PyStr.strip line))
                  && (negb (PyStr.contains "//" line) && negb (PyStr.contains "/*" line))
                  && re_search ends_alnum_re line = false).
  { destruct rest as [|next rest].
    - replace (i <? len out - 1) with false; [reflexivity|].
      symmetry. apply Z.ltb_ge. unfold len in *. simpl in Hlen. lia.
    - simpl in Hwrap. apply negb_true_iff in Hwrap. unfold looks_wrapped in Hwrap.
      rewrite <- !andb_assoc. rewrite <- !andb_assoc in Hwrap. rewrite Hwrap.
      apply andb_false_r. }
  rewrite Hcond. cbv beta iota delta [rbind]. apply IH; [exact Hrest|].
  unfold len in *. simpl in Hlen. lia.
Qed.

(** X16: a source with nothing to repair (no line an access modifier
    alone, no line but the last looking cut off) passes the pre-pass
    unchanged. *)
Theorem format_code_settled (code_lines : list string) :
  settled code_lines = true -> _format_code code_lines = Ok code_lines.
Proof. intros H. apply format_code_loop_settled; [exact H|lia]. Qed.

Lemma format_code_settled_witness :
  settled ["int f() {"; "  return 1;"; "}"] = true /\
  _format_code ["int f() {"; "  return 1;"; "}"] = Ok ["int f() {"; "  return 1;"; "}"].
Proof.
  split; [vm_compute; reflexivity|].
  apply format_code_settled. vm_compute. reflexivity.
Defined.

(* ===================================================================== *)
(** ** More on the ways [patching] can end *)
(* ===================================================================== *)

Lemma completion_policy_witness :
  (_is_a_patch (_format_patch_lines deletion_patch) = true /\
   _format_code ["a;"; "b;"; "c;"] = Ok ["a;"; "b;"; "c;"] /\
   patching_loop ["a;"; "b;"; "c;"] (_format_patch_lines deletion_patch) 0
     (_format_patch_lines deletion_patch) (init_state ["a;"; "b;"; "c;"])
   = Ok (mkState [SStr "a;"; SStr EmptyString; SStr "c;"] [] 1 1 3)) /\
  (len (unpatched (mkState [SStr "a;"; SStr EmptyString; SStr "c;"] [] 1 1 3))
   = to_patch (mkState [SStr "a;"; SStr EmptyString; SStr "c;"] [] 1 1 3) ->
   patching deletion_patch ["a;"; "b;"; "c;"] = Raise NotPatchError) /\
  (len (unpatched (mkState [SStr "a;"; SStr EmptyString; SStr "c;"] [] 1 1 3))
   <> to_patch (mkState [SStr "a;"; SStr EmptyString; SStr "c;"] [] 1 1 3) ->
   patching deletion_patch ["a;"; "b;"; "c;"]
   = reconstruct (patched (mkState [SStr "a;"; SStr EmptyString; SStr "c;"] [] 1 1 3))).
Proof.
  assert (H1 : _is_a_patch (_format_patch_lines deletion_patch) = true)
    by (vm_compute; reflexivity).
  assert (H2 : _format_code ["a;"; "b;"; "c;"] = Ok ["a;"; "b;"; "c;"])
    by (vm_compute; reflexivity).
  assert (H3 : patching_loop ["a;"; "b;"; "c;"] (_format_patch_lines deletion_patch) 0
     (_format_patch_lines deletion_patch) (init_state ["a;"; "b;"; "c;"])
   = Ok (mkState [SStr "a;"; SStr EmptyString; SStr "c;"] [] 1 1 3))
    by (vm_compute; reflexivity).
  split; [repeat split; assumption|].
  exact (completion_policy deletion_patch _ _ _ H1 H2 H3).
Defined.

Lemma collect_texts (ss : list string) :
  collect (List.map SStr ss) = List.map SStr (List.filter nonempty ss).
Proof.
  induction ss as [|s ss IH]; simpl; [reflexivity|].
  unfold nonempty at 1. destruct (PyStr.is_empty s); simpl; rewrite IH; reflexivity.
Qed.

(** When every cell is a text, the rebuilt text is the non-empty
    cells joined by newlines and trimmed at both ends. *)
Lemma reconstruct_of_texts_aux (ss : list string) :
  reconstruct (List.map SStr ss)
  = Ok (PyStr.strip (PyStr.join nl (List.filter nonempty ss))).
Proof.
  unfold reconstruct. rewrite collect_texts, texts_SStr. reflexivity.
Qed.

Lemma is_text_cells (cells : list slot) :
  forallb is_text cells = true -> exists ss, cells = List.map SStr ss.
Proof.
  induction cells as [|p cells IH]; simpl; intros H; [exists []; reflexivity|].
  apply andb_true_iff in H as [Hp Hc]. destruct p as [s|l]; [|discriminate].
  destruct (IH Hc) as (ss & ->). exists (s :: ss). reflexivity.
Qed.

Lemma forallb_insert {A} (P : A -> bool) (l : list A) (n : nat) (v : A) :
  forallb P l = true -> P v = true -> forallb P (<[n := v]> l) = true.
Proof.
  revert n. induction l as [|x l IH]; intros n Hl Hv; [exact Hl|].
  simpl in Hl. apply andb_true_iff in Hl as [Hx Hl].
  destruct n; simpl; [rewrite Hv; exact Hl|rewrite Hx; simpl; auto].
Qed.

Lemma removed_step_safe code_lines patch_lines pidx pline st :
  0 <= pidx < len patch_lines ->
  removal_invariant code_lines pidx st ->
  exists st',
    removed_step code_lines patch_lines pidx pline st = Ok st' /\
    removal_invariant code_lines (pidx + 1) st'.
Proof.
  intros Hpidx (Htext & Hlen & Hrep & Hprev). unfold removed_step.
  assert (Hfind :
    exists st',
      rbind (_find_a_matched_line pidx (PyStr.lstrip (PyStr.tail pline)) code_lines
               patch_lines (replace_idx st) true)
        (fun match_idx =>
           if 0 <=? match_idx then
             rbind (py_setitem (patched st) match_idx (SStr EmptyString))
               (fun patched => Ok (mkState patched (unpatched st) (to_patch st + 1)
                                     match_idx pidx))
           else Ok (mkState (patched st) (unpatched st ++ [(pidx, pline)])
                      (to_patch st + 1) (replace_idx st) (prev_patch_idx st)))
      = Ok st' /\ removal_invariant code_lines (pidx + 1) st').
  { destruct (find_a_matched_line_outcome pidx (PyStr.lstrip (PyStr.tail pline)) code_lines
                patch_lines (replace_idx st) true) as (i & -> & Hi).
    cbv beta iota delta [rbind].
    destruct Hi as [->|[->|Hi]].
    - eexists. split; [reflexivity|]. repeat split; simpl; try assumption. lia.
    - eexists. split; [reflexivity|]. repeat split; simpl; try assumption. lia.
    - unfold matches_at in Hi. apply andb_true_iff in Hi as [H0 Hi].
      rewrite H0. apply Z.leb_le in H0.
      destruct (code_lines !! Z.to_nat i) eqn:E; [|discriminate].
      apply lookup_lt_Some in E.
      rewrite py_setitem_in_range by (unfold len; lia). cbv beta iota.
      eexists. split; [reflexivity|]. repeat split; simpl; try lia.
      + apply forallb_insert; [exact Htext|reflexivity].
      + rewrite length_insert. exact Hlen. }
  destruct (follows (prev_patch_idx st) pidx) eqn:Ef; [|exact Hfind].
  unfold follows in Ef. apply andb_true_iff in Ef as [Ef1 Ef2].
  apply Z.leb_le in Ef1. apply Z.eqb_eq in Ef2.
  destruct (py_getitem_in_range patch_lines (prev_patch_idx st)) as (prev & -> & _); [lia|].
  cbv beta iota delta [rbind].
  destruct (PyStr.startswith "-" prev); [|exact Hfind].
  destruct (Z.ltb_spec (replace_idx st + 1) (len (patched st))) as [Hlt|Hge].
  - rewrite py_setitem_in_range by lia. cbv beta iota.
    eexists. split; [reflexivity|]. repeat split; simpl; try lia.
    + apply forallb_insert; [exact Htext|reflexivity].
    + rewrite length_insert. exact Hlen.
  - eexists. split; [reflexivity|]. repeat split; simpl; try assumption; lia.
Qed.

Lemma removal_loop_safe code_lines patch_lines rest :
  forall pidx st,
    forallb (fun l => negb (re_search added_re l)) rest = true ->
    0 <= pidx -> pidx + len rest = len patch_lines ->
    removal_invariant code_lines pidx st ->
    exists st',
      patching_loop code_lines patch_lines pidx rest st = Ok st' /\
      forallb is_text (patched st') = true.
Proof.
  induction rest as [|pline rest IH]; intros pidx st Hno H0 Hlen Hinv.
  - exists st. split; [reflexivity|apply Hinv].
  - simpl in Hno. apply andb_true_iff in Hno as [Hp Hno]. apply negb_true_iff in Hp.
    unfold len in Hlen. simpl length in Hlen.
    assert (Hstep : exists st1,
               patching_step code_lines patch_lines pidx pline st = Ok st1 /\
               removal_invariant code_lines (pidx + 1) st1).
    { unfold patching_step. destruct (re_search removed_re pline).
      - apply removed_step_safe; [unfold len; lia|exact Hinv].
      - rewrite Hp. exists st. split; [reflexivity|].
        destruct Hinv as (?&?&?&?). repeat split; try assumption. lia. }
    destruct Hstep as (st1 & Hs & Hinv1). cbn [patching_loop]. rewrite Hs.
    cbv beta iota delta [rbind]. apply IH; try assumption; [lia|unfold len; lia].
Qed.

(** X20: a patch without added lines cannot run into an index or type
    error: [patching] returns a text, or raises Malformed Patch or No-Op
    Patch. *)
Theorem removal_only_patch_is_safe (patch : string) (raw_code_lines : list string) :
  forallb (fun l => negb (re_search added_re l)) (_format_patch_lines patch) = true ->
  (exists text, patching patch raw_code_lines = Ok text) \/
  patching patch raw_code_lines = Raise NoCodeError \/
  patching patch raw_code_lines = Raise NotPatchError.
Proof.
  intros Hno. unfold patching.
  destruct (_is_a_patch (_format_patch_lines patch)); simpl negb; cbv beta iota;
    [|right; left; reflexivity].
  destruct (format_code_total raw_code_lines) as (code & -> & _).
  cbv beta iota delta [rbind].
  destruct (removal_loop_safe code (_format_patch_lines patch) (_format_patch_lines patch)
              0 (init_state code) Hno) as (st & -> & Htext); [lia|lia| |].
  { repeat split; simpl; try lia.
    - induction code; simpl; auto.
    - apply length_map. }
  cbv beta iota.
  destruct (len (unpatched st) =? to_patch st); [right; right; reflexivity|].
  left. destruct (is_text_cells _ Htext) as (ss & ->).
  rewrite reconstruct_of_texts_aux. eauto.
Qed.

Lemma removal_only_patch_is_safe_witness :
  forallb (fun l => negb (re_search added_re l)) (_format_patch_lines deletion_patch) = true /\
  ((exists text, patching deletion_patch ["a;"; "b;"; "c;"] = Ok text) \/
   patching deletion_patch ["a;"; "b;"; "c;"] = Raise NoCodeError \/
   patching deletion_patch ["a;"; "b;"; "c;"] = Raise NotPatchError).
Proof.
  assert (H : forallb (fun l => negb (re_search added_re l))
                (_format_patch_lines deletion_patch) = true) by (vm_compute; reflexivity).
  split; [exact H|]. exact (removal_only_patch_is_safe deletion_patch _ H).
Defined.

(* ===================================================================== *)
(** ** One edit applied: removal, replacement, insertion *)
(* ===================================================================== *)

Lemma search_from_bol r pos s :
  (0 < pos)%nat -> search_from (RSeq RBol r) pos s = false.
Proof.
  revert pos. induction s as [|c s IH]; intros pos Hpos; cbn [search_from exec].
  - destruct pos; [lia|reflexivity].
  - destruct pos; [lia|]. cbn [Nat.eqb]. apply IH. lia.
Qed.

(** The signed-line patterns start with [^]: searching them is matching
    them at the start of the line. *)
Lemma re_search_signed sign s :
  re_search (signed_re sign) s = re_match (signed_re sign) s.
Proof.
  unfold re_search, re_match, signed_re. cbn [rseq].
  destruct s as [|c s]; cbn [search_from];
    match goal with |- context [exec ?r 0 ?t [] accept] =>
      destruct (exec r 0 t [] accept) end; try reflexivity.
  apply search_from_bol. lia.
Qed.

Lemma removed_line_shape pline :
  re_search removed_re pline = true -> PyStr.startswith "-" pline = true.
Proof.
  unfold removed_re. rewrite re_search_signed. intros H.
  apply signed_re_shape in H. destruct pline as [|c [|w s]]; try contradiction.
  apply andb_true_iff in H as [H _]. apply Ascii.eqb_eq in H. subst. reflexivity.
Qed.

Lemma added_line_not_removed pline :
  re_search added_re pline = true -> re_search removed_re pline = false.
Proof.
  unfold added_re, removed_re. rewrite !re_search_signed. intros H.
  apply signed_re_shape in H.
  destruct (re_match (signed_re (Ascii.eqb "-")) pline) eqn:E; [|reflexivity].
  apply signed_re_shape in E. destruct pline as [|c [|w s]]; try contradiction.
  apply andb_true_iff in H as [H _]. apply andb_true_iff in E as [E _].
  apply Ascii.eqb_eq in H, E. congruence.
Qed.

Lemma py_getitem_middle {A} (l1 l2 : list A) (x : A) :
  py_getitem (l1 ++ x :: l2) (len l1) = Ok x.
Proof.
  unfold py_getitem. rewrite py_pos_in_range.
  - unfold len. rewrite Nat2Z.id, list_lookup_middle by reflexivity. reflexivity.
  - unfold len. rewrite length_app. simpl. lia.
Qed.

(** What locating a line gives when exactly one source line matches it
    and nothing has been placed yet. *)
Lemma find_single_match pidx pline code_lines patch_lines existing i :
  matching_lines (Some pline) code_lines false = [i] ->
  _find_a_matched_line pidx pline code_lines patch_lines (-1) existing = Ok i /\
  0 <= i < len code_lines /\
  exists cl, code_lines !! Z.to_nat i = Some cl.
Proof.
  intros Hm. unfold _find_a_matched_line. rewrite Hm.
  change (0 <=? -1) with false. cbv iota. split; [reflexivity|].
  assert (Hin : matches_at pline code_lines i = true).
  { apply matching_lines_In. rewrite Hm. left. reflexivity. }
  unfold matches_at in Hin. apply andb_true_iff in Hin as [H0 Hin].
  apply Z.leb_le in H0.
  destruct (code_lines !! Z.to_nat i) as [cl|] eqn:E; [|discriminate].
  pose proof (lookup_lt_Some _ _ _ E). split; [unfold len; lia|eauto].
Qed.

(** X21: a removal: when the only signed line of a valid patch removes a line
    that matches exactly one line of the pre-passed source, the text is
    rebuilt from the source with that line's cell emptied. *)
Lemma single_removal (patch : string) (raw_code_lines code_lines pre post : list string)
    (pline : string) (i : Z) :
  _is_a_patch (_format_patch_lines patch) = true ->
  _format_patch_lines patch = (pre ++ pline :: post)%list ->
  forallb unsigned pre = true ->
  forallb unsigned post = true ->
  re_search removed_re pline = true ->
  _format_code raw_code_lines = Ok code_lines ->
  matching_lines (Some (PyStr.lstrip (PyStr.tail pline))) code_lines false = [i] ->
  patching patch raw_code_lines
  = reconstruct (<[Z.to_nat i := SStr EmptyString]> (List.map SStr code_lines)).
Proof.
  intros Hvalid Hpl Hpre Hpost Hrem Hcode Hm.
  unfold patching. rewrite Hvalid, Hcode. simpl negb. cbv beta iota delta [rbind].
  rewrite Hpl. rewrite patching_loop_app, patching_loop_unsigned by exact Hpre.
  cbv beta iota delta [rbind]. cbn [patching_loop].
  destruct (find_single_match (0 + len pre) _ code_lines (pre ++ pline :: post) true i Hm)
    as (Hfind & Hrange & _).
  unfold patching_step at 1. rewrite Hrem. unfold removed_step.
  cbn [init_state prev_patch_idx replace_idx patched unpatched to_patch].
  unfold follows. change (0 <=? -1) with false. cbv beta iota delta [andb rbind].
  rewrite Hfind. cbv beta iota.
  replace (0 <=? i) with true by (symmetry; apply Z.leb_le; lia).
  rewrite py_setitem_in_range by (rewrite len_map; exact Hrange).
  cbv beta iota. rewrite patching_loop_unsigned by exact Hpost.
  cbv beta iota. cbn [unpatched to_patch patched]. reflexivity.
Qed.

(** X22: a replacement: a removed line followed at once by an added line puts
    the added text in the cell of the line removed. *)
Lemma single_replacement (patch : string) (raw_code_lines code_lines pre post : list string)
    (minus plus : string) (i : Z) :
  _is_a_patch (_format_patch_lines patch) = true ->
  _format_patch_lines patch = (pre ++ minus :: plus :: post)%list ->
  forallb unsigned pre = true ->
  forallb unsigned post = true ->
  re_search removed_re minus = true ->
  re_search added_re plus = true ->
  _format_code raw_code_lines = Ok code_lines ->
  matching_lines (Some (PyStr.lstrip (PyStr.tail minus))) code_lines false = [i] ->
  patching patch raw_code_lines
  = reconstruct (<[Z.to_nat i := SStr (added_text plus)]> (List.map SStr code_lines)).
Proof.
  intros Hvalid Hpl Hpre Hpost Hrem Hadd Hcode Hm.
  unfold patching. rewrite Hvalid, Hcode. simpl negb. cbv beta iota delta [rbind].
  rewrite Hpl. rewrite patching_loop_app, patching_loop_unsigned by exact Hpre.
  cbv beta iota delta [rbind]. cbn [patching_loop].
  destruct (find_single_match (0 + len pre) _ code_lines
              (pre ++ minus :: plus :: post) true i Hm) as (Hfind & Hrange & _).
  unfold patching_step at 1. rewrite Hrem. unfold removed_step.
  cbn [init_state prev_patch_idx replace_idx patched unpatched to_patch].
  unfold follows at 1. change (0 <=? -1) with false. cbv beta iota delta [andb rbind].
  rewrite Hfind. cbv beta iota.
  replace (0 <=? i) with true by (symmetry; apply Z.leb_le; lia).
  rewrite py_setitem_in_range by (rewrite len_map; exact Hrange).
  cbv beta iota.
  unfold patching_step at 1. rewrite (added_line_not_removed plus Hadd), Hadd.
  cbn [prev_patch_idx replace_idx patched unpatched to_patch].
  assert (Hf : follows (0 + len pre) (0 + len pre + 1) = true).
  { unfold follows. apply andb_true_iff. split; [apply Z.leb_le; unfold len; lia|].
    apply Z.eqb_refl. }
  rewrite Hf. unfold added_run_step.
  cbn [prev_patch_idx replace_idx patched unpatched to_patch].
  rewrite Z.add_0_l, py_getitem_middle. cbv beta iota delta [rbind].
  rewrite (removed_line_shape minus Hrem).
  rewrite py_setitem_in_range
    by (unfold len in *; rewrite length_insert, length_map; exact Hrange).
  cbv beta iota. rewrite list_insert_insert_eq.
  rewrite patching_loop_unsigned by exact Hpost.
  cbv beta iota. cbn [unpatched to_patch patched]. reflexivity.
Qed.

(** X23: an insertion: a standalone added line whose nearest valid line before
    it in the patch matches exactly one source line is attached after
    that line, in the same cell. *)
Lemma single_insertion (patch : string) (raw_code_lines code_lines pre post : list string)
    (plus anchor cl : string) (k i : Z) :
  _is_a_patch (_format_patch_lines patch) = true ->
  _format_patch_lines patch = (pre ++ plus :: post)%list ->
  forallb unsigned pre = true ->
  forallb unsigned post = true ->
  re_search added_re plus = true ->
  _format_code raw_code_lines = Ok code_lines ->
  search_valid_line (pre ++ plus :: post) (len pre) Pre 1 None = Some (k, anchor) ->
  matching_lines (Some anchor) code_lines false = [i] ->
  code_lines !! Z.to_nat i = Some cl ->
  patching patch raw_code_lines
  = reconstruct (<[Z.to_nat i := SStr (cl ++ nl ++ added_text plus)]>
                   (List.map SStr code_lines)).
Proof.
  intros Hvalid Hpl Hpre Hpost Hadd Hcode Hanchor Hm Hcl.
  unfold patching. rewrite Hvalid, Hcode. simpl negb. cbv beta iota delta [rbind].
  rewrite Hpl. rewrite patching_loop_app, patching_loop_unsigned by exact Hpre.
  cbv beta iota delta [rbind]. cbn [patching_loop].
  destruct (find_single_match k anchor code_lines (pre ++ plus :: post) false i Hm)
    as (Hfind & Hrange & _).
  unfold patching_step at 1. rewrite (added_line_not_removed plus Hadd), Hadd.
  cbn [init_state prev_patch_idx replace_idx patched unpatched to_patch].
  unfold follows. change (0 <=? -1) with false. cbv beta iota delta [andb].
  unfold added_alone_step.
  cbn [init_state prev_patch_idx replace_idx patched unpatched to_patch].
  rewrite Z.add_0_l, Hanchor, Hfind. cbv beta iota delta [rbind].
  replace (0 <=? i) with true by (symmetry; apply Z.leb_le; lia).
  assert (Hget : py_getitem (List.map SStr code_lines) i = Ok (SStr cl)).
  { rewrite py_getitem_map. unfold py_getitem.
    rewrite py_pos_in_range by exact Hrange. rewrite Hcl. reflexivity. }
  rewrite Hget. cbv beta iota.
  rewrite py_setitem_in_range by (rewrite len_map; exact Hrange).
  cbv beta iota. cbn [slot_iadd].
  rewrite patching_loop_unsigned by exact Hpost.
  cbv beta iota. cbn [unpatched to_patch patched]. reflexivity.
Qed.

Lemma single_removal_witness :
  (_is_a_patch (_format_patch_lines deletion_patch) = true /\
   _format_patch_lines deletion_patch
   = (["@@ -1,3 +1,2 @@"; EmptyString; " a;"] ++ "- b;" :: [" c;"])%list /\
   forallb unsigned ["@@ -1,3 +1,2 @@"; EmptyString; " a;"] = true /\
   forallb unsigned [" c;"] = true /\
   re_search removed_re "- b;" = true /\
   _format_code ["a;"; "b;"; "c;"] = Ok ["a;"; "b;"; "c;"] /\
   matching_lines (Some (PyStr.lstrip (PyStr.tail "- b;"))) ["a;"; "b;"; "c;"] false = [1]) /\
  patching deletion_patch ["a;"; "b;"; "c;"]
  = reconstruct (<[Z.to_nat 1 := SStr EmptyString]> (List.map SStr ["a;"; "b;"; "c;"])).
Proof.
  assert (H1 : _is_a_patch (_format_patch_lines deletion_patch) = true)
    by (vm_compute; reflexivity).
  assert (H2 : _format_patch_lines deletion_patch
               = (["@@ -1,3 +1,2 @@"; EmptyString; " a;"] ++ "- b;" :: [" c;"])%list)
    by (vm_compute; reflexivity).
  assert (H3 : forallb unsigned ["@@ -1,3 +1,2 @@"; EmptyString; " a;"] = true)
    by (vm_compute; reflexivity).
  assert (H4 : forallb unsigned [" c;"] = true) by (vm_compute; reflexivity).
  assert (H5 : re_search removed_re "- b;" = true) by (vm_compute; reflexivity).
  assert (H6 : _format_code ["a;"; "b;"; "c;"] = Ok ["a;"; "b;"; "c;"])
    by (vm_compute; reflexivity).
  assert (H7 : matching_lines (Some (PyStr.lstrip (PyStr.tail "- b;")))
                 ["a;"; "b;"; "c;"] false = [1]) by (vm_compute; reflexivity).
  split; [repeat split; assumption|].
  exact (single_removal deletion_patch _ _ _ _ _ _ H1 H2 H3 H4 H5 H6 H7).
Defined.

Lemma single_replacement_witness :
  (_is_a_patch (_format_patch_lines replace_patch) = true /\
   _format_patch_lines replace_patch
   = (["@@ -1,3 +1,3 @@"; EmptyString; " a;"] ++ "- b;" :: "+ B;" :: [" c;"])%list /\
   forallb unsigned ["@@ -1,3 +1,3 @@"; EmptyString; " a;"] = true /\
   forallb unsigned [" c;"] = true /\
   re_search removed_re "- b;" = true /\
   re_search added_re "+ B;" = true /\
   _format_code ["a;"; "b;"; "c;"] = Ok ["a;"; "b;"; "c;"] /\
   matching_lines (Some (PyStr.lstrip (PyStr.tail "- b;"))) ["a;"; "b;"; "c;"] false = [1]) /\
  patching replace_patch ["a;"; "b;"; "c;"]
  = reconstruct (<[Z.to_nat 1 := SStr (added_text "+ B;")]>
                   (List.map SStr ["a;"; "b;"; "c;"])).
Proof.
  assert (H1 : _is_a_patch (_format_patch_lines replace_patch) = true)
    by (vm_compute; reflexivity).
  assert (H2 : _format_patch_lines replace_patch
               = (["@@ -1,3 +1,3 @@"; EmptyString; " a;"] ++ "- b;" :: "+ B;" :: [" c;"])%list)
    by (vm_compute; reflexivity).
  assert (H3 : forallb unsigned ["@@ -1,3 +1,3 @@"; EmptyString; " a;"] = true)
    by (vm_compute; reflexivity).
  assert (H4 : forallb unsigned [" c;"] = true) by (vm_compute; reflexivity).
  assert (H5 : re_search removed_re "- b;" = true) by (vm_compute; reflexivity).
  assert (H5' : re_search added_re "+ B;" = true) by (vm_compute; reflexivity).
  assert (H6 : _format_code ["a;"; "b;"; "c;"] = Ok ["a;"; "b;"; "c;"])
    by (vm_compute; reflexivity).
  assert (H7 : matching_lines (Some (PyStr.lstrip (PyStr.tail "- b;")))
                 ["a;"; "b;"; "c;"] false = [1]) by (vm_compute; reflexivity).
  split; [repeat split; assumption|].
  exact (single_replacement replace_patch _ _ _ _ _ _ _ H1 H2 H3 H4 H5 H5' H6 H7).
Defined.

Lemma single_insertion_witness :
  (_is_a_patch (_format_patch_lines insert_patch) = true /\
   _format_patch_lines insert_patch
   = (["@@ -1,2 +1,3 @@"; EmptyString; " a;"] ++ "+ b;" :: [" c;"])%list /\
   forallb unsigned ["@@ -1,2 +1,3 @@"; EmptyString; " a;"] = true /\
   forallb unsigned [" c;"] = true /\
   re_search added_re "+ b;" = true /\
   _format_code ["a;"; "c;"] = Ok ["a;"; "c;"] /\
   search_valid_line (["@@ -1,2 +1,3 @@"; EmptyString; " a;"] ++ "+ b;" :: [" c;"])
     (len ["@@ -1,2 +1,3 @@"; EmptyString; " a;"]) Pre 1 None = Some (2, " a;") /\
   matching_lines (Some " a;") ["a;"; "c;"] false = [0] /\
   ["a;"; "c;"] !! Z.to_nat 0 = Some "a;") /\
  patching insert_patch ["a;"; "c;"]
  = reconstruct (<[Z.to_nat 0 := SStr ("a;" ++ nl ++ added_text "+ b;")]>
                   (List.map SStr ["a;"; "c;"])).
Proof.
  assert (H1 : _is_a_patch (_format_patch_lines insert_patch) = true)
    by (vm_compute; reflexivity).
  assert (H2 : _format_patch_lines insert_patch
               = (["@@ -1,2 +1,3 @@"; EmptyString; " a;"] ++ "+ b;" :: [" c;"])%list)
    by (vm_compute; reflexivity).
  assert (H3 : forallb unsigned ["@@ -1,2 +1,3 @@"; EmptyString; " a;"] = true)
    by (vm_compute; reflexivity).
  assert (H4 : forallb unsigned [" c;"] = true) by (vm_compute; reflexivity).
  assert (H5 : re_search added_re "+ b;" = true) by (vm_compute; reflexivity).
  assert (H6 : _format_code ["a;"; "c;"] = Ok ["a;"; "c;"]) by (vm_compute; reflexivity).
  assert (H7 : search_valid_line
                 (["@@ -1,2 +1,3 @@"; EmptyString; " a;"] ++ "+ b;" :: [" c;"])
                 (len ["@@ -1,2 +1,3 @@"; EmptyString; " a;"]) Pre 1 None
               = Some (2, " a;")) by (vm_compute; reflexivity).
  assert (H8 : matching_lines (Some " a;") ["a;"; "c;"] false = [0])
    by (vm_compute; reflexivity).
  assert (H9 : ["a;"; "c;"] !! Z.to_nat 0 = Some "a;") by reflexivity.
  split; [repeat split; assumption|].
  exact (single_insertion insert_patch _ _ _ _ _ _ _ _ _ H1 H2 H3 H4 H5 H6 H7 H8 H9).
Defined.

(* ===================================================================== *)
(** ** More on the patch lines *)
(* ===================================================================== *)

(** No patch line holds a line-boundary character: the lines are those
    of [splitlines]. *)
Theorem format_patch_lines_no_linebreak (patch : string) :
  forallb no_linebreak (_format_patch_lines patch) = true.
Proof. unfold _format_patch_lines. apply splitlines_no_linebreak. Qed.

Lemma hunk_split_needs_marker pos s :
  String.prefix "@@" s = false -> exec hunk_split_re pos s [] accept = None.
Proof.
  intros H. unfold hunk_split_re, RLit. cbn [rseq exec].
  destruct s as [|c [|d s]]; [reflexivity| |].
  - destruct (Ascii.eqb "@" c); reflexivity.
  - cbn [String.prefix] in H.
    destruct (ascii_dec "@" c) as [<-|Hc].
    + destruct (ascii_dec "@" d) as [<-|Hd]; [destruct s; discriminate|].
      rewrite Ascii.eqb_refl. apply Ascii.eqb_neq in Hd. rewrite Hd. reflexivity.
    + apply Ascii.eqb_neq in Hc. rewrite Hc. reflexivity.
Qed.

Lemma sub_from_no_marker repl s :
  forall pos, PyStr.contains "@@" s = false -> sub_from hunk_split_re repl pos 0 s = s.
Proof.
  induction s as [|c s IH]; intros pos H; cbn [sub_from].
  - rewrite hunk_split_needs_marker; reflexivity.
  - cbn [PyStr.contains] in H. apply orb_false_iff in H as [Hp Hs].
    rewrite hunk_split_needs_marker by exact Hp. rewrite IH by exact Hs. reflexivity.
Qed.

(** X24: a text without [@@] is only split into its lines. *)
Theorem format_patch_lines_plain (patch : string) :
  PyStr.contains "@@" patch = false ->
  _format_patch_lines patch = PyStr.splitlines patch.
Proof.
  intros H. unfold _format_patch_lines, re_sub. rewrite sub_from_no_marker by exact H.
  reflexivity.
Qed.

Lemma format_patch_lines_plain_witness :
  PyStr.contains "@@" (lines ["- a;"; "+ b;"]) = false /\
  _format_patch_lines (lines ["- a;"; "+ b;"]) = PyStr.splitlines (lines ["- a;"; "+ b;"]).
Proof.
  split; [vm_compute; reflexivity|].
  apply format_patch_lines_plain. vm_compute. reflexivity.
Defined.

(* ===================================================================== *)
(** ** The pre-pass on the store *)
(* ===================================================================== *)

(** X25: the pre-pass works on a copy: it returns a reference to a new list
    object that holds what [_format_code] computes, and every list that
    existed before, the argument among them, is unchanged. *)
Theorem format_code_works_on_a_copy (h : gmap nat (list slot)) (raw : nat)
    (src : list string) :
  h !! raw = Some (List.map SStr src) ->
  exists code out h',
    _format_code src = Ok code /\
    Store._format_code_m raw h = (Ok out, h') /\
    h !! out = None /\
    h' !! out = Some (List.map SStr code) /\
    (forall l xs, h !! l = Some xs -> h' !! l = Some xs).
Proof.
  intros Hraw.
  destruct (format_code_m_run h raw src Hraw) as (code & out & h' & H1 & H2 & H3 & H4 & H5).
  exists code, out, h'. repeat split; try assumption.
  intros l xs Hl. eapply lookup_weaken; eassumption.
Qed.

Lemma format_code_works_on_a_copy_witness :
  ({[ 0%nat := List.map SStr ["a"; "b;"] ]} : gmap nat (list slot)) !! 0%nat
  = Some (List.map SStr ["a"; "b;"]) /\
  exists code out h',
    _format_code ["a"; "b;"] = Ok code /\
    Store._format_code_m 0%nat {[ 0%nat := List.map SStr ["a"; "b;"] ]} = (Ok out, h') /\
    ({[ 0%nat := List.map SStr ["a"; "b;"] ]} : gmap nat (list slot)) !! out = None /\
    h' !! out = Some (List.map SStr code) /\
    (forall l xs,
        ({[ 0%nat := List.map SStr ["a"; "b;"] ]} : gmap nat (list slot)) !! l = Some xs ->
        h' !! l = Some xs).
Proof.
  split; [reflexivity|].
  apply (format_code_works_on_a_copy _ 0%nat ["a"; "b;"]). reflexivity.
Defined.

(* ===================================================================== *)
(** ** Facts used above, stated for themselves *)
(* ===================================================================== *)

(** X2: the line match does not depend on the order of its two lines. *)
Theorem two_lines_match_sym (line1 line2 : string) :
  two_lines_match line1 line2 = two_lines_match line2 line1.
Proof. apply two_lines_match_swap. Qed.

(** X6: the exact matcher returns the indices of the source lines that match
    the target, all of them and nothing else. *)
Theorem matching_lines_complete (aim : string) (code_lines : list string) (i : Z) :
  In i (matching_lines (Some aim) code_lines false) <-> matches_at aim code_lines i = true.
Proof. apply matching_lines_In. Qed.

(** X9: neighbour disambiguation returns at most one index, and an index it
    returns is one of the candidates it was given. *)
Theorem matching_neighbor_picks_a_candidate
    (aim_codes : list string) (aim_idx : Z) (raw_codes : list string)
    (matched : list Z) (existing : bool) (degree_limit : Z) :
  (length (matching_neighbor aim_codes aim_idx raw_codes matched existing degree_limit)
   <= 1)%nat /\
  Forall (fun i => In i matched)
    (matching_neighbor aim_codes aim_idx raw_codes matched existing degree_limit).
Proof. apply matching_neighbor_sub. Qed.

(** X10: what the resolver returns. When the target line exists, the result is
    NoCandidate, Ambiguous or the index of a source line that matches the
    target; when the fragment index is out of range (and no explicit line
    is given) the call raises IndexError. *)
Theorem unique_matching_result
    (resp_lines code_lines : list string) (resp_cur_idx : Z)
    (resp_cur_line : option string) (existing : bool) :
  match target_line resp_lines resp_cur_idx resp_cur_line with
  | Ok target =>
      exists i,
        unique_matching resp_lines code_lines resp_cur_idx resp_cur_line existing = Ok i /\
        (i = NoCandidate \/ i = Ambiguous \/ matches_at target code_lines i = true)
  | Raise _ =>
      unique_matching resp_lines code_lines resp_cur_idx resp_cur_line existing
      = Raise IndexError
  end.
Proof. apply unique_matching_outcome. Qed.

(** X11: locating a patch line never raises. The result is NoCandidate,
    Ambiguous or the index of a source line that matches the patch line. *)
Theorem find_a_matched_line_result
    (pidx : Z) (pline : string) (code_lines patch_lines : list string)
    (lag : Z) (existing : bool) :
  exists i,
    _find_a_matched_line pidx pline code_lines patch_lines lag existing = Ok i /\
    (i = NoCandidate \/ i = Ambiguous \/ matches_at pline code_lines i = true).
Proof. apply find_a_matched_line_outcome. Qed.

(** X19: when every cell is a text, the rebuilt text is the non-empty cells
    joined by newlines and trimmed at both ends. *)
Theorem reconstruct_of_texts (ss : list string) :
  reconstruct (List.map SStr ss)
  = Ok (PyStr.strip (PyStr.join nl (List.filter nonempty ss))).
Proof. apply reconstruct_of_texts_aux. Qed.


(* ===================================================================== *)
(** ** Texts: prefixes, occurrences and trimming *)
(* ===================================================================== *)

Lemma prefix_trans a : forall b c,
  String.prefix a b = true -> String.prefix b c = true -> String.prefix a c = true.
Proof.
  induction a as [|x a IH]; intros b c Hab Hbc; [destruct c; reflexivity|].
  destruct b as [|y b]; [discriminate|]. destruct c as [|z c]; [discriminate|].
  cbn [String.prefix] in *.
  destruct (ascii_dec x y) as [->|]; [|discriminate].
  destruct (ascii_dec y z) as [->|]; [|discriminate].
  destruct (ascii_dec z z); [|congruence]. eapply IH; eassumption.
Qed.

Lemma prefix_cons c a s : String.prefix (String c a) (String c s) = String.prefix a s.
Proof. cbn [String.prefix]. destruct (ascii_dec c c); [reflexivity|congruence]. Qed.

Lemma prefix_empty p : String.prefix p EmptyString = true -> p = EmptyString.
Proof. destruct p; [reflexivity|discriminate]. Qed.

Lemma contains_prefix p a : forall s,
  PyStr.contains p a = true -> String.prefix a s = true -> PyStr.contains p s = true.
Proof.
  induction a as [|x a IH]; intros s Hc Hp.
  - cbn [PyStr.contains] in Hc. rewrite orb_false_r in Hc.
    apply prefix_empty in Hc. subst p. destruct s; reflexivity.
  - destruct s as [|y s]; [discriminate|].
    cbn [String.prefix] in Hp. destruct (ascii_dec x y) as [->|]; [|discriminate].
    cbn [PyStr.contains] in Hc |- *. apply orb_true_iff in Hc as [Hc|Hc].
    + apply orb_true_iff. left. eapply prefix_trans; [exact Hc|].
      rewrite prefix_cons. exact Hp.
    + apply orb_true_iff. right. apply IH; assumption.
Qed.

Lemma rstrip_prefix s : String.prefix (PyStr.rstrip s) s = true.
Proof.
  induction s as [|c s IH]; [reflexivity|]. cbn [PyStr.rstrip].
  destruct (PyStr.is_empty (PyStr.rstrip s) && PyStr.isspace c); [reflexivity|].
  rewrite prefix_cons. exact IH.
Qed.

Lemma contains_lstrip p s :
  PyStr.contains p (PyStr.lstrip s) = true -> PyStr.contains p s = true.
Proof.
  induction s as [|c s IH]; intros H; [exact H|]. cbn [PyStr.lstrip] in H.
  destruct (PyStr.isspace c); [|exact H].
  cbn [PyStr.contains]. rewrite (IH H). apply orb_true_r.
Qed.

(** Trimming a text brings no occurrence of [p] into it. *)
Lemma contains_strip p s :
  PyStr.contains p s = false -> PyStr.contains p (PyStr.strip s) = false.
Proof.
  intros H. destruct (PyStr.contains p (PyStr.strip s)) eqn:E; [|reflexivity].
  unfold PyStr.strip in E. apply contains_lstrip in E.
  rewrite (contains_prefix _ _ _ E (rstrip_prefix s)) in H. discriminate.
Qed.

Lemma split_head_prefix sep s : String.prefix (PyStr.split_head sep s) s = true.
Proof.
  induction s as [|c s IH]; cbn [PyStr.split_head].
  - destruct (String.prefix sep EmptyString); reflexivity.
  - destruct (String.prefix sep (String c s)); [reflexivity|].
    rewrite prefix_cons. exact IH.
Qed.

Lemma split_head_lacks sep s :
  sep <> EmptyString -> PyStr.contains sep (PyStr.split_head sep s) = false.
Proof.
  intros Hsep.
  assert (He : PyStr.contains sep EmptyString = false).
  { cbn [PyStr.contains]. rewrite orb_false_r.
    destruct sep; [congruence|reflexivity]. }
  induction s as [|c s IH]; cbn [PyStr.split_head].
  - destruct (String.prefix sep EmptyString); exact He.
  - destruct (String.prefix sep (String c s)) eqn:Ep; [exact He|].
    cbn [PyStr.contains]. rewrite IH, orb_false_r.
    destruct (String.prefix sep (String c (PyStr.split_head sep s))) eqn:E; [|reflexivity].
    rewrite <- Ep. symmetry. eapply prefix_trans; [exact E|].
    rewrite prefix_cons. apply split_head_prefix.
Qed.

(** The slice up to the first occurrence is the text before it. *)
Lemma slice_to_find sub s :
  PyStr.contains sub s = true ->
  str_slice_to s (str_find sub s) = PyStr.split_head sub s.
Proof.
  intros H.
  assert (G : 0 <= str_find sub s /\
              String.substring 0 (Z.to_nat (str_find sub s)) s = PyStr.split_head sub s).
  { induction s as [|c s IH]; cbn [str_find PyStr.split_head PyStr.contains] in *.
    - rewrite orb_false_r in H. rewrite H. split; [lia|reflexivity].
    - destruct (String.prefix sub (String c s)) eqn:Ep.
      + split; [lia|reflexivity].
      + cbn [orb] in H. destruct (IH H) as [Hi Hs].
        destruct (str_find sub s <? 0) eqn:El; [apply Z.ltb_lt in El; lia|].
        split; [lia|].
        replace (Z.to_nat (str_find sub s + 1)) with (S (Z.to_nat (str_find sub s))) by lia.
        cbn [String.substring]. rewrite Hs. reflexivity. }
  destruct G as [Hi Hs]. unfold str_slice_to.
  destruct (str_find sub s <? 0) eqn:El; [apply Z.ltb_lt in El; lia|]. exact Hs.
Qed.

Lemma lstrip_idem s : PyStr.lstrip (PyStr.lstrip s) = PyStr.lstrip s.
Proof.
  induction s as [|c s IH]; [reflexivity|]. cbn [PyStr.lstrip].
  destruct (PyStr.isspace c) eqn:E; [exact IH|]. cbn [PyStr.lstrip]. rewrite E. reflexivity.
Qed.

Lemma rstrip_idem s : PyStr.rstrip (PyStr.rstrip s) = PyStr.rstrip s.
Proof.
  induction s as [|c s IH]; [reflexivity|]. cbn [PyStr.rstrip].
  destruct (PyStr.is_empty (PyStr.rstrip s) && PyStr.isspace c) eqn:E; [reflexivity|].
  cbn [PyStr.rstrip]. rewrite IH, E. reflexivity.
Qed.

Lemma rstrip_lstrip s : PyStr.rstrip (PyStr.lstrip s) = PyStr.lstrip (PyStr.rstrip s).
Proof.
  induction s as [|c s IH]; [reflexivity|]. cbn [PyStr.lstrip PyStr.rstrip].
  destruct (PyStr.isspace c) eqn:E.
  - rewrite IH, andb_true_r. destruct (PyStr.rstrip s) eqn:Er; cbn [PyStr.is_empty].
    + reflexivity.
    + cbn [PyStr.lstrip]. rewrite E. reflexivity.
  - rewrite andb_false_r. cbn [PyStr.lstrip PyStr.rstrip]. rewrite E, andb_false_r.
    reflexivity.
Qed.

(** A trimmed text is not changed by trimming it again. *)
Lemma strip_idem s : PyStr.strip (PyStr.strip s) = PyStr.strip s.
Proof.
  unfold PyStr.strip. rewrite rstrip_lstrip, rstrip_idem. apply lstrip_idem.
Qed.

(* ===================================================================== *)
(** ** The patterns of [parse_code] and [parse_exp] *)
(* ===================================================================== *)

Lemma str_length_app a b :
  String.length (a ++ b) = (String.length a + String.length b)%nat.
Proof. induction a as [|c a IH]; [reflexivity|]. simpl. rewrite IH. reflexivity. Qed.

Lemma str_app_nil s : (EmptyString ++ s)%string = s.
Proof. reflexivity. Qed.

Lemma str_app_cons c a s : (String c a ++ s)%string = String c (a ++ s).
Proof. reflexivity. Qed.

Lemma substring_head b c : String.substring 0 (String.length b) (b ++ c) = b.
Proof.
  induction b as [|y b IHb]; simpl.
  - destruct c; reflexivity.
  - rewrite IHb. reflexivity.
Qed.

Lemma substring_middle a b c :
  String.substring (String.length a) (String.length b) (a ++ b ++ c) = b.
Proof.
  induction a as [|x a IH].
  - exact (substring_head b c).
  - exact IH.
Qed.

Lemma lacks_cons q c s :
  PyStr.contains (String q EmptyString) (String c s) = false ->
  Ascii.eqb q c = false /\ PyStr.contains (String q EmptyString) s = false.
Proof.
  cbn [PyStr.contains String.prefix]. intros H. apply orb_false_iff in H as [H1 H2].
  split; [|exact H2]. destruct (ascii_dec q c) as [->|n].
  - destruct s; discriminate.
  - apply Ascii.eqb_neq. exact n.
Qed.

Lemma lacks_head q t s :
  PyStr.contains (String q EmptyString) s = false -> String.prefix (String q t) s = false.
Proof.
  destruct s as [|c s]; [reflexivity|]. intros H. apply lacks_cons in H as [H _].
  cbn [String.prefix]. destruct (ascii_dec q c) as [->|]; [|reflexivity].
  rewrite Ascii.eqb_refl in H. discriminate.
Qed.

Lemma exec_lit_none c pos s g k :
  String.prefix (String c EmptyString) s = false -> Re.exec (RLit c) pos s g k = None.
Proof.
  unfold RLit. destruct s as [|d s]; [reflexivity|]. cbn [Re.exec String.prefix].
  destruct (ascii_dec c d) as [->|n]; [destruct s; discriminate|].
  apply Ascii.eqb_neq in n. rewrite n. reflexivity.
Qed.

Lemma lit3_none c pos s g k :
  String.prefix (String c (String c (String c EmptyString))) s = false ->
  Rx.exec (Rx.lit3 c) pos s g k = None.
Proof.
  unfold Rx.lit3, RLit. cbn [rseq Rx.exec Re.exec]. intros H.
  destruct s as [|x s]; [reflexivity|].
  destruct (Ascii.eqb c x) eqn:Ex; [|reflexivity]. apply Ascii.eqb_eq in Ex. subst x.
  destruct s as [|y s]; [reflexivity|].
  destruct (Ascii.eqb c y) eqn:Ey; [|reflexivity]. apply Ascii.eqb_eq in Ey. subst y.
  destruct s as [|z s]; [reflexivity|].
  destruct (Ascii.eqb c z) eqn:Ez; [|reflexivity]. apply Ascii.eqb_eq in Ez. subst z.
  rewrite !prefix_cons in H. destruct s; discriminate.
Qed.

(** No match anywhere, no result. *)
Lemma findall_from_none r whole (P : string -> Prop) :
  (forall c s, P (String c s) -> P s) ->
  (forall pos s, P s -> Rx.exec r pos s [] accept = None) ->
  forall s pos, P s -> Rx.findall_from r whole pos 0 s = [].
Proof.
  intros Ht Hn. induction s as [|c s IH]; intros pos HP; cbn [Rx.findall_from];
    rewrite (Hn _ _ HP); [reflexivity|].
  apply IH. eapply Ht. exact HP.
Qed.

(** A pattern that starts with [^] matches at the start of the text
    only. *)
Lemma findall_from_bol r whole : forall s pos skip,
  (0 < pos)%nat -> Rx.findall_from (Rx.Seq (Rx.Base RBol) r) whole pos skip s = [].
Proof.
  induction s as [|c s IH]; intros pos skip Hpos.
  - destruct skip; cbn [Rx.findall_from Rx.exec Re.exec]; [|reflexivity].
    replace (pos =? 0)%nat with false; [reflexivity|].
    symmetry. apply Nat.eqb_neq. lia.
  - destruct skip; cbn [Rx.findall_from Rx.exec Re.exec]; [|apply IH; lia].
    replace (pos =? 0)%nat with false; [apply IH; lia|].
    symmetry. apply Nat.eqb_neq. lia.
Qed.

(** The characters of a match are passed over. *)
Lemma findall_from_skip r whole a : forall pos rest,
  Rx.findall_from r whole pos (String.length a) (a ++ rest)
  = Rx.findall_from r whole (pos + String.length a) 0 rest.
Proof.
  induction a as [|c a IH]; intros pos rest; cbn [String.length String.append].
  - rewrite Nat.add_0_r. reflexivity.
  - transitivity (Rx.findall_from r whole (S pos) (String.length a) (a ++ rest));
      [reflexivity|].
    rewrite IH. f_equal. lia.
Qed.

(** The lazy [.*?] finds nothing when the rest of the pattern fails
    everywhere. *)
Lemma lazy_any_none (P : string -> Prop) (k : cont) :
  (forall c s, P (String c s) -> P s) ->
  (forall pos s g, P s -> k pos s g = None) ->
  forall n pos s g, P s ->
    Rx.lazy_loop (Rx.exec (Rx.Base (RChar (fun _ => true)))) k n pos s g = None.
Proof.
  intros Ht Hk. induction n as [|n IH]; intros pos s g HP; cbn [Rx.lazy_loop];
    rewrite (Hk _ _ _ HP); [reflexivity|].
  cbn [Rx.exec Re.exec]. destruct s as [|c s]; [reflexivity|].
  rewrite (proj2 (Nat.ltb_lt pos (S pos))) by lia.
  apply IH. eapply Ht. exact HP.
Qed.

(** The lazy [.*?] stops where the rest of the pattern first matches:
    over a text [b] without the character [q] the rest needs at its
    head, that is after [b]. *)
Lemma lazy_any_run (q : ascii) (k : cont) x : forall b pos rest g n,
  PyStr.contains (String q EmptyString) b = false ->
  (forall pos' c s g', Ascii.eqb q c = false -> k pos' (String c s) g' = None) ->
  k (pos + String.length b)%nat rest g = Some x ->
  (String.length b <= n)%nat ->
  Rx.lazy_loop (Rx.exec (Rx.Base (RChar (fun _ => true)))) k n pos (b ++ rest) g = Some x.
Proof.
  induction b as [|c b IH]; intros pos rest g n Hb Hk Hx Hn;
    rewrite ?str_app_nil, ?str_app_cons; cbn [String.length] in *.
  - rewrite Nat.add_0_r in Hx. destruct n; cbn [Rx.lazy_loop]; rewrite Hx; reflexivity.
  - apply lacks_cons in Hb as [Hc Hb].
    destruct n as [|n]; [lia|]. cbn [Rx.lazy_loop].
    rewrite (Hk pos c _ g Hc). cbn [Rx.exec Re.exec].
    rewrite (proj2 (Nat.ltb_lt pos (S pos))) by lia.
    apply IH; [exact Hb|exact Hk| |lia].
    rewrite <- Hx. f_equal. lia.
Qed.

(** The greedy [[...]*] runs to the end of the characters of its class
    when the rest of the pattern matches there. *)
Lemma star_class_run (p : ascii -> bool) (k : cont) x : forall a pos rest g n,
  forallb p (list_ascii_of_string a) = true ->
  match rest with String c _ => p c = false | EmptyString => True end ->
  k (pos + String.length a)%nat rest g = Some x ->
  (String.length a <= n)%nat ->
  star_loop (Re.exec (RChar p)) k n pos (a ++ rest) g = Some x.
Proof.
  induction a as [|c a IH]; intros pos rest g n Ha Hr Hx Hn;
    rewrite ?str_app_nil, ?str_app_cons;
    cbn [String.length list_ascii_of_string forallb] in *.
  - rewrite Nat.add_0_r in Hx. destruct n; cbn [star_loop]; [exact Hx|].
    destruct rest as [|c r]; [exact Hx|]. rewrite exec_char_cons, Hr. exact Hx.
  - apply andb_true_iff in Ha as [Hc Ha].
    destruct n as [|n]; [lia|]. cbn [star_loop]. rewrite exec_char_cons, Hc.
    rewrite (proj2 (Nat.ltb_lt pos (S pos))) by lia.
    rewrite (IH (S pos) rest g n Ha Hr); [reflexivity| |lia].
    rewrite <- Hx. f_equal. lia.
Qed.

Lemma rx_exec_seq r1 r2 pos s g k :
  Rx.exec (Rx.Seq r1 r2) pos s g k
  = Rx.exec r1 pos s g (fun pos' s' g' => Rx.exec r2 pos' s' g' k).
Proof. reflexivity. Qed.

Lemma rx_exec_lazy_any pos s g k :
  Rx.exec Rx.lazy_any pos s g k
  = Rx.lazy_loop (Rx.exec (Rx.Base (RChar (fun _ => true))))
      (fun pos' s' g' => k pos' s' ((1%nat, (pos, pos')) :: g')) (String.length s) pos s g.
Proof. reflexivity. Qed.

Lemma rx_exec_first_line pos s g k :
  Rx.exec Rx.first_line pos s g k
  = match star_loop (Re.exec (RChar any_but_newline))
            (fun pos' s' g' => Re.exec (RLit PyStr.LF) pos' s' g' k)
            (String.length s) pos s g with
    | Some x => Some x
    | None => k pos s g
    end.
Proof. reflexivity. Qed.

Lemma rx_exec_lit3 c pos s g k :
  Rx.exec (Rx.lit3 c) pos (String c (String c (String c s))) g k = k (S (S (S pos))) s g.
Proof.
  unfold Rx.lit3, RLit. cbn [rseq Rx.exec Re.exec]. rewrite Ascii.eqb_refl. reflexivity.
Qed.

Lemma rx_exec_lit3_head c d pos s g k :
  Ascii.eqb c d = false -> Rx.exec (Rx.lit3 c) pos (String d s) g k = None.
Proof.
  intros H. unfold Rx.lit3, RLit. cbn [rseq Rx.exec Re.exec]. rewrite H. reflexivity.
Qed.

(** The first line, the block and the closing fence: the match of
    [(?:[^\n]*\n)?(.*?)```] on a first line, a block without a backtick
    and a fence. Group 1 is the block. *)
Lemma block_exec pos lang body rest g :
  no_newline lang = true ->
  PyStr.contains "`" body = false ->
  Rx.exec (Rx.seq Rx.first_line [Rx.lazy_any; Rx.lit3 backtick]) pos
    (lang ++ nl ++ body ++ "```" ++ rest) g accept
  = Some (S (S (S (S (pos + String.length lang) + String.length body))),
          (1%nat, (S (pos + String.length lang),
                   (S (pos + String.length lang) + String.length body)%nat)) :: g).
Proof.
  intros Hl Hb. cbn [Rx.seq]. rewrite rx_exec_seq, rx_exec_first_line.
  erewrite star_class_run; [reflexivity|exact Hl|reflexivity| |rewrite str_length_app; lia].
  cbv beta. unfold nl. rewrite str_app_cons, str_app_nil.
  unfold RLit at 1. rewrite exec_char_cons, Ascii.eqb_refl.
  rewrite rx_exec_seq, rx_exec_lazy_any.
  apply (lazy_any_run backtick); [exact Hb| | |rewrite str_length_app; lia].
  - intros pos' c s g' Hc. apply rx_exec_lit3_head. exact Hc.
  - rewrite !str_app_cons, str_app_nil. fold backtick. rewrite rx_exec_lit3. reflexivity.
Qed.

Lemma str_app_assoc a b c : ((a ++ b) ++ c)%string = (a ++ b ++ c)%string.
Proof.
  induction a as [|x a IH]; [reflexivity|].
  rewrite !str_app_cons, IH. reflexivity.
Qed.

Lemma group_block a b c bpos epos :
  bpos = String.length a -> epos = (bpos + String.length b)%nat ->
  Re.group (a ++ b ++ c) [(1%nat, (bpos, epos))] 1 = b.
Proof.
  intros -> ->. unfold Re.group. cbn [List.find fst Nat.eqb].
  replace (String.length a + String.length b - String.length a)%nat
    with (String.length b) by lia.
  apply substring_middle.
Qed.

Lemma lacks_tail p c s : PyStr.contains p (String c s) = false -> PyStr.contains p s = false.
Proof. cbn [PyStr.contains]. intros H. apply orb_false_iff in H as [_ H]. exact H. Qed.

Lemma lacks_prefix p s : PyStr.contains p s = false -> String.prefix p s = false.
Proof.
  destruct s; cbn [PyStr.contains]; intros H; apply orb_false_iff in H as [H _]; exact H.
Qed.

(** Every pattern of [parse_code] needs a backtick where it starts or
    later. *)
Lemma code_pattern_none pat pos s :
  In pat code_patterns -> PyStr.contains "`" s = false ->
  Rx.exec pat pos s [] accept = None.
Proof.
  unfold code_patterns. intros [<-|[<-|[<-|[<-|[<-|[]]]]]] H; cbn [Rx.seq];
    rewrite rx_exec_seq.
  - apply lit3_none. apply lacks_head. exact H.
  - apply lit3_none. apply lacks_head. exact H.
  - cbn [Rx.exec Re.exec]. destruct (pos =? 0)%nat; [|reflexivity].
    rewrite rx_exec_lazy_any.
    apply (lazy_any_none (fun s => PyStr.contains "`" s = false)); [|
      |exact H].
    + intros c s'. apply lacks_tail.
    + intros pos' s' g' H'. apply lit3_none. apply lacks_head. exact H'.
  - cbn [Rx.exec]. apply exec_lit_none. apply lacks_head. exact H.
  - apply lit3_none. apply lacks_head. exact H.
Qed.

Lemma parse_code_loop_none patterns text :
  (forall pat, In pat patterns -> Rx.findall pat text = []) ->
  parse_code_loop patterns text = Raise NoCodeError.
Proof.
  induction patterns as [|pat rest IH]; intros H; cbn [parse_code_loop]; [reflexivity|].
  rewrite (H pat) by (left; reflexivity). cbn [first_not_blank].
  apply IH. intros p Hp. apply H. right. exact Hp.
Qed.

(** What [parse_code] returns starts with a block that is not blank; it
    raises nothing but NoCodeError. *)
Lemma parse_code_loop_outcome patterns text :
  match parse_code_loop patterns text with
  | Ok tmp => first_not_blank tmp = true
  | Raise e => e = NoCodeError
  end.
Proof.
  induction patterns as [|pat rest IH]; cbn [parse_code_loop]; [reflexivity|].
  destruct (first_not_blank (Rx.findall pat text)) eqn:E; [exact E|exact IH].
Qed.

(** The first pattern on a fenced block. *)
Lemma fenced_exec lang body rest :
  no_newline lang = true ->
  PyStr.contains "`" body = false ->
  exists more,
    Rx.findall (Rx.seq (Rx.lit3 backtick) [Rx.first_line; Rx.lazy_any; Rx.lit3 backtick])
      ("```" ++ lang ++ nl ++ body ++ "```" ++ rest)
    = body :: more.
Proof.
  intros Hl Hb. unfold Rx.findall.
  set (whole := ("```" ++ lang ++ nl ++ body ++ "```" ++ rest)%string).
  change (Rx.seq (Rx.lit3 backtick) [Rx.first_line; Rx.lazy_any; Rx.lit3 backtick])
    with (Rx.Seq (Rx.lit3 backtick) (Rx.seq Rx.first_line [Rx.lazy_any; Rx.lit3 backtick])).
  assert (E : Rx.exec
                (Rx.Seq (Rx.lit3 backtick)
                   (Rx.seq Rx.first_line [Rx.lazy_any; Rx.lit3 backtick]))
                0 whole [] accept
              = Some (S (S (S (S (3 + String.length lang) + String.length body))),
                      [(1%nat, (S (3 + String.length lang),
                                (S (3 + String.length lang) + String.length body)%nat))])).
  { unfold whole. rewrite !str_app_cons, str_app_nil. fold backtick.
    rewrite rx_exec_seq, rx_exec_lit3. apply block_exec; assumption. }
  assert (G : Re.group whole
                [(1%nat, (S (3 + String.length lang),
                          (S (3 + String.length lang) + String.length body)%nat))] 1
              = body).
  { unfold whole. rewrite <- (str_app_assoc lang nl), <- (str_app_assoc "```" (lang ++ nl)).
    apply group_block; [|reflexivity].
    rewrite !str_length_app. simpl. lia. }
  destruct whole as [|c w] eqn:Ew; [discriminate|].
  cbn [Rx.findall_from]. rewrite E, G. eexists. reflexivity.
Qed.

Lemma parse_code_fenced lang body rest :
  no_newline lang = true ->
  PyStr.contains "`" body = false ->
  nonempty (PyStr.strip body) = true ->
  exists more, parse_code ("```" ++ lang ++ nl ++ body ++ "```" ++ rest) = Ok (body :: more).
Proof.
  intros Hl Hb Hn. destruct (fenced_exec lang body rest Hl Hb) as [more E].
  exists more. unfold parse_code, code_patterns. cbn [parse_code_loop].
  rewrite E. cbn [first_not_blank]. rewrite Hn. reflexivity.
Qed.

(** X26: a response without a backtick holds no code: [parse_code] raises
    NoCodeError. *)
Theorem parse_code_needs_backtick (text : string) :
  PyStr.contains "`" text = false -> parse_code text = Raise NoCodeError.
Proof.
  intros H. apply parse_code_loop_none. intros pat Hin.
  apply (findall_from_none pat text (fun s => PyStr.contains "`" s = false)).
  - intros c s. apply lacks_tail.
  - intros pos s Hs. apply code_pattern_none; assumption.
  - exact H.
Qed.

Lemma parse_code_needs_backtick_witness :
  parse_code "The loop bound is off by one." = Raise NoCodeError.
Proof. apply parse_code_needs_backtick. reflexivity. Defined.

(** X27: a fenced block. When the response starts with a fence, a first
    line (the language tag), a block that holds no backtick and is not
    blank, and a closing fence, the first block [parse_code] returns is
    that block, whatever follows the closing fence. *)
Theorem parse_code_fenced_block (lang body rest : string) :
  no_newline lang = true ->
  PyStr.contains "`" body = false ->
  nonempty (PyStr.strip body) = true ->
  exists more, parse_code ("```" ++ lang ++ nl ++ body ++ "```" ++ rest) = Ok (body :: more).
Proof. apply parse_code_fenced. Qed.

Lemma parse_code_fenced_block_witness :
  exists more,
    parse_code ("```" ++ "diff" ++ nl ++ ("- a;" ++ nl ++ "+ b;" ++ nl) ++ "```" ++ " done")
    = Ok (("- a;" ++ nl ++ "+ b;" ++ nl)%string :: more).
Proof. apply (parse_code_fenced_block "diff" _ " done"); reflexivity. Defined.

Lemma exp_pattern_none r pos s :
  PyStr.contains "===" s = false ->
  Rx.exec (Rx.Seq (Rx.lit3 "=") r) pos s [] accept = None.
Proof.
  intros H. rewrite rx_exec_seq. apply lit3_none. apply lacks_prefix. exact H.
Qed.

Lemma findall_no_marker r text :
  PyStr.contains "===" text = false -> Rx.findall (Rx.Seq (Rx.lit3 "=") r) text = [].
Proof.
  intros H. apply (findall_from_none _ text (fun s => PyStr.contains "===" s = false)).
  - intros c s. apply lacks_tail.
  - intros pos s Hs. apply exp_pattern_none. exact Hs.
  - exact H.
Qed.

(** X28: without a [===] marker the explanation is looked for before the
    first fence, and the first line of the response is not part of it:
    for a response made of a first line, a text without a backtick and a
    fence, [parse_exp] returns that text. *)
Theorem parse_exp_skips_first_line (line body rest : string) :
  no_newline line = true ->
  PyStr.contains "`" body = false ->
  PyStr.contains "===" (line ++ nl ++ body ++ "```" ++ rest) = false ->
  parse_exp (line ++ nl ++ body ++ "```" ++ rest) = body.
Proof.
  intros Hl Hb Hm. unfold parse_exp, exp_patterns. cbn [parse_exp_loop Rx.seq].
  rewrite !findall_no_marker by exact Hm.
  unfold Rx.findall.
  set (whole := (line ++ nl ++ body ++ "```" ++ rest)%string).
  assert (E : Rx.exec
                (Rx.Seq (Rx.Base RBol)
                   (Rx.Seq Rx.first_line (Rx.Seq Rx.lazy_any (Rx.lit3 backtick))))
                0 whole [] accept
              = Some (S (S (S (S (0 + String.length line) + String.length body))),
                      [(1%nat, (S (0 + String.length line),
                                (S (0 + String.length line) + String.length body)%nat))])).
  { rewrite rx_exec_seq. cbn [Rx.exec Re.exec Nat.eqb].
    apply (block_exec 0 line body rest []); assumption. }
  assert (G : Re.group whole
                [(1%nat, (S (0 + String.length line),
                          (S (0 + String.length line) + String.length body)%nat))] 1
              = body).
  { unfold whole. rewrite <- (str_app_assoc line nl).
    apply group_block; [|reflexivity].
    rewrite !str_length_app. simpl. lia. }
  destruct whole as [|c w] eqn:Ew; cbn [Rx.findall_from]; rewrite E, G.
  - reflexivity.
  - cbn [Nat.eqb]. rewrite findall_from_bol by lia. reflexivity.
Qed.

Lemma parse_exp_skips_first_line_witness :
  parse_exp ("The bound is wrong." ++ nl ++ "Fix:" ++ nl ++ "```" ++ "x = 1;```") = "Fix:" ++ nl.
Proof.
  apply (parse_exp_skips_first_line "The bound is wrong." ("Fix:" ++ nl) "x = 1;```");
    reflexivity.
Defined.

(** X29: what [parse_response] returns. The patch text holds no [===],
    is trimmed, and the response is kept as it came; the call raises
    nothing but NoCodeError, and that only when [parse_code] raises it:
    the test for an empty list of blocks never fires. *)
Theorem parse_response_outcome (response : string) :
  match parse_response response with
  | Ok p =>
      PyStr.contains "===" (aim p) = false /\
      PyStr.strip (aim p) = aim p /\
      exp p = parse_exp response /\
      ori p = response
  | Raise e => e = NoCodeError /\ parse_code response = Raise NoCodeError
  end.
Proof.
  unfold parse_response, parse_code.
  pose proof (parse_code_loop_outcome code_patterns response) as H.
  destruct (parse_code_loop code_patterns response) as [parts|e]; cbn [rbind].
  - destruct parts as [|part parts]; [discriminate|]. cbn [aim exp ori].
    destruct (PyStr.contains "===" (PyStr.strip part)) eqn:E.
    + rewrite slice_to_find by exact E. repeat split.
      * apply contains_strip. apply split_head_lacks. discriminate.
      * apply strip_idem.
    + repeat split; [exact E|apply strip_idem].
  - subst e. split; reflexivity.
Qed.

(** X30: from the response to the patch text. For a response that
    starts with a fenced block without a backtick and without [===], the
    patch text is the trimmed block. *)
Theorem parse_response_fenced_block (lang body rest : string) :
  no_newline lang = true ->
  PyStr.contains "`" body = false ->
  PyStr.contains "===" body = false ->
  nonempty (PyStr.strip body) = true ->
  exists p,
    parse_response ("```" ++ lang ++ nl ++ body ++ "```" ++ rest) = Ok p /\
    aim p = PyStr.strip body.
Proof.
  intros Hl Hb Hm Hn. destruct (parse_code_fenced lang body rest Hl Hb Hn) as [more E].
  unfold parse_response. rewrite E. cbn [rbind].
  rewrite (contains_strip _ _ Hm). eexists. split; reflexivity.
Qed.

Lemma parse_response_fenced_block_witness :
  exists p,
    parse_response ("```" ++ "diff" ++ nl ++ ("- a;" ++ nl ++ "+ b;" ++ nl) ++ "```" ++ " done")
    = Ok p /\
    aim p = PyStr.strip ("- a;" ++ nl ++ "+ b;" ++ nl).
Proof. apply (parse_response_fenced_block "diff" _ " done"); reflexivity. Defined.

